(** * netmap configuration buffers (sys/dev/netmap/netmap_config.c)

    A shallow embedding of the chained-chunk byte buffer [netmap_confbuf],
    of the single-byte stream adapter built on its read side and of the
    [netmap_config_write] / [netmap_config_read] entry points, together
    with the properties the design document states about them.

    Kernel memory is an explicit store: chunks live in a finite map from
    addresses to [nm_confbuf_data] values, the buffer holds addresses into
    that map, and the two cursors of one buffer alias the same chain. *)

From stdpp Require Import gmap list.
From Stdlib Require Import ZArith Lia.

Local Open Scope Z_scope.

(** ** Machine integers *)

Definition NM_CBDATASIZ : Z := 1024.
Definition NM_CBDATAMAX : Z := 4.

Definition ENOMEM : Z := 12.
Definition EFAULT : Z := 14.

Definition INT_MAX : Z := 2147483647.

(** [u_int] arithmetic wraps modulo 2^32. *)
Definition u_int (z : Z) : Z := z mod 4294967296.

(** Conversion to [int] (two's complement, 32 bits), as in
    [int s = uio->uio_resid]. *)
Definition to_int (z : Z) : Z := (z + 2147483648) mod 4294967296 - 2147483648.

(** [*(char * )p] widened to [int]; plain [char] is signed on the
    platforms the driver is built for. *)
Definition char_to_int (b : Z) : Z := (b + 128) mod 256 - 128.

(** ** Outcomes

    [Fault] is an access through a NULL or dangling pointer, or outside a
    chunk's storage (undefined behaviour in C); [Diverge] is a loop that
    never leaves. *)

Inductive result (A : Type) : Type :=
  | Ok (a : A)
  | Fault
  | Diverge.
Arguments Ok {A} a.
Arguments Fault {A}.
Arguments Diverge {A}.

#[global] Instance result_ret : MRet result := fun A a => Ok a.
#[global] Instance result_bind : MBind result := fun A B f r =>
  match r with
  | Ok a => f a
  | Fault => Fault
  | Diverge => Diverge
  end.

(** ** Kernel memory *)

Abbreviation addr := positive.

(** [struct nm_confbuf_data]: the [chain] link, the logical [size] and the
    storage [data[]] (whose length is what was given to [malloc]). *)
Record nm_confbuf_data : Type := mk_data {
  d_chain : option addr;
  d_size : Z;
  d_data : list Z;
}.

(** The allocator: the live chunks, the outcomes of the coming
    [malloc(..., M_NOWAIT)] calls ([true] is a failure; an empty list means
    every call succeeds) and the bytes a new chunk happens to hold. *)
Record kmem : Type := mk_kmem {
  blocks : gmap positive nm_confbuf_data;
  m_fail : list bool;
  m_junk : positive -> Z -> Z;
}.

Definition set_blocks (m : kmem) (b : gmap positive nm_confbuf_data) : kmem :=
  mk_kmem b (m_fail m) (m_junk m).

Definition deref (m : kmem) (p : option addr) : result nm_confbuf_data :=
  match p with
  | None => Fault
  | Some a =>
      match blocks m !! a with
      | Some c => Ok c
      | None => Fault
      end
  end.

Definition junk_bytes (m : kmem) (a : addr) (s : Z) : list Z :=
  map (fun i => m_junk m a (Z.of_nat i)) (seq 0 (Z.to_nat s)).

(** [malloc(sizeof( *d) + s, M_DEVBUF, M_NOWAIT)]: NULL, or a chunk that was
    not live, with [s] bytes of storage of indeterminate content. *)
Definition malloc (m : kmem) (s : Z) : option addr * kmem :=
  match m_fail m with
  | true :: rest => (None, mk_kmem (blocks m) rest (m_junk m))
  | _ =>
      let a := fresh (dom (blocks m)) in
      (Some a,
       mk_kmem (<[a := mk_data None 0 (junk_bytes m a s)]> (blocks m))
               (tail (m_fail m)) (m_junk m))
  end.

Definition free (m : kmem) (a : addr) : kmem :=
  set_blocks m (delete a (blocks m)).

(** A byte range inside a chunk's storage. *)
Definition load_bytes (m : kmem) (p : addr * Z) (n : Z) : result (list Z) :=
  c ← deref m (Some p.1);
  if (0 <=? p.2) && (0 <=? n) && (p.2 + n <=? Z.of_nat (length (d_data c)))
  then Ok (take (Z.to_nat n) (drop (Z.to_nat p.2) (d_data c)))
  else Fault.

Definition store_bytes (m : kmem) (p : addr * Z) (bs : list Z) : result kmem :=
  c ← deref m (Some p.1);
  if (0 <=? p.2) && (p.2 + Z.of_nat (length bs) <=? Z.of_nat (length (d_data c)))
  then Ok (set_blocks m
             (<[p.1 := mk_data (d_chain c) (d_size c)
                         (take (Z.to_nat p.2) (d_data c) ++ bs ++
                          drop (Z.to_nat p.2 + length bs) (d_data c))]> (blocks m)))
  else Fault.

(** Stores to the two header fields of a live chunk. *)
Definition set_size (m : kmem) (a : addr) (v : Z) : result kmem :=
  c ← deref m (Some a);
  Ok (set_blocks m (<[a := mk_data (d_chain c) v (d_data c)]> (blocks m))).

Definition set_chain (m : kmem) (a : addr) (p : option addr) : result kmem :=
  c ← deref m (Some a);
  Ok (set_blocks m (<[a := mk_data p (d_size c) (d_data c)]> (blocks m))).

(** ** The buffer *)

(** [struct netmap_confbuf] (declared in netmap_kern.h): the fields this
    file uses. *)
Record netmap_confbuf : Type := mk_cb {
  readp : option addr;
  writep : option addr;
  next_r : Z;
  next_w : Z;
  n_data : Z;
}.

(** [memset(cb, 0, sizeof( *cb))] *)
Definition cb_zero : netmap_confbuf := mk_cb None None 0 0 0.

Definition set_next_w (cb : netmap_confbuf) (v : Z) : netmap_confbuf :=
  mk_cb (readp cb) (writep cb) (next_r cb) v (n_data cb).
Definition set_next_r (cb : netmap_confbuf) (v : Z) : netmap_confbuf :=
  mk_cb (readp cb) (writep cb) v (next_w cb) (n_data cb).
Definition set_n_data (cb : netmap_confbuf) (v : Z) : netmap_confbuf :=
  mk_cb (readp cb) (writep cb) (next_r cb) (next_w cb) v.
Definition set_writep (cb : netmap_confbuf) (p : option addr) : netmap_confbuf :=
  mk_cb (readp cb) p (next_r cb) (next_w cb) (n_data cb).
Definition set_readp (cb : netmap_confbuf) (p : option addr) : netmap_confbuf :=
  mk_cb p (writep cb) (next_r cb) (next_w cb) (n_data cb).

(** A [void *] into a chunk's storage: the chunk and the offset in
    [data[]]; [None] is NULL. *)
Abbreviation region := (option (addr * Z)).

(** The label [out:] of [netmap_confbuf_pre_write]: clamp [s] to the
    request, report it through [avl_size] when that is not NULL, and
    return [d->data + b]. *)
Definition pre_write_out (m : kmem) (cb : netmap_confbuf) (req_size : Z)
    (avl_size : option Z) (d : addr) (b s : Z)
    : kmem * netmap_confbuf * region * option Z :=
  let s := if req_size <? s then req_size else s in
  (m, cb, Some (d, b),
   match avl_size with Some _ => Some s | None => None end).

(** The size of a new chunk: the default, or the request when that is
    larger and the caller did not accept less. *)
Definition expand_size (req_size : Z) (avl_size : option Z) : Z :=
  if (NM_CBDATASIZ <? req_size) && bool_decide (avl_size = None)
  then req_size else NM_CBDATASIZ.

(** "we need to expand the buffer, if possible": the part of
    [netmap_confbuf_pre_write] between the first test and [out:]. *)
Definition pre_write_expand (m : kmem) (cb : netmap_confbuf) (req_size : Z)
    (avl_size : option Z)
    : result (kmem * netmap_confbuf * region * option Z) :=
  if NM_CBDATAMAX <=? n_data cb then Ok (m, cb, None, avl_size)
  else
    let s := expand_size req_size avl_size in
    match malloc m s with
    | (None, m1) => Ok (m1, cb, None, avl_size)
    | (Some nd, m1) =>
        m2 ← set_size m1 nd s;
        m3 ← set_chain m2 nd None;
        m4 ← match writep cb with
             | Some d => m' ← set_size m3 d (next_w cb); set_chain m' d (Some nd)
             | None => Ok m3
             end;
        let cb1 := set_n_data cb (u_int (n_data cb + 1)) in
        let cb2 := match readp cb1 with
                   | None => set_writep (set_readp cb1 (Some nd)) (Some nd)
                   | Some _ => cb1
                   end in
        Ok (pre_write_out m4 cb2 req_size avl_size nd 0 s)
    end.

(** [netmap_confbuf_pre_write(cb, req_size, avl_size)].  [avl_size] is
    [None] for a NULL pointer and [Some v] for a pointer to a variable
    holding [v]; the last component of the result is that variable after
    the call. *)
Definition netmap_confbuf_pre_write (m : kmem) (cb : netmap_confbuf)
    (req_size : Z) (avl_size : option Z)
    : result (kmem * netmap_confbuf * region * option Z) :=
  match writep cb with
  | None => pre_write_expand m cb req_size avl_size
  | Some d =>
      c ← deref m (Some d);
      let s := u_int (d_size c - next_w cb) in
      if (0 <? s) && ((req_size <=? s) || bool_decide (is_Some avl_size))
      then Ok (pre_write_out m cb req_size avl_size d (next_w cb) s)
      else pre_write_expand m cb req_size avl_size
  end.

(** [netmap_confbuf_post_write(cb, size)] *)
Definition netmap_confbuf_post_write (m : kmem) (cb : netmap_confbuf) (size : Z)
    : result netmap_confbuf :=
  c ← deref m (writep cb);
  let cb := if next_w cb =? d_size c
            then set_next_w (set_writep cb (d_chain c)) 0
            else cb in
  Ok (set_next_w cb (u_int (next_w cb + size))).

(** The [for (;;)] of [netmap_confbuf_pre_read]. *)
Fixpoint pre_read_loop (fuel : nat) (m : kmem) (d : option addr) (n size : Z)
    : result (region * Z) :=
  match fuel with
  | O => Diverge
  | S fuel =>
      match d with
      | None => Ok (None, 0)
      | Some a =>
          c ← deref m d;
          if n <? d_size c then
            let s := u_int (d_size c - n) in
            Ok (Some (a, n), if size <? s then size else s)
          else pre_read_loop fuel m (d_chain c) 0 size
      end
  end.

(** [netmap_confbuf_pre_read(cb, size)]: the region and the value left in
    [*size].  A walk that has seen more chunks than are live is in a cycle
    of exhausted chunks, which the C loop never leaves. *)
Definition netmap_confbuf_pre_read (m : kmem) (cb : netmap_confbuf) (size : Z)
    : result (region * Z) :=
  pre_read_loop (S (base.size (blocks m))) m (readp cb) (next_r cb) size.

(** [netmap_confbuf_post_read(cb, size)] *)
Definition netmap_confbuf_post_read (m : kmem) (cb : netmap_confbuf) (size : Z)
    : result (kmem * netmap_confbuf) :=
  c ← deref m (readp cb);
  let '(m, cb) :=
    if next_r cb =? d_size c then
      match readp cb with
      | Some ocb =>
          (free m ocb,
           set_n_data (set_next_r (set_readp cb (d_chain c)) 0)
                      (u_int (n_data cb - 1)))
      | None => (m, cb)
      end
    else (m, cb) in
  Ok (m, set_next_r cb (u_int (next_r cb + size))).

(** [struct netmap_jp_stream]: the parser's stream header followed by the
    buffer it reads from. *)
Record netmap_jp_stream : Type := mk_jp { jp_cb : netmap_confbuf }.

(** [netmap_confbuf_peek(jp)] *)
Definition netmap_confbuf_peek (m : kmem) (jp : netmap_jp_stream) : result Z :=
  '(p, _) ← netmap_confbuf_pre_read m (jp_cb jp) 1;
  match p with
  | None => Ok 0
  | Some q => bs ← load_bytes m q 1;
              match bs with
              | b :: _ => Ok (char_to_int b)
              | [] => Fault
              end
  end.

(** [netmap_confbuf_consume(jp)] *)
Definition netmap_confbuf_consume (m : kmem) (jp : netmap_jp_stream)
    : result (kmem * netmap_jp_stream) :=
  '(m, cb) ← netmap_confbuf_post_read m (jp_cb jp) 1;
  Ok (m, mk_jp cb).

(** The [while (d)] of [netmap_confbuf_destroy]. *)
Fixpoint destroy_loop (fuel : nat) (m : kmem) (d : option addr) : result kmem :=
  match fuel with
  | O => Diverge
  | S fuel =>
      match d with
      | None => Ok m
      | Some a =>
          c ← deref m d;
          destroy_loop fuel (free m a) (d_chain c)
      end
  end.

(** [netmap_confbuf_destroy(cb)].  Every iteration frees a live chunk, so
    the loop runs at most once per live chunk before it ends or faults. *)
Definition netmap_confbuf_destroy (m : kmem) (cb : netmap_confbuf)
    : result (kmem * netmap_confbuf) :=
  m ← destroy_loop (S (base.size (blocks m))) m (readp cb);
  Ok (m, cb_zero).

(** ** The transport *)

Inductive uio_rw : Type := UIO_READ | UIO_WRITE.

(** [struct uio], reduced to what [uiomove] needs.  For [UIO_WRITE]
    [uio_user] holds the bytes the caller still has to hand over; for
    [UIO_READ] it holds the bytes delivered so far.  [uio_fault] is the
    number of bytes of caller memory that can still be touched before the
    copy faults ([None]: all of it is valid). *)
Record uio : Type := mk_uio {
  uio_dir : uio_rw;
  uio_resid : Z;
  uio_user : list Z;
  uio_fault : option Z;
}.

(** Modelled from the spec: [uiomove(cp, n, uio)], "move up to that many
    bytes, report the exact count moved, and report remaining outstanding
    bytes for the overall request; may fail with a transfer error".  The
    kernel routine moves [min(n, uio_resid)] bytes between [cp] and the
    caller's memory and lowers [uio_resid] by what it moved; when the
    caller's memory turns out invalid it returns [EFAULT] with the bytes
    before the bad address already moved. *)
Definition uiomove (m : kmem) (cp : addr * Z) (n : Z) (u : uio)
    : result (Z * kmem * uio) :=
  let cnt := Z.min n (uio_resid u) in
  if cnt <=? 0 then Ok (0, m, u)
  else
    let '(k, err, flt) :=
      match uio_fault u with
      | Some f => if f <? cnt then (Z.max f 0, EFAULT, Some 0)
                  else (cnt, 0, Some (f - cnt))
      | None => (cnt, 0, None)
      end in
    match uio_dir u with
    | UIO_WRITE =>
        let bs := take (Z.to_nat k) (uio_user u) in
        m ← store_bytes m cp bs;
        Ok (err, m, mk_uio UIO_WRITE (uio_resid u - k)
                      (drop (Z.to_nat k) (uio_user u)) flt)
    | UIO_READ =>
        bs ← load_bytes m cp k;
        Ok (err, m, mk_uio UIO_READ (uio_resid u - k) (uio_user u ++ bs) flt)
    end.

(** A write request for the bytes [bs], and a read request for [n] bytes. *)
Definition uio_write (bs : list Z) (flt : option Z) : uio :=
  mk_uio UIO_WRITE (Z.of_nat (length bs)) bs flt.
Definition uio_read (n : Z) (flt : option Z) : uio :=
  mk_uio UIO_READ n [] flt.

(** ** The configuration channel *)

(** [struct netmap_config]: [buf[0]] takes the input, [buf[1]] holds the
    output.  The mutex [mux] serialises the entry points; one call at a
    time is what is modelled here. *)
Record netmap_config : Type := mk_config {
  buf0 : netmap_confbuf;
  buf1 : netmap_confbuf;
}.

(** [netmap_config_parse(c)]: an empty body. *)
Definition netmap_config_parse (m : kmem) (c : netmap_config)
    : kmem * netmap_config := (m, c).

(** The [while (uio->uio_resid > 0)] of [netmap_config_write], on the
    buffer [i].  The result is [ret] with the memory, buffer and request
    left behind. *)
Fixpoint write_loop (fuel : nat) (m : kmem) (i : netmap_confbuf) (u : uio)
    : result (Z * kmem * netmap_confbuf * uio) :=
  match fuel with
  | O => Diverge
  | S fuel =>
      if 0 <? uio_resid u then
        let s := to_int (uio_resid u) in
        '(m, i, p, avl) ← netmap_confbuf_pre_write m i (u_int s) (Some (u_int s));
        match p with
        | None => Ok (ENOMEM, m, i, u)
        | Some q =>
            let s := to_int (default 0 avl) in
            '(ret, m, u) ← uiomove m q s u;
            if negb (ret =? 0) then Ok (ret, m, i, u)
            else
              i ← netmap_confbuf_post_write m i (u_int s);
              write_loop fuel m i u
        end
      else Ok (0, m, i, u)
  end.

(** [netmap_config_write(c, uio)] *)
Definition netmap_config_write (fuel : nat) (m : kmem) (c : netmap_config)
    (u : uio) : result (Z * kmem * netmap_config * uio) :=
  '(m, o) ← netmap_confbuf_destroy m (buf1 c);
  '(ret, m, i, u) ← write_loop fuel m (buf0 c) u;
  Ok (ret, m, mk_config i o, u).

(** The [while (uio->uio_resid > 0)] of [netmap_config_read], on the
    buffer [o]. *)
Fixpoint read_loop (fuel : nat) (m : kmem) (o : netmap_confbuf) (u : uio)
    : result (Z * kmem * netmap_confbuf * uio) :=
  match fuel with
  | O => Diverge
  | S fuel =>
      if 0 <? uio_resid u then
        let s := to_int (uio_resid u) in
        '(p, sz) ← netmap_confbuf_pre_read m o (u_int s);
        match p with
        | None => Ok (0, m, o, u)
        | Some q =>
            let s := to_int sz in
            '(ret, m, u) ← uiomove m q s u;
            if negb (ret =? 0) then Ok (ret, m, o, u)
            else
              '(m, o) ← netmap_confbuf_post_read m o (u_int s);
              read_loop fuel m o u
        end
      else Ok (0, m, o, u)
  end.

(** [netmap_config_read(c, uio)] *)
Definition netmap_config_read (fuel : nat) (m : kmem) (c : netmap_config)
    (u : uio) : result (Z * kmem * netmap_config * uio) :=
  let '(m, c) := netmap_config_parse m c in
  '(ret, m, o, u) ← read_loop fuel m (buf1 c) u;
  Ok (ret, m, mk_config (buf0 c) o, u).

(** [netmap_config_uninit(c)] without the mutex. *)
Definition netmap_config_uninit (m : kmem) (c : netmap_config)
    : result (kmem * netmap_config) :=
  let '(m, c) := netmap_config_parse m c in
  '(m, i) ← netmap_confbuf_destroy m (buf0 c);
  '(m, o) ← netmap_confbuf_destroy m (buf1 c);
  Ok (m, mk_config i o).

(** ** Readings of the design document, to compare with the code *)

(** The document's [commit_write]: advance [write_offset] by [size], and
    then roll to the successor if the tail is exactly exhausted. *)
Definition post_write_advance_first (m : kmem) (cb : netmap_confbuf) (size : Z)
    : result netmap_confbuf :=
  c ← deref m (writep cb);
  let cb := set_next_w cb (u_int (next_w cb + size)) in
  Ok (if next_w cb =? d_size c
      then set_next_w (set_writep cb (d_chain c)) 0
      else cb).

(** The document's [commit_read]: advance [read_offset] by [size], and on
    the same call free the head if the offset now equals its size. *)
Definition post_read_advance_first (m : kmem) (cb : netmap_confbuf) (size : Z)
    : result (kmem * netmap_confbuf) :=
  c ← deref m (readp cb);
  let cb := set_next_r cb (u_int (next_r cb + size)) in
  Ok (if next_r cb =? d_size c then
        match readp cb with
        | Some ocb =>
            (free m ocb,
             set_n_data (set_next_r (set_readp cb (d_chain c)) 0)
                        (u_int (n_data cb - 1)))
        | None => (m, cb)
        end
      else (m, cb)).

(** ** Well-formed write side

    What the write cursor looks like between two write calls that ran to
    their commit: no tail at all in an empty buffer, or a live tail with
    the offset inside it. *)
Definition wf_write (m : kmem) (cb : netmap_confbuf) : Prop :=
  match writep cb with
  | None => readp cb = None /\ next_w cb = 0
  | Some a =>
      exists c, blocks m !! a = Some c /\
                0 <= next_w cb <= d_size c /\ d_size c < 4294967296 /\
                readp cb <> None
  end.

(** ** The chain behind a pointer *)

(** The chunks met by following [chain] from [d] while the pointer is
    live, at most [fuel] of them. *)
Fixpoint chain_from (fuel : nat) (m : kmem) (d : option addr) : list addr :=
  match fuel, d with
  | S fuel, Some a =>
      match blocks m !! a with
      | Some c => a :: chain_from fuel m (d_chain c)
      | None => []
      end
  | _, _ => []
  end.

(** The chunks reachable from the read pointer: what
    [netmap_confbuf_destroy] can free. *)
Definition reachable (m : kmem) (cb : netmap_confbuf) : list addr :=
  chain_from (S (base.size (blocks m))) m (readp cb).

(** [is_chain B p l]: following [chain] from [p] through the live chunks
    [B] visits exactly the addresses [l] and then reaches NULL. *)
Fixpoint is_chain (B : gmap positive nm_confbuf_data) (p : option addr)
    (l : list addr) : Prop :=
  match l with
  | [] => p = None
  | a :: l' =>
      p = Some a /\ exists c, B !! a = Some c /\ is_chain B (d_chain c) l'
  end.

(** The invariant behind the segment cap: the chain behind the read
    pointer ends, visits no chunk twice, and is no longer than the count
    [n_data], which stays within the cap. *)
Definition cb_inv (m : kmem) (cb : netmap_confbuf) : Prop :=
  0 <= n_data cb <= NM_CBDATAMAX /\
  exists l, is_chain (blocks m) (readp cb) l /\ NoDup l /\
            Z.of_nat (length l) <= n_data cb.

(** ** Sequences of operations on one buffer *)

Inductive cb_op : Type :=
  | OpPreWrite (req_size : Z) (avl_size : option Z)
  | OpPostWrite (size : Z)
  | OpPreRead (size : Z)
  | OpPostRead (size : Z)
  | OpPeek
  | OpConsume
  | OpDestroy
  | OpWrite (fuel : nat) (u : uio)
  | OpRead (fuel : nat) (u : uio).

Definition step (op : cb_op) (st : kmem * netmap_confbuf)
    : result (kmem * netmap_confbuf) :=
  let '(m, cb) := st in
  match op with
  | OpPreWrite req avl =>
      '(m, cb, _, _) ← netmap_confbuf_pre_write m cb req avl; Ok (m, cb)
  | OpPostWrite size =>
      cb ← netmap_confbuf_post_write m cb size; Ok (m, cb)
  | OpPreRead size =>
      _ ← netmap_confbuf_pre_read m cb size; Ok (m, cb)
  | OpPostRead size => netmap_confbuf_post_read m cb size
  | OpPeek => _ ← netmap_confbuf_peek m (mk_jp cb); Ok (m, cb)
  | OpConsume =>
      '(m, jp) ← netmap_confbuf_consume m (mk_jp cb); Ok (m, jp_cb jp)
  | OpDestroy => netmap_confbuf_destroy m cb
  | OpWrite fuel u => '(_, m, cb, _) ← write_loop fuel m cb u; Ok (m, cb)
  | OpRead fuel u => '(_, m, cb, _) ← read_loop fuel m cb u; Ok (m, cb)
  end.

Fixpoint run (ops : list cb_op) (st : kmem * netmap_confbuf)
    : result (kmem * netmap_confbuf) :=
  match ops with
  | [] => Ok st
  | op :: ops => st ← step op st; run ops st
  end.

(** The length of the region a successful [netmap_confbuf_pre_write]
    hands out: what it stored through [avl_size], or the request itself
    when [avl_size] is NULL. *)
Definition region_len (req_size : Z) (avl' : option Z) : Z := default req_size avl'.

(** The capacity handed out along a run: the sum of the lengths of the
    regions returned by its [OpPreWrite] steps. *)
Fixpoint handed_out (ops : list cb_op) (st : kmem * netmap_confbuf) : Z :=
  match ops with
  | [] => 0
  | op :: ops =>
      match step op st with
      | Ok st' =>
          match op with
          | OpPreWrite req avl =>
              match netmap_confbuf_pre_write st.1 st.2 req avl with
              | Ok (_, _, Some _, avl') => region_len req avl'
              | _ => 0
              end
          | _ => 0
          end + handed_out ops st'
      | _ => 0
      end
  end.

(** The sizes of the chunks behind a pointer. *)
Definition chain_sizes (m : kmem) (l : list addr) : list Z :=
  map (fun a => match blocks m !! a with Some c => d_size c | None => 0 end) l.

(** ** The write side between two write calls of the channel

    [netmap_config_write] is the only caller of
    [netmap_confbuf_pre_write], always with [avl_size] set: every chunk has
    the default size, and a call that ran to its last commit leaves the
    cursor on a live tail. *)
Definition tail_free (m : kmem) (cb : netmap_confbuf) : Z :=
  match writep cb with
  | Some a =>
      match blocks m !! a with
      | Some c => d_size c - next_w cb
      | None => 0
      end
  | None => 0
  end.

Definition wf_tail (m : kmem) (cb : netmap_confbuf) : Prop :=
  0 <= n_data cb <= NM_CBDATAMAX /\
  match writep cb with
  | None => readp cb = None /\ next_w cb = 0
  | Some a =>
      exists c, blocks m !! a = Some c /\
        0 <= next_w cb <= d_size c /\ d_size c <= NM_CBDATASIZ /\
        d_size c <= Z.of_nat (length (d_data c)) /\
        readp cb <> None /\ 1 <= n_data cb
  end.

(** The bytes one write call can still store: the free suffix of the tail
    and the chunks the cap still allows. *)
Definition room (m : kmem) (cb : netmap_confbuf) : Z :=
  tail_free m cb + (NM_CBDATAMAX - n_data cb) * NM_CBDATASIZ.

(** A bound on the iterations of the write loop before it runs out of
    room. *)
Definition write_steps (m : kmem) (cb : netmap_confbuf) : nat :=
  (Z.to_nat (NM_CBDATAMAX - n_data cb) +
   (if (0 <? tail_free m cb)%Z then 1 else 0))%nat.

Definition sum_Z (l : list Z) : Z := foldr Z.add 0 l.

(** ** The buffer as a queue of bytes

    The states the channel's write calls build, read as a queue: every
    chunk has the default size, the chunks before the tail are written to
    the brim, the tail is written up to [next_w], and the read cursor is
    somewhere in the head. *)
Definition chunk_ok (c : nm_confbuf_data) : Prop :=
  d_size c = NM_CBDATASIZ /\ length (d_data c) = Z.to_nat NM_CBDATASIZ.

(** [rep B p cs]: the chain behind [p] is the list [cs] of addresses with
    the chunks they hold, and ends with NULL. *)
Fixpoint rep (B : gmap positive nm_confbuf_data) (p : option addr)
    (cs : list (addr * nm_confbuf_data)) : Prop :=
  match cs with
  | [] => p = None
  | ac :: cs' => p = Some ac.1 /\ B !! ac.1 = Some ac.2 /\ rep B (d_chain ac.2) cs'
  end.

(** [fifo m cb q]: the buffer holds the written and not yet read bytes
    [q], oldest first. *)
Definition fifo (m : kmem) (cb : netmap_confbuf) (q : list Z) : Prop :=
  match writep cb with
  | None =>
      readp cb = None /\ next_r cb = 0 /\ next_w cb = 0 /\ n_data cb = 0 /\
      q = []
  | Some a =>
      exists pre c,
        rep (blocks m) (readp cb) (pre ++ [(a, c)]) /\
        NoDup ((pre ++ [(a, c)]).*1) /\
        n_data cb = Z.of_nat (length pre) + 1 /\
        n_data cb <= NM_CBDATAMAX /\
        Forall chunk_ok (pre.*2) /\ chunk_ok c /\
        0 <= next_w cb <= NM_CBDATASIZ /\
        0 <= next_r cb <= NM_CBDATASIZ /\
        (pre = [] -> next_r cb <= next_w cb) /\
        q = drop (Z.to_nat (next_r cb))
              (concat (d_data <$> pre.*2) ++
               take (Z.to_nat (next_w cb)) (d_data c))
  end.

(** ** Concrete states and runs *)

(** An allocator with no live chunk, whose [malloc] always succeeds and
    hands out storage filled with [j]. *)
Definition mem_init (j : positive -> Z -> Z) : kmem := mk_kmem ∅ [] j.

Definition mem0 : kmem := mem_init (fun _ _ => 165).

Definition config0 : netmap_config := mk_config cb_zero cb_zero.

(** The state right after [netmap_confbuf_pre_write(cb, 1024, &s)] on an
    empty buffer. *)
Definition m_first : kmem :=
  mk_kmem {[ 1%positive := mk_data None 1024 (junk_bytes mem0 1%positive 1024) ]}
          [] (m_junk mem0).
Definition cb_first : netmap_confbuf :=
  mk_cb (Some 1%positive) (Some 1%positive) 0 0 1.

(** The memory and buffer left by a write call for the bytes [bs] whose
    transport does not fail. *)
Definition written (m : kmem) (cb : netmap_confbuf) (bs : list Z)
    : kmem * netmap_confbuf :=
  match write_loop (S (length bs)) m cb (uio_write bs None) with
  | Ok (_, m', cb', _) => (m', cb')
  | _ => (m, cb)
  end.

(** An empty buffer after one write call of 1024 bytes: one chunk, full. *)
Definition m_full : kmem := (written mem0 cb_zero (repeat 65 1024)).1.
Definition cb_full : netmap_confbuf := (written mem0 cb_zero (repeat 65 1024)).2.

(** A stream over an empty buffer, and one whose next unread byte is NUL. *)
Definition jp_empty : netmap_jp_stream := mk_jp cb_zero.
Definition m_nul : kmem := (written mem0 cb_zero [0]).1.
Definition jp_nul : netmap_jp_stream := mk_jp (written mem0 cb_zero [0]).2.

(** The memory and channel left by a call of [netmap_config_write]. *)
Definition after_write (m : kmem) (c : netmap_config) (u : uio)
    : kmem * netmap_config :=
  match netmap_config_write (S (Z.to_nat (uio_resid u))) m c u with
  | Ok (_, m', c', _) => (m', c')
  | _ => (m, c)
  end.

(** A channel whose input holds one full chunk, then the same channel
    after one and after two write calls of one byte whose transport
    faults on that byte. *)
Definition st_full : kmem * netmap_config :=
  after_write mem0 config0 (uio_write (repeat 65 1024) None).
Definition st_fail1 : kmem * netmap_config :=
  after_write st_full.1 st_full.2 (uio_write [66] (Some 0)).
Definition st_fail2 : kmem * netmap_config :=
  after_write st_fail1.1 st_fail1.2 (uio_write [66] (Some 0)).
(** ... and after a failing call followed by one that succeeds. *)
Definition st_retry : kmem * netmap_config :=
  after_write st_fail1.1 st_fail1.2 (uio_write [66] None).

(** Four write-and-commit turns that fill four chunks, reads that drain
    the first chunk and make the next commit free it, and one more
    request, served from a fifth chunk. *)
Definition ops_five_chunks : list cb_op :=
  [ OpPreWrite 1024 (Some 1024); OpPostWrite 1024;
    OpPreWrite 1024 (Some 1024); OpPostWrite 1024;
    OpPreWrite 1024 (Some 1024); OpPostWrite 1024;
    OpPreWrite 1024 (Some 1024); OpPostWrite 1024;
    OpPreRead 1024; OpPostRead 1024;
    OpPreRead 1; OpPostRead 1;
    OpPreWrite 1 (Some 1) ].

(** A channel whose output buffer holds one full chunk. *)
Definition config_out : netmap_config := mk_config cb_zero cb_full.

(** What a sequence of write calls leaves, if each of them succeeds. *)
Fixpoint write_all (st : kmem * netmap_confbuf) (ws : list (list Z))
    : kmem * netmap_confbuf :=
  match ws with
  | [] => st
  | w :: ws => write_all (written st.1 st.2 w) ws
  end.

(** ** Accounting of the live chunks *)

(** [counted m cb]: the allocator holds exactly [n_data] chunks, and the
    count is within the cap.  This is about a buffer that has the
    allocator to itself. *)
Definition counted (m : kmem) (cb : netmap_confbuf) : Prop :=
  Z.of_nat (base.size (blocks m)) = n_data cb /\ n_data cb <= NM_CBDATAMAX.

(** ** Whole calls on one buffer, and the queue they implement *)

(** A write call for the bytes [bs], a read call asking for [n] bytes,
    both with a transport that does not fail, and
    [netmap_confbuf_destroy]. *)
Inductive io_op : Type :=
  | IoWrite (bs : list Z)
  | IoRead (n : Z)
  | IoDestroy.

(** One call on the state [st]: the value returned, the bytes delivered
    to the caller and the state left. *)
Definition io_exec (op : io_op) (st : kmem * netmap_confbuf)
    : result (Z * list Z * (kmem * netmap_confbuf)) :=
  match op with
  | IoWrite bs =>
      '(ret, m, cb, _) ← write_loop (S (length bs)) st.1 st.2 (uio_write bs None);
      Ok (ret, [], (m, cb))
  | IoRead n =>
      '(ret, m, cb, u) ← read_loop (S (Z.to_nat n)) st.1 st.2 (uio_read n None);
      Ok (ret, uio_user u, (m, cb))
  | IoDestroy =>
      st ← netmap_confbuf_destroy st.1 st.2;
      Ok (0, [], st)
  end.

(** A sequence of calls, up to the first that does not return 0: the last
    value returned, all the bytes delivered and the state left. *)
Fixpoint io_run (ops : list io_op) (st : kmem * netmap_confbuf)
    : result (Z * list Z * (kmem * netmap_confbuf)) :=
  match ops with
  | [] => Ok (0, [], st)
  | op :: ops =>
      '(ret, out, st) ← io_exec op st;
      if ret =? 0 then
        '(ret, outs, st) ← io_run ops st;
        Ok (ret, out ++ outs, st)
      else Ok (ret, out, st)
  end.

(** The queue those calls are compared with.  [used] counts the bytes
    written since the buffer last had no chunk; a write is accepted while
    that stays within [NM_CBDATAMAX] chunks of the default size, a read
    while it asks for no more than the queue holds.  The result is the
    bytes delivered and the queue left, or [None] when a call is not
    accepted. *)
Fixpoint queue_run (ops : list io_op) (used : Z) (q : list Z)
    : option (list Z * list Z) :=
  match ops with
  | [] => Some ([], q)
  | IoWrite bs :: ops =>
      if used + Z.of_nat (length bs) <=? NM_CBDATAMAX * NM_CBDATASIZ
      then queue_run ops (used + Z.of_nat (length bs)) (q ++ bs)
      else None
  | IoRead n :: ops =>
      if (0 <=? n) && (n <=? Z.of_nat (length q))
      then '(out, q') ← queue_run ops used (drop (Z.to_nat n) q);
           Some (take (Z.to_nat n) q ++ out, q')
      else None
  | IoDestroy :: ops => queue_run ops 0 []
  end.

(** [n] rounds of [netmap_confbuf_peek] followed by
    [netmap_confbuf_consume], the way a parser walks its input: the
    characters seen, and the stream left. *)
Fixpoint jp_drain (n : nat) (m : kmem) (jp : netmap_jp_stream)
    : result (list Z * kmem * netmap_jp_stream) :=
  match n with
  | O => Ok ([], m, jp)
  | S n =>
      c ← netmap_confbuf_peek m jp;
      '(m, jp) ← netmap_confbuf_consume m jp;
      '(cs, m, jp) ← jp_drain n m jp;
      Ok (c :: cs, m, jp)
  end.

(** Successive calls of [netmap_config_write] on a channel, one for each
    list of bytes, up to the first that does not return 0. *)
Fixpoint config_writes (m : kmem) (c : netmap_config) (ws : list (list Z))
    : result (Z * kmem * netmap_config) :=
  match ws with
  | [] => Ok (0, m, c)
  | w :: ws =>
      '(ret, m, c, _) ← netmap_config_write (S (length w)) m c (uio_write w None);
      if ret =? 0 then config_writes m c ws else Ok (ret, m, c)
  end.

(** * Properties *)

(** [nsplit n]: split a conjunction of [n + 1] parts, and no further. *)
Ltac nsplit n :=
  match n with
  | O => idtac
  | S ?k => split; [| nsplit k]
  end.

(** ** Machine integers *)

Lemma u_int_small (z : Z) : 0 <= z < 4294967296 -> u_int z = z.
Proof. intros H. unfold u_int. apply Z.mod_small. exact H. Qed.

Lemma to_int_small (z : Z) : 0 <= z <= INT_MAX -> to_int z = z.
Proof.
  unfold to_int, INT_MAX. intros H.
  rewrite Z.mod_small by lia. lia.
Qed.

Lemma u_int_range (z : Z) : 0 <= u_int z < 4294967296.
Proof. unfold u_int. apply Z.mod_pos_bound. lia. Qed.

Lemma req_of_resid (n : Z) : 0 < n <= INT_MAX -> u_int (to_int n) = n.
Proof.
  intros H. rewrite to_int_small by lia. apply u_int_small.
  unfold INT_MAX in H. lia.
Qed.

Lemma min_as_if (req s : Z) : (if req <? s then req else s) = Z.min req s.
Proof. destruct (req <? s) eqn:E; [apply Z.ltb_lt in E | apply Z.ltb_ge in E]; lia. Qed.

(** ** Kernel memory *)

Lemma malloc_Some (m : kmem) (s : Z) (nd : addr) (m1 : kmem) :
  malloc m s = (Some nd, m1) ->
  blocks m !! nd = None /\
  blocks m1 = <[nd := mk_data None 0 (junk_bytes m nd s)]> (blocks m) /\
  m_fail m1 = tail (m_fail m).
Proof.
  unfold malloc. intros H.
  assert (Hf : blocks m !! fresh (dom (blocks m)) = None).
  { apply not_elem_of_dom. apply is_fresh. }
  destruct (m_fail m) as [|[] rest]; inversion H; subst; simpl; auto.
Qed.

Lemma malloc_None (m : kmem) (s : Z) (m1 : kmem) :
  malloc m s = (None, m1) ->
  blocks m1 = blocks m /\ exists rest, m_fail m = true :: rest.
Proof.
  unfold malloc. intros H.
  destruct (m_fail m) as [|[] rest]; inversion H; subst; eauto.
Qed.

Lemma deref_Some (m : kmem) (a : addr) (c : nm_confbuf_data) :
  deref m (Some a) = Ok c <-> blocks m !! a = Some c.
Proof.
  unfold deref. destruct (blocks m !! a); split; intros H; congruence.
Qed.

Lemma deref_Ok (m : kmem) (p : option addr) (c : nm_confbuf_data) :
  deref m p = Ok c -> exists a, p = Some a /\ blocks m !! a = Some c.
Proof.
  destruct p as [a|]; [|discriminate].
  intros H. exists a. split; [reflexivity|]. apply deref_Some, H.
Qed.

Lemma set_size_Ok (m : kmem) (a : addr) (v : Z) (c : nm_confbuf_data) :
  blocks m !! a = Some c ->
  set_size m a v = Ok (set_blocks m (<[a := mk_data (d_chain c) v (d_data c)]> (blocks m))).
Proof. intros H. unfold set_size, deref. rewrite H. reflexivity. Qed.

Lemma set_chain_Ok (m : kmem) (a : addr) (p : option addr) (c : nm_confbuf_data) :
  blocks m !! a = Some c ->
  set_chain m a p = Ok (set_blocks m (<[a := mk_data p (d_size c) (d_data c)]> (blocks m))).
Proof. intros H. unfold set_chain, deref. rewrite H. reflexivity. Qed.

Lemma length_junk_bytes (m : kmem) (a : addr) (s : Z) :
  length (junk_bytes m a s) = Z.to_nat s.
Proof. unfold junk_bytes. rewrite length_map, length_seq. reflexivity. Qed.

Lemma size_live (B : gmap positive nm_confbuf_data) (a : addr)
    (c : nm_confbuf_data) :
  B !! a = Some c -> base.size B = S (base.size (delete a B)).
Proof.
  intros Hc. rewrite <- (insert_delete_id B a c Hc) at 1.
  apply map_size_insert_None, lookup_delete_eq.
Qed.

(** Storing [bs] at offset [off] and reading back the first [off + |bs|]
    bytes. *)
Lemma take_spliced (data bs : list Z) (off : nat) :
  (off + length bs <= length data)%nat ->
  take (off + length bs) (take off data ++ bs ++ drop (off + length bs) data)
  = take off data ++ bs.
Proof.
  intros H. rewrite app_assoc.
  rewrite take_app_length'; [reflexivity|].
  rewrite length_app, length_take. lia.
Qed.

Lemma length_spliced (data bs : list Z) (off : nat) :
  (off + length bs <= length data)%nat ->
  length (take off data ++ bs ++ drop (off + length bs) data) = length data.
Proof. intros H. rewrite !length_app, length_take, length_drop. lia. Qed.

(** The transport only touches the storage of one chunk. *)
Lemma store_bytes_inv (m : kmem) (q : addr * Z) (bs : list Z) (m' : kmem) :
  store_bytes m q bs = Ok m' ->
  exists c, blocks m !! q.1 = Some c /\
    0 <= q.2 /\ q.2 + Z.of_nat (length bs) <= Z.of_nat (length (d_data c)) /\
    m' = set_blocks m
           (<[q.1 := mk_data (d_chain c) (d_size c)
                       (take (Z.to_nat q.2) (d_data c) ++ bs ++
                        drop (Z.to_nat q.2 + length bs) (d_data c))]> (blocks m)).
Proof.
  unfold store_bytes, deref. intros H.
  destruct (blocks m !! q.1) as [c|]; cbn in H; [|discriminate H].
  destruct (0 <=? q.2) eqn:E1; cbn in H; [|discriminate H].
  destruct (q.2 + Z.of_nat (length bs) <=? Z.of_nat (length (d_data c))) eqn:E2;
    [|discriminate H].
  injection H as <-. exists c.
  apply Z.leb_le in E1. apply Z.leb_le in E2. auto.
Qed.

Lemma store_bytes_Ok (m : kmem) (a : addr) (off : Z) (bs : list Z)
    (c : nm_confbuf_data) :
  blocks m !! a = Some c -> 0 <= off ->
  off + Z.of_nat (length bs) <= Z.of_nat (length (d_data c)) ->
  store_bytes m (a, off) bs =
    Ok (set_blocks m
          (<[a := mk_data (d_chain c) (d_size c)
                    (take (Z.to_nat off) (d_data c) ++ bs ++
                     drop (Z.to_nat off + length bs) (d_data c))]> (blocks m))).
Proof.
  intros Hc H0 Hlen. unfold store_bytes, deref. cbn [fst snd]. rewrite Hc.
  cbn [mbind result_bind].
  apply Z.leb_le in H0. apply Z.leb_le in Hlen. rewrite H0, Hlen. reflexivity.
Qed.

Lemma load_bytes_Ok (m : kmem) (a : addr) (off n : Z) (c : nm_confbuf_data) :
  blocks m !! a = Some c -> 0 <= off -> 0 <= n ->
  off + n <= Z.of_nat (length (d_data c)) ->
  load_bytes m (a, off) n
  = Ok (take (Z.to_nat n) (drop (Z.to_nat off) (d_data c))).
Proof.
  intros Hc H0 Hn Hfit. unfold load_bytes, deref. cbn [fst snd]. rewrite Hc.
  cbn [mbind result_bind].
  apply Z.leb_le in H0. apply Z.leb_le in Hn. apply Z.leb_le in Hfit.
  rewrite H0, Hn, Hfit. reflexivity.
Qed.

(** ** prepare_write *)

Lemma expand_size_avl (req v : Z) : expand_size req (Some v) = NM_CBDATASIZ.
Proof. unfold expand_size. cbn. rewrite andb_false_r. reflexivity. Qed.

(** What a call of [netmap_confbuf_pre_write] that goes through the
    expansion leaves behind: nothing new when it returns NULL, and else
    one new chunk [nd], linked behind the old tail (whose size is cut to
    the write offset). *)
Lemma pre_write_expand_inv (m : kmem) (cb : netmap_confbuf) (req : Z)
    (avl : option Z) (m' : kmem) (cb' : netmap_confbuf) (p : region)
    (avl' : option Z) :
  (forall d, writep cb = Some d -> is_Some (blocks m !! d)) ->
  pre_write_expand m cb req avl = Ok (m', cb', p, avl') ->
  (p = None /\ cb' = cb /\ blocks m' = blocks m /\ avl' = avl /\
   (NM_CBDATAMAX <= n_data cb \/ exists rest, m_fail m = true :: rest)) \/
  (exists nd, let s := expand_size req avl in
     n_data cb < NM_CBDATAMAX /\
     blocks m !! nd = None /\
     m_fail m' = tail (m_fail m) /\
     p = Some (nd, 0) /\
     avl' = match avl with
            | Some _ => Some (if req <? s then req else s)
            | None => None
            end /\
     cb' = match readp cb with
           | None => mk_cb (Some nd) (Some nd) (next_r cb) (next_w cb)
                           (u_int (n_data cb + 1))
           | Some _ => set_n_data cb (u_int (n_data cb + 1))
           end /\
     match writep cb with
     | None =>
         blocks m' = <[nd := mk_data None s (junk_bytes m nd s)]> (blocks m)
     | Some d =>
         exists c, blocks m !! d = Some c /\
           blocks m' = <[d := mk_data (Some nd) (next_w cb) (d_data c)]>
                         (<[nd := mk_data None s (junk_bytes m nd s)]> (blocks m))
     end).
Proof.
  intros Hlive.
  unfold pre_write_expand. fold (expand_size req avl).
  destruct (NM_CBDATAMAX <=? n_data cb) eqn:Hcap.
  { intros H. inversion H; subst. left. apply Z.leb_le in Hcap. auto 6. }
  apply Z.leb_gt in Hcap.
  destruct (malloc m (expand_size req avl)) as [[nd|] m1] eqn:Hm.
  2:{ intros H. inversion H; subst. left. apply malloc_None in Hm.
      destruct Hm as [Hb Hrest]. auto 6. }
  apply malloc_Some in Hm. destruct Hm as (Hfresh & Hb1 & Hfail).
  erewrite set_size_Ok by (rewrite Hb1; apply lookup_insert_eq).
  cbn [mbind result_bind].
  erewrite set_chain_Ok by (cbn; apply lookup_insert_eq).
  cbn [mbind result_bind d_chain d_size d_data set_blocks blocks].
  rewrite Hb1, !insert_insert_eq.
  destruct (writep cb) as [d|] eqn:Hw.
  - destruct (Hlive d eq_refl) as [c Hc].
    assert (Hne : nd <> d) by congruence.
    erewrite set_size_Ok by (cbn; rewrite lookup_insert_ne by exact Hne; exact Hc).
    cbn [mbind result_bind].
    erewrite set_chain_Ok by (cbn; apply lookup_insert_eq).
    cbn [mbind result_bind d_chain d_size d_data set_blocks blocks].
    rewrite insert_insert_eq.
    intros H. unfold pre_write_out in H. injection H as <- <- <- <-. right.
    exists nd. cbn. repeat split; auto.
    all: try (destruct (readp cb); reflexivity).
    exists c. split; auto.
  - cbn. intros H. unfold pre_write_out in H. injection H as <- <- <- <-. right.
    exists nd. cbn. repeat split; auto.
    all: try (destruct (readp cb); reflexivity).
Qed.

(** With a live tail (or none) the expansion does not fault. *)
Lemma pre_write_expand_total (m : kmem) (cb : netmap_confbuf) (req : Z)
    (avl : option Z) :
  (forall d, writep cb = Some d -> is_Some (blocks m !! d)) ->
  exists r, pre_write_expand m cb req avl = Ok r.
Proof.
  intros Hlive. unfold pre_write_expand. fold (expand_size req avl).
  destruct (NM_CBDATAMAX <=? n_data cb); [eauto|].
  destruct (malloc m (expand_size req avl)) as [[nd|] m1] eqn:Hm; [|eauto].
  apply malloc_Some in Hm. destruct Hm as (Hfresh & Hb1 & _).
  erewrite set_size_Ok by (rewrite Hb1; apply lookup_insert_eq).
  cbn [mbind result_bind].
  erewrite set_chain_Ok by (cbn; apply lookup_insert_eq).
  cbn [mbind result_bind d_chain d_size d_data set_blocks blocks].
  rewrite Hb1, !insert_insert_eq.
  destruct (writep cb) as [d|] eqn:Hw; [|cbn; eauto].
  destruct (Hlive d eq_refl) as [c Hc].
  assert (Hne : nd <> d) by congruence.
  erewrite set_size_Ok
    by (cbn; rewrite lookup_insert_ne by exact Hne; exact Hc).
  cbn [mbind result_bind].
  erewrite set_chain_Ok by (cbn; apply lookup_insert_eq).
  cbn. eauto.
Qed.

(** The two ways through [netmap_confbuf_pre_write]: the free suffix of
    the tail, or the expansion. *)
Lemma pre_write_inv (m : kmem) (cb : netmap_confbuf) (req : Z)
    (avl : option Z) (m' : kmem) (cb' : netmap_confbuf) (p : region)
    (avl' : option Z) :
  netmap_confbuf_pre_write m cb req avl = Ok (m', cb', p, avl') ->
  (exists d c, let s := u_int (d_size c - next_w cb) in
     writep cb = Some d /\ blocks m !! d = Some c /\
     0 < s /\ (req <= s \/ is_Some avl) /\
     m' = m /\ cb' = cb /\ p = Some (d, next_w cb) /\
     avl' = match avl with
            | Some _ => Some (if req <? s then req else s)
            | None => None
            end) \/
  ((forall d, writep cb = Some d ->
      exists c, blocks m !! d = Some c /\
        (u_int (d_size c - next_w cb) <= 0 \/
         (u_int (d_size c - next_w cb) < req /\ avl = None))) /\
   pre_write_expand m cb req avl = Ok (m', cb', p, avl')).
Proof.
  unfold netmap_confbuf_pre_write.
  destruct (writep cb) as [d|] eqn:Hw.
  2:{ intros H. right. split; [intros d Hd; discriminate | exact H]. }
  unfold deref. destruct (blocks m !! d) as [c|] eqn:Hc; [|discriminate].
  cbn [mbind result_bind].
  destruct (0 <? u_int (d_size c - next_w cb)) eqn:Hs; cbn [andb].
  - apply Z.ltb_lt in Hs.
    destruct (req <=? u_int (d_size c - next_w cb)) eqn:Hr; cbn [orb].
    + apply Z.leb_le in Hr. intros H. unfold pre_write_out in H.
      injection H as <- <- <- <-. left. exists d, c. cbn.
      repeat split; auto.
    + apply Z.leb_gt in Hr.
      destruct avl as [v|]; cbn.
      * intros H. unfold pre_write_out in H.
        injection H as <- <- <- <-. left. exists d, c. cbn.
        repeat split; eauto.
      * intros H. right. split; [|exact H].
        intros d' Hd'. injection Hd' as <-. exists c. split; auto.
  - apply Z.ltb_ge in Hs. intros H. right. split; [|exact H].
    intros d' Hd'. injection Hd' as <-. exists c. split; auto.
Qed.

(** The free suffix of the tail: [netmap_confbuf_pre_write] with
    [avl_size] set returns it, clamped to the request. *)
Lemma pre_write_tail (m : kmem) (cb : netmap_confbuf) (req : Z) (d : addr)
    (c : nm_confbuf_data) :
  writep cb = Some d -> blocks m !! d = Some c ->
  0 <= next_w cb < d_size c -> d_size c < 4294967296 ->
  netmap_confbuf_pre_write m cb req (Some req)
  = Ok (m, cb, Some (d, next_w cb), Some (Z.min req (d_size c - next_w cb))).
Proof.
  intros Hw Hc Hnw Hsz. unfold netmap_confbuf_pre_write. rewrite Hw.
  unfold deref. rewrite Hc. cbn [mbind result_bind].
  rewrite u_int_small by lia.
  assert (E : (0 <? d_size c - next_w cb) = true) by (apply Z.ltb_lt; lia).
  rewrite E. cbn [andb]. rewrite orb_true_r. unfold pre_write_out.
  rewrite min_as_if. reflexivity.
Qed.

(** With a full tail, or none, [netmap_confbuf_pre_write] goes through the
    expansion. *)
Lemma pre_write_full (m : kmem) (cb : netmap_confbuf) (req : Z)
    (avl : option Z) :
  match writep cb with
  | Some d => exists c, blocks m !! d = Some c /\ next_w cb = d_size c
  | None => True
  end ->
  netmap_confbuf_pre_write m cb req avl = pre_write_expand m cb req avl.
Proof.
  unfold netmap_confbuf_pre_write. destruct (writep cb) as [d|]; [|reflexivity].
  intros (c & Hc & Hfull). unfold deref. rewrite Hc. cbn [mbind result_bind].
  rewrite Hfull, Z.sub_diag. reflexivity.
Qed.

(** At the cap [netmap_confbuf_pre_write] allocates nothing: it changes
    neither the memory nor the buffer, and returns either NULL or the free
    suffix of the tail that is already there. *)
Lemma pre_write_at_cap (m : kmem) (cb : netmap_confbuf) (req : Z)
    (avl : option Z) (m' : kmem) (cb' : netmap_confbuf) (p : region)
    (avl' : option Z) :
  NM_CBDATAMAX <= n_data cb ->
  netmap_confbuf_pre_write m cb req avl = Ok (m', cb', p, avl') ->
  m' = m /\ cb' = cb /\
  (p = None \/
   exists d c, writep cb = Some d /\ blocks m !! d = Some c /\
               0 < u_int (d_size c - next_w cb) /\ p = Some (d, next_w cb)).
Proof.
  intros Hcap H. apply pre_write_inv in H.
  destruct H as [(d & c & Hw & Hc & Hs & _ & -> & -> & -> & _) | [_ Hex]].
  - split; [reflexivity|]. split; [reflexivity|]. right. exists d, c. auto.
  - unfold pre_write_expand in Hex. apply Z.leb_le in Hcap. rewrite Hcap in Hex.
    injection Hex as <- <- <- _. auto.
Qed.

Lemma region_len_le_req (m : kmem) (cb : netmap_confbuf) (req : Z)
    (avl : option Z) (m' : kmem) (cb' : netmap_confbuf) (q : addr * Z)
    (avl' : option Z) :
  netmap_confbuf_pre_write m cb req avl = Ok (m', cb', Some q, avl') ->
  region_len req avl' <= req /\ (is_Some avl <-> is_Some avl').
Proof.
  intros H. apply pre_write_inv in H.
  destruct H as [(d & c & _ & _ & _ & _ & _ & _ & _ & ->) | [Hun Hex]].
  - destruct avl as [v|]; cbn.
    + split; [|split; eauto].
      destruct (req <? u_int (d_size c - next_w cb)) eqn:E; [lia|].
      apply Z.ltb_ge in E. exact E.
    + split; [lia|]. split; intros [? ?]; discriminate.
  - apply pre_write_expand_inv in Hex.
    2:{ intros d Hd. destruct (Hun d Hd) as (c & Hc & _). eauto. }
    destruct Hex as [(Hp & _) | (nd & _ & _ & _ & _ & -> & _)]; [discriminate Hp|].
    destruct avl as [v|]; cbn.
    + split; [|split; eauto].
      destruct (req <? expand_size req (Some v)) eqn:E; [lia|].
      apply Z.ltb_ge in E. exact E.
    + split; [lia|]. split; intros [? ?]; discriminate.
Qed.

Example pre_write_first :
  netmap_confbuf_pre_write mem0 cb_zero 1024 (Some 1024)
  = Ok (m_first, cb_first, Some (1%positive, 0), Some 1024).
Proof. vm_compute. reflexivity. Qed.

(** ** commit_write *)

Lemma post_write_eq (m : kmem) (cb : netmap_confbuf) (size : Z) (c : nm_confbuf_data) :
  deref m (writep cb) = Ok c ->
  netmap_confbuf_post_write m cb size =
    Ok (if next_w cb =? d_size c
        then mk_cb (readp cb) (d_chain c) (next_r cb) (u_int (0 + size)) (n_data cb)
        else mk_cb (readp cb) (writep cb) (next_r cb) (u_int (next_w cb + size)) (n_data cb)).
Proof.
  intros Hd. unfold netmap_confbuf_post_write. rewrite Hd. simpl.
  destruct (next_w cb =? d_size c); reflexivity.
Qed.

(** C2 (amended).  After a matching [netmap_confbuf_pre_write], the commit
    first tests whether the tail was already exhausted on entry
    ([next_w == writep->size], with [next_w] not yet advanced) and rolls to
    the successor with offset 0 if so; only then does it add [size].  The
    write cursor therefore ends [size] bytes past the start of the region
    that was handed out, in the chunk of that region: a tail that this very
    call fills to the brim is not rolled by it. *)
Theorem post_write_rolls_then_advances (m : kmem) (cb : netmap_confbuf)
    (req : Z) (avl : option Z) (m' : kmem) (cb' : netmap_confbuf)
    (a : addr) (off : Z) (avl' : option Z) (size : Z) :
  wf_write m cb ->
  netmap_confbuf_pre_write m cb req avl = Ok (m', cb', Some (a, off), avl') ->
  0 <= size <= default req avl' ->
  req < 4294967296 ->
  exists c cb'',
    deref m' (writep cb') = Ok c /\
    netmap_confbuf_post_write m' cb' size = Ok cb'' /\
    cb'' = (if next_w cb' =? d_size c
            then mk_cb (readp cb') (d_chain c) (next_r cb')
                       (u_int (0 + size)) (n_data cb')
            else mk_cb (readp cb') (writep cb') (next_r cb')
                       (u_int (next_w cb' + size)) (n_data cb')) /\
    writep cb'' = Some a /\ next_w cb'' = off + size.
Proof.
  intros Hwf Hpre Hsize Hreq.
  apply pre_write_inv in Hpre.
  destruct Hpre as [(d & c & Hw & Hc & Hs & Hor & -> & -> & Hp & Havl) | [Hun Hex]].
  - (* the free suffix of the tail *)
    injection Hp as Ha Hoff. subst a off.
    unfold wf_write in Hwf. rewrite Hw in Hwf.
    destruct Hwf as (c0 & Hc0 & Hnw & Hsz & _).
    rewrite Hc in Hc0. injection Hc0 as Hcc. subst c0.
    rewrite u_int_small in Hs, Hor, Havl by lia.
    assert (HL : default req avl' <= d_size c - next_w cb).
    { subst avl'. destruct avl as [v|]; cbn.
      - destruct (req <? (d_size c - next_w cb)) eqn:E;
          [apply Z.ltb_lt in E|]; lia.
      - destruct Hor as [?|[? ?]]; [lia | discriminate]. }
    assert (Hd : deref m (writep cb) = Ok c).
    { rewrite Hw. apply deref_Some, Hc. }
    exists c, (mk_cb (readp cb) (writep cb) (next_r cb)
                     (u_int (next_w cb + size)) (n_data cb)).
    rewrite (post_write_eq _ _ _ _ Hd).
    assert (Hne : (next_w cb =? d_size c) = false) by (apply Z.eqb_neq; lia).
    rewrite Hne. cbn. repeat split; auto.
    apply u_int_small. lia.
  - (* a new chunk *)
    apply pre_write_expand_inv in Hex.
    2:{ intros d Hd. destruct (Hun d Hd) as (c & Hc & _). eauto. }
    destruct Hex as [(Hp & _) | (nd & Hcap & Hfresh & _ & Hp & Havl & Hcb & Hb)];
      [discriminate|].
    injection Hp as Ha Hoff. subst a off.
    assert (HL : default req avl' <= req).
    { subst avl'. destruct avl as [v|]; cbn; [|lia].
      destruct (req <? expand_size req (Some v)) eqn:E; [lia|].
      apply Z.ltb_ge in E. lia. }
    unfold wf_write in Hwf.
    destruct (writep cb) as [d|] eqn:Hw.
    + destruct Hwf as (c0 & Hc0 & Hnw & Hsz & Hrd).
      destruct Hb as (c & Hc & Hb). rewrite Hc in Hc0. injection Hc0 as Hcc. subst c0.
      destruct (readp cb) as [r|] eqn:Hr; [|congruence].
      subst cb'.
      assert (Hd : deref m' (Some d) = Ok (mk_data (Some nd) (next_w cb) (d_data c))).
      { apply deref_Some. rewrite Hb. apply lookup_insert_eq. }
      exists (mk_data (Some nd) (next_w cb) (d_data c)),
             (mk_cb (Some r) (Some nd) (next_r cb) (u_int (0 + size))
                    (u_int (n_data cb + 1))).
      unfold netmap_confbuf_post_write. cbn [writep set_n_data].
      rewrite Hw, Hd. cbn. rewrite Z.eqb_refl.
      unfold set_next_w, set_writep, set_n_data. cbn. rewrite Hr.
      repeat split; auto. apply u_int_small. lia.
    + destruct Hwf as [Hr Hnw]. rewrite Hr in Hcb. subst cb'.
      assert (Hd : deref m' (Some nd) =
                   Ok (mk_data None (expand_size req avl)
                               (junk_bytes m nd (expand_size req avl)))).
      { apply deref_Some. rewrite Hb. apply lookup_insert_eq. }
      assert (Hne : (0 =? expand_size req avl) = false).
      { apply Z.eqb_neq. unfold expand_size, NM_CBDATASIZ.
        destruct (1024 <? req) eqn:E; cbn; [apply Z.ltb_lt in E|];
          destruct (bool_decide (avl = None)); lia. }
      exists (mk_data None (expand_size req avl)
                      (junk_bytes m nd (expand_size req avl))),
             (mk_cb (Some nd) (Some nd) (next_r cb) (u_int (0 + size))
                    (u_int (n_data cb + 1))).
      unfold netmap_confbuf_post_write. cbn [writep].
      rewrite Hd. cbn. rewrite Hnw, Hne.
      unfold set_next_w, set_writep, set_n_data. cbn. rewrite ?Hnw.
      repeat split; auto. apply u_int_small. lia.
Qed.

(** C2 as stated fails: the commit that fills the first chunk exactly
    leaves the cursor on that chunk at offset 1024, where advancing before
    the test would have rolled it to the successor with offset 0. *)
Lemma post_write_not_advance_first :
  netmap_confbuf_pre_write mem0 cb_zero 1024 (Some 1024)
    = Ok (m_first, cb_first, Some (1%positive, 0), Some 1024) /\
  netmap_confbuf_post_write m_first cb_first 1024
    = Ok (mk_cb (Some 1%positive) (Some 1%positive) 0 1024 1) /\
  post_write_advance_first m_first cb_first 1024
    = Ok (mk_cb (Some 1%positive) None 0 0 1) /\
  netmap_confbuf_post_write m_first cb_first 1024
    <> post_write_advance_first m_first cb_first 1024.
Proof.
  split; [vm_compute; reflexivity|].
  split; [vm_compute; reflexivity|].
  split; [vm_compute; reflexivity|].
  vm_compute. discriminate.
Qed.

Lemma post_write_rolls_then_advances_witness :
  exists c cb'',
    deref m_first (writep cb_first) = Ok c /\
    netmap_confbuf_post_write m_first cb_first 1024 = Ok cb'' /\
    cb'' = (if next_w cb_first =? d_size c
            then mk_cb (readp cb_first) (d_chain c) (next_r cb_first)
                       (u_int (0 + 1024)) (n_data cb_first)
            else mk_cb (readp cb_first) (writep cb_first) (next_r cb_first)
                       (u_int (next_w cb_first + 1024)) (n_data cb_first)) /\
    writep cb'' = Some 1%positive /\ next_w cb'' = 0 + 1024.
Proof.
  apply (post_write_rolls_then_advances mem0 cb_zero 1024 (Some 1024)
           m_first cb_first 1%positive 0 (Some 1024) 1024).
  - split; reflexivity.
  - vm_compute. reflexivity.
  - cbn. lia.
  - lia.
Defined.

(** ** prepare_read and commit_read *)

(** Whether the walk ends on NULL does not depend on the size asked for. *)
Lemma pre_read_loop_null (fuel : nat) (m : kmem) (d : option addr) (n sz z : Z) :
  pre_read_loop fuel m d n sz = Ok (None, z) ->
  forall sz', pre_read_loop fuel m d n sz' = Ok (None, 0).
Proof.
  revert d n. induction fuel as [|fuel IH]; intros d n H sz'; [discriminate|].
  cbn [pre_read_loop] in *. destruct d as [a|]; [|reflexivity].
  unfold deref in *.
  destruct (blocks m !! a) as [c|]; cbn [mbind result_bind] in *;
    [|discriminate H].
  destruct (n <? d_size c); [discriminate H|].
  eapply IH, H.
Qed.

Lemma pre_read_loop_here (fuel : nat) (m : kmem) (a : addr) (n sz : Z)
    (c : nm_confbuf_data) :
  blocks m !! a = Some c -> n < d_size c ->
  pre_read_loop (S fuel) m (Some a) n sz
  = Ok (Some (a, n), Z.min sz (u_int (d_size c - n))).
Proof.
  intros Hc Hn. cbn [pre_read_loop]. unfold deref. rewrite Hc.
  cbn [mbind result_bind]. apply Z.ltb_lt in Hn. rewrite Hn.
  rewrite min_as_if. reflexivity.
Qed.

Lemma pre_read_loop_skip (fuel : nat) (m : kmem) (a : addr) (n sz : Z)
    (c : nm_confbuf_data) :
  blocks m !! a = Some c -> d_size c <= n ->
  pre_read_loop (S fuel) m (Some a) n sz
  = pre_read_loop fuel m (d_chain c) 0 sz.
Proof.
  intros Hc Hn. cbn [pre_read_loop]. unfold deref. rewrite Hc.
  cbn [mbind result_bind]. apply Z.ltb_ge in Hn. rewrite Hn. reflexivity.
Qed.

Lemma pre_read_zero (m : kmem) (sz : Z) :
  netmap_confbuf_pre_read m cb_zero sz = Ok (None, 0).
Proof. reflexivity. Qed.

Lemma post_read_eq (m : kmem) (cb : netmap_confbuf) (size : Z) (a : addr)
    (c : nm_confbuf_data) :
  readp cb = Some a -> blocks m !! a = Some c ->
  netmap_confbuf_post_read m cb size
  = Ok (if next_r cb =? d_size c
        then (free m a,
              mk_cb (d_chain c) (writep cb) (u_int (0 + size)) (next_w cb)
                    (u_int (n_data cb - 1)))
        else (m, mk_cb (readp cb) (writep cb) (u_int (next_r cb + size))
                       (next_w cb) (n_data cb))).
Proof.
  intros Hr Hc. unfold netmap_confbuf_post_read. rewrite Hr.
  unfold deref. rewrite Hc. cbn [mbind result_bind].
  destruct (next_r cb =? d_size c); unfold set_next_r; cbn; rewrite ?Hr;
    reflexivity.
Qed.

(** C3 (amended).  [netmap_confbuf_post_read] tests [next_r] against the
    head's size before it advances: a call that finds the head already
    drained frees it, moves [readp] to the successor, restarts the offset
    and decrements [n_data] (strictly, for a count in range), and then
    adds [size]; a call that does not find it drained frees nothing and
    leaves [n_data] alone, even when its own advance brings the offset to
    the head's size. *)
Theorem post_read_frees_then_advances (m : kmem) (cb : netmap_confbuf)
    (size : Z) (a : addr) (c : nm_confbuf_data) :
  readp cb = Some a ->
  blocks m !! a = Some c ->
  exists m' cb',
    netmap_confbuf_post_read m cb size = Ok (m', cb') /\
    (next_r cb = d_size c ->
       blocks m' = delete a (blocks m) /\ readp cb' = d_chain c /\
       next_r cb' = u_int (0 + size) /\ n_data cb' = u_int (n_data cb - 1) /\
       (0 < n_data cb < 4294967296 -> n_data cb' < n_data cb)) /\
    (next_r cb <> d_size c ->
       m' = m /\ readp cb' = readp cb /\ n_data cb' = n_data cb /\
       next_r cb' = u_int (next_r cb + size)).
Proof.
  intros Hr Hc. unfold netmap_confbuf_post_read.
  rewrite Hr. unfold deref. rewrite Hc. cbn [mbind result_bind].
  destruct (next_r cb =? d_size c) eqn:E.
  - apply Z.eqb_eq in E. do 2 eexists. split; [reflexivity|].
    split; [|intros Hne; contradiction].
    intros _. cbn. repeat split; auto.
    intros Hn. rewrite u_int_small by lia. lia.
  - apply Z.eqb_neq in E. do 2 eexists. split; [reflexivity|].
    split; [intros He; contradiction|].
    intros _. cbn. rewrite Hr. repeat split; auto.
Qed.

(** C3 as stated fails: the commit that drains the only chunk (its offset
    reaches the chunk's size, 1024) frees nothing and leaves [n_data] at 1,
    where advancing before the test would have freed the chunk and brought
    the count to 0. *)
Lemma post_read_not_advance_first :
  netmap_confbuf_pre_read m_full cb_full 1024 = Ok (Some (1%positive, 0), 1024) /\
  netmap_confbuf_post_read m_full cb_full 1024
    = Ok (m_full, mk_cb (Some 1%positive) (Some 1%positive) 1024 1024 1) /\
  post_read_advance_first m_full cb_full 1024
    = Ok (free m_full 1%positive, mk_cb None (Some 1%positive) 0 1024 0) /\
  netmap_confbuf_post_read m_full cb_full 1024
    <> post_read_advance_first m_full cb_full 1024.
Proof.
  split; [vm_compute; reflexivity|].
  split; [vm_compute; reflexivity|].
  split; [vm_compute; reflexivity|].
  vm_compute. intros H. discriminate H.
Qed.

Lemma post_read_frees_then_advances_witness :
  exists m' cb',
    netmap_confbuf_post_read m_full cb_full 1024 = Ok (m', cb') /\
    (next_r cb_full = d_size (mk_data None 1024 (repeat 65 1024)) ->
       blocks m' = delete 1%positive (blocks m_full) /\
       readp cb' = d_chain (mk_data None 1024 (repeat 65 1024)) /\
       next_r cb' = u_int (0 + 1024) /\ n_data cb' = u_int (n_data cb_full - 1) /\
       (0 < n_data cb_full < 4294967296 -> n_data cb' < n_data cb_full)) /\
    (next_r cb_full <> d_size (mk_data None 1024 (repeat 65 1024)) ->
       m' = m_full /\ readp cb' = readp cb_full /\ n_data cb' = n_data cb_full /\
       next_r cb' = u_int (next_r cb_full + 1024)).
Proof.
  apply (post_read_frees_then_advances m_full cb_full 1024 1%positive
           (mk_data None 1024 (repeat 65 1024))).
  - vm_compute. reflexivity.
  - vm_compute. reflexivity.
Defined.

(** ** The transport and one turn of the write loop *)

Lemma uiomove_inv (m : kmem) (q : addr * Z) (n : Z) (u : uio) (ret : Z)
    (m' : kmem) (u' : uio) :
  uiomove m q n u = Ok (ret, m', u') ->
  m' = m \/
  exists c x, blocks m !! q.1 = Some c /\ length x = length (d_data c) /\
    m' = set_blocks m (<[q.1 := mk_data (d_chain c) (d_size c) x]> (blocks m)).
Proof.
  unfold uiomove. intros H.
  destruct (Z.min n (uio_resid u) <=? 0); [injection H as _ <- _; left; reflexivity|].
  destruct (match uio_fault u with
            | Some f => if f <? Z.min n (uio_resid u)
                        then (Z.max f 0, EFAULT, Some 0)
                        else (Z.min n (uio_resid u), 0, Some (f - Z.min n (uio_resid u)))
            | None => (Z.min n (uio_resid u), 0, None)
            end) as [[k err] flt].
  destruct (uio_dir u).
  - destruct (load_bytes m q k); cbn in H; try discriminate H.
    injection H as _ <- _. left. reflexivity.
  - destruct (store_bytes m q (take (Z.to_nat k) (uio_user u))) as [m1| |] eqn:Hs;
      cbn in H; try discriminate H.
    injection H as _ <- _. right.
    apply store_bytes_inv in Hs. destruct Hs as (c & Hc & H0 & Hlen & ->).
    exists c. eexists. split; [exact Hc|]. split; [|reflexivity].
    rewrite !length_app, length_take, length_drop. lia.
Qed.

(** A transport that does not fault moves what it is asked to. *)
Lemma uiomove_write_Ok (m : kmem) (q : addr * Z) (n : Z) (bs : list Z)
    (m' : kmem) :
  0 < n <= Z.of_nat (length bs) ->
  store_bytes m q (take (Z.to_nat n) bs) = Ok m' ->
  uiomove m q n (uio_write bs None)
    = Ok (0, m', uio_write (drop (Z.to_nat n) bs) None).
Proof.
  intros Hn Hs. unfold uiomove, uio_write. cbn [uio_resid uio_fault uio_dir uio_user].
  rewrite Z.min_l by lia.
  assert (E : (n <=? 0) = false) by (apply Z.leb_gt; lia).
  rewrite E, Hs. cbn [mbind result_bind].
  rewrite length_drop. do 4 f_equal. lia.
Qed.

Lemma uiomove_read_Ok (m : kmem) (p : addr * Z) (n resid : Z) (got bs : list Z) :
  0 < n <= resid ->
  load_bytes m p n = Ok bs ->
  uiomove m p n (mk_uio UIO_READ resid got None)
  = Ok (0, m, mk_uio UIO_READ (resid - n) (got ++ bs) None).
Proof.
  intros Hn Hl. unfold uiomove. cbn [uio_resid uio_fault uio_dir uio_user].
  rewrite Z.min_l by lia.
  assert (E : (n <=? 0) = false) by (apply Z.leb_gt; lia).
  rewrite E, Hl. reflexivity.
Qed.

(** One turn of the loop of [netmap_config_write] that gets a region of
    [k] bytes at [(a, off)], fills it and commits it. *)
Lemma write_turn (m : kmem) (i : netmap_confbuf) (bs : list Z) (m1 : kmem)
    (i1 : netmap_confbuf) (a : addr) (off k : Z) (c : nm_confbuf_data)
    (i2 : netmap_confbuf) :
  0 < Z.of_nat (length bs) <= INT_MAX ->
  netmap_confbuf_pre_write m i (Z.of_nat (length bs)) (Some (Z.of_nat (length bs)))
    = Ok (m1, i1, Some (a, off), Some k) ->
  0 < k <= Z.of_nat (length bs) ->
  blocks m1 !! a = Some c -> 0 <= off ->
  off + k <= Z.of_nat (length (d_data c)) ->
  netmap_confbuf_post_write
    (set_blocks m1
       (<[a := mk_data (d_chain c) (d_size c)
                 (take (Z.to_nat off) (d_data c) ++ take (Z.to_nat k) bs ++
                  drop (Z.to_nat off + length (take (Z.to_nat k) bs)) (d_data c))]>
          (blocks m1)))
    i1 k = Ok i2 ->
  forall fuel,
    write_loop (S fuel) m i (uio_write bs None)
    = write_loop fuel
        (set_blocks m1
           (<[a := mk_data (d_chain c) (d_size c)
                     (take (Z.to_nat off) (d_data c) ++ take (Z.to_nat k) bs ++
                      drop (Z.to_nat off + length (take (Z.to_nat k) bs)) (d_data c))]>
              (blocks m1)))
        i2 (uio_write (drop (Z.to_nat k) bs) None).
Proof.
  intros Hlen Hpre Hk Hc Hoff Hfit Hpw fuel.
  assert (Hlt : length (take (Z.to_nat k) bs) = Z.to_nat k).
  { rewrite length_take. lia. }
  cbn [write_loop].
  assert (Hpos : (0 <? uio_resid (uio_write bs None)) = true).
  { apply Z.ltb_lt. cbn. lia. }
  rewrite Hpos. cbn [uio_resid uio_write].
  rewrite req_of_resid by lia. rewrite Hpre.
  cbn [mbind result_bind default]. unfold id.
  rewrite to_int_small by lia.
  erewrite uiomove_write_Ok; [|lia|].
  2:{ apply store_bytes_Ok; [exact Hc | exact Hoff |]. rewrite Hlt. lia. }
  cbn [mbind result_bind negb Z.eqb].
  rewrite u_int_small by (unfold INT_MAX in *; lia).
  rewrite Hpw. reflexivity.
Qed.

(** The turn in which [netmap_confbuf_pre_write] returns NULL. *)
Lemma write_turn_null (m : kmem) (i : netmap_confbuf) (bs : list Z) (m1 : kmem)
    (i1 : netmap_confbuf) (avl' : option Z) :
  0 < Z.of_nat (length bs) <= INT_MAX ->
  netmap_confbuf_pre_write m i (Z.of_nat (length bs)) (Some (Z.of_nat (length bs)))
    = Ok (m1, i1, None, avl') ->
  forall fuel,
    write_loop (S fuel) m i (uio_write bs None)
    = Ok (ENOMEM, m1, i1, uio_write bs None).
Proof.
  intros Hlen Hpre fuel. cbn [write_loop].
  assert (Hpos : (0 <? uio_resid (uio_write bs None)) = true).
  { apply Z.ltb_lt. cbn. lia. }
  rewrite Hpos. cbn [uio_resid uio_write].
  rewrite req_of_resid by lia. rewrite Hpre. reflexivity.
Qed.

(** ** The entry point [netmap_config_read] on an empty output *)

(** C7.  When the output buffer has nothing to read ([netmap_confbuf_pre_read]
    returns NULL, a zero-length region), [netmap_config_read] returns 0 and
    leaves the channel, the memory and the request as they were. *)
Theorem read_empty_output_returns_0 (fuel : nat) (m : kmem)
    (c : netmap_config) (u : uio) (sz z : Z) :
  netmap_confbuf_pre_read m (buf1 c) sz = Ok (None, z) ->
  netmap_config_read (S fuel) m c u = Ok (0, m, c, u).
Proof.
  intros H. unfold netmap_config_read, netmap_config_parse.
  cbn [read_loop]. destruct c as [i o]. cbn [buf0 buf1] in *.
  destruct (0 <? uio_resid u); [|reflexivity].
  unfold netmap_confbuf_pre_read in *.
  rewrite (pre_read_loop_null _ _ _ _ _ _ H). reflexivity.
Qed.

Lemma read_empty_output_returns_0_witness :
  netmap_config_read 1 mem0 config0 (uio_read 10 None)
  = Ok (0, mem0, config0, uio_read 10 None).
Proof.
  apply (read_empty_output_returns_0 0 mem0 config0 (uio_read 10 None) 10 0).
  vm_compute. reflexivity.
Defined.

(** ** The stream adapter *)

(** C10.  [netmap_confbuf_peek] returns 0 when the stream has nothing to
    read and also when the byte under the read cursor is NUL: the value
    alone does not tell the two apart. *)
Theorem peek_zero_is_ambiguous (m : kmem) (jp : netmap_jp_stream)
    (r : region) (s : Z) :
  netmap_confbuf_pre_read m (jp_cb jp) 1 = Ok (r, s) ->
  r = None \/ (exists q, r = Some q /\ load_bytes m q 1 = Ok [0]) ->
  netmap_confbuf_peek m jp = Ok 0.
Proof.
  intros Hpre Hr. unfold netmap_confbuf_peek. rewrite Hpre.
  cbn [mbind result_bind].
  destruct Hr as [-> | (q & -> & Hq)]; [reflexivity|].
  rewrite Hq. reflexivity.
Qed.

Lemma peek_zero_is_ambiguous_witness :
  (netmap_confbuf_pre_read mem0 (jp_cb jp_empty) 1 = Ok (None, 0) /\
   netmap_confbuf_peek mem0 jp_empty = Ok 0) /\
  (netmap_confbuf_pre_read m_nul (jp_cb jp_nul) 1 = Ok (Some (1%positive, 0), 1) /\
   netmap_confbuf_peek m_nul jp_nul = Ok 0).
Proof.
  split; split.
  - vm_compute. reflexivity.
  - apply (peek_zero_is_ambiguous mem0 jp_empty None 0).
    + vm_compute. reflexivity.
    + left. reflexivity.
  - vm_compute. reflexivity.
  - apply (peek_zero_is_ambiguous m_nul jp_nul (Some (1%positive, 0)) 1).
    + vm_compute. reflexivity.
    + right. exists (1%positive, 0). split; [reflexivity|].
      vm_compute. reflexivity.
Defined.

(** ** Chains *)

Lemma is_chain_None (B : gmap positive nm_confbuf_data) (l : list addr) :
  is_chain B None l -> l = [].
Proof. destruct l as [|a l]; [reflexivity|]. intros [H _]. discriminate H. Qed.

Lemma is_chain_live (B : gmap positive nm_confbuf_data) (p : option addr)
    (l : list addr) (a : addr) :
  is_chain B p l -> a ∈ l -> is_Some (B !! a).
Proof.
  revert p. induction l as [|b l IH]; intros p H Ha.
  - inversion Ha.
  - destruct H as (_ & c & Hc & Hl).
    apply elem_of_cons in Ha. destruct Ha as [-> | Ha]; eauto.
Qed.

(** A chain only depends on the links of its own chunks. *)
Lemma is_chain_same_links (B B' : gmap positive nm_confbuf_data)
    (p : option addr) (l : list addr) :
  (forall a, a ∈ l -> d_chain <$> (B' !! a) = d_chain <$> (B !! a)) ->
  is_chain B p l -> is_chain B' p l.
Proof.
  revert p. induction l as [|b l IH]; intros p Hsame H; [exact H|].
  destruct H as (Hp & c & Hc & Hl). split; [exact Hp|].
  assert (Hb : d_chain <$> (B' !! b) = d_chain <$> (B !! b)).
  { apply Hsame. left. }
  rewrite Hc in Hb. destruct (B' !! b) as [c'|] eqn:Hc'; [|discriminate Hb].
  cbn in Hb. injection Hb as Hb. exists c'. split; [reflexivity|].
  rewrite Hb. apply IH; [|exact Hl].
  intros a Ha. apply Hsame. right. exact Ha.
Qed.

Lemma is_chain_insert_fresh (B : gmap positive nm_confbuf_data)
    (p : option addr) (l : list addr) (nd : addr) (x : nm_confbuf_data) :
  B !! nd = None -> is_chain B p l -> is_chain (<[nd := x]> B) p l.
Proof.
  intros Hf H. eapply is_chain_same_links; [|exact H].
  intros a Ha. destruct (is_chain_live _ _ _ _ H Ha) as [c Hc].
  rewrite lookup_insert_ne by congruence. reflexivity.
Qed.

Lemma is_chain_delete (B : gmap positive nm_confbuf_data)
    (p : option addr) (l : list addr) (a : addr) :
  a ∉ l -> is_chain B p l -> is_chain (delete a B) p l.
Proof.
  intros Hn H. eapply is_chain_same_links; [|exact H].
  intros b Hb. rewrite lookup_delete_ne; [reflexivity|].
  intros ->. contradiction.
Qed.

Lemma is_chain_undelete (B : gmap positive nm_confbuf_data)
    (p : option addr) (l : list addr) (a : addr) :
  is_chain (delete a B) p l -> is_chain B p l /\ a ∉ l.
Proof.
  intros H.
  assert (Hn : a ∉ l).
  { intros Ha. destruct (is_chain_live _ _ _ _ H Ha) as [c Hc].
    rewrite lookup_delete_eq in Hc. discriminate Hc. }
  split; [|exact Hn].
  eapply is_chain_same_links; [|exact H].
  intros b Hb. rewrite lookup_delete_ne; [reflexivity|].
  intros ->. contradiction.
Qed.

(** Linking a new chunk [nd] behind a live chunk [d]: the chain behind
    [p] is cut after [d] (if it goes through [d]) and continued by [nd]. *)
Lemma is_chain_relink (B : gmap positive nm_confbuf_data) (p : option addr)
    (l : list addr) (d nd : addr) (x y : nm_confbuf_data) :
  B !! nd = None -> is_Some (B !! d) ->
  d_chain x = Some nd -> d_chain y = None ->
  is_chain B p l -> NoDup l ->
  exists l', is_chain (<[d := x]> (<[nd := y]> B)) p l' /\ NoDup l' /\
             (length l' <= S (length l))%nat /\
             (forall a, a ∈ l' -> a ∈ l \/ a = nd).
Proof.
  intros Hf [cd Hd] Hx Hy. assert (Hne : d <> nd) by congruence.
  revert p. induction l as [|b l IH]; intros p H Hnd.
  - exists []. cbn in *. split; [exact H|]. split; [constructor|].
    split; [lia|]. intros a Ha. inversion Ha.
  - destruct H as (Hp & c & Hc & Hl).
    apply NoDup_cons in Hnd. destruct Hnd as [Hbl Hnd].
    destruct (decide (b = d)) as [->|Hbd].
    + exists [d; nd]. nsplit 3%nat.
      * cbn. split; [exact Hp|]. exists x. rewrite lookup_insert_eq.
        split; [reflexivity|]. rewrite Hx. split; [reflexivity|].
        exists y. rewrite lookup_insert_ne by exact Hne.
        rewrite lookup_insert_eq. split; [reflexivity|]. exact Hy.
      * apply NoDup_cons. split; [|apply NoDup_singleton].
        intros Hin. apply list_elem_of_singleton in Hin. contradiction.
      * cbn. lia.
      * intros a Ha. apply elem_of_cons in Ha. destruct Ha as [-> | Ha].
        -- left. left.
        -- apply list_elem_of_singleton in Ha. right. exact Ha.
    + destruct (IH _ Hl Hnd) as (l' & Hl' & Hnd' & Hlen & Hsub).
      assert (Hbn : b <> nd) by congruence.
      exists (b :: l'). nsplit 3%nat.
      * cbn. split; [exact Hp|]. exists c.
        rewrite lookup_insert_ne by congruence.
        rewrite lookup_insert_ne by congruence. split; [exact Hc|exact Hl'].
      * apply NoDup_cons. split; [|exact Hnd'].
        intros Hin. destruct (Hsub _ Hin) as [?|?]; contradiction.
      * cbn. lia.
      * intros a Ha. apply elem_of_cons in Ha. destruct Ha as [-> | Ha].
        -- left. left.
        -- destruct (Hsub _ Ha) as [?|?]; [left; right; assumption | right; assumption].
Qed.

Lemma is_chain_functional (B : gmap positive nm_confbuf_data)
    (p : option addr) (l l' : list addr) :
  is_chain B p l -> is_chain B p l' -> l = l'.
Proof.
  revert p l'. induction l as [|a l IH]; intros p l' H H'.
  - cbn in H. subst p. symmetry. eapply is_chain_None, H'.
  - destruct H as (Hp & c & Hc & Hl). subst p.
    destruct l' as [|a' l']; [discriminate H'|].
    destruct H' as (Hp' & c' & Hc' & Hl'). injection Hp' as <-.
    rewrite Hc in Hc'. injection Hc' as <-.
    f_equal. eapply IH; eassumption.
Qed.

(** ** The segment cap is an invariant *)

Lemma cb_inv_blocks (m m' : kmem) (cb : netmap_confbuf) :
  blocks m' = blocks m -> cb_inv m cb -> cb_inv m' cb.
Proof. unfold cb_inv. intros ->. auto. Qed.

Lemma cb_inv_zero (m : kmem) : cb_inv m cb_zero.
Proof.
  split; [cbn; unfold NM_CBDATAMAX; lia|].
  exists []. cbn. split; [reflexivity|]. split; [constructor|lia].
Qed.

Lemma cb_inv_pre_write (m : kmem) (cb : netmap_confbuf) (req : Z)
    (avl : option Z) (m' : kmem) (cb' : netmap_confbuf) (p : region)
    (avl' : option Z) :
  cb_inv m cb ->
  netmap_confbuf_pre_write m cb req avl = Ok (m', cb', p, avl') ->
  cb_inv m' cb'.
Proof.
  intros Hinv Hpre. apply pre_write_inv in Hpre.
  destruct Hpre as [(d & c & _ & _ & _ & _ & -> & -> & _) | [Hun Hex]];
    [exact Hinv|].
  apply pre_write_expand_inv in Hex.
  2:{ intros d Hd. destruct (Hun d Hd) as (c & Hc & _). eauto. }
  destruct Hex as [(_ & -> & Hb & _) | (nd & Hcap & Hfresh & _ & _ & _ & Hcb & Hb)].
  { eapply cb_inv_blocks; eauto. }
  destruct Hinv as (Hn & l & Hl & Hnd & Hlen).
  cbn zeta in Hb.
  assert (Hn' : u_int (n_data cb + 1) = n_data cb + 1).
  { apply u_int_small. unfold NM_CBDATAMAX in *. lia. }
  destruct (readp cb) as [r|] eqn:Hr.
  - (* the chain behind the read pointer grows by at most one chunk *)
    subst cb'. unfold cb_inv, set_n_data. cbn. rewrite Hr, Hn'.
    split; [lia|].
    destruct (writep cb) as [d|].
    + destruct Hb as (c & Hc & ->).
      destruct (is_chain_relink (blocks m) (Some r) l d nd
                  (mk_data (Some nd) (next_w cb) (d_data c))
                  (mk_data None (expand_size req avl)
                           (junk_bytes m nd (expand_size req avl))))
        as (l' & Hl' & Hnd' & Hlen' & _); eauto.
      exists l'. split; [exact Hl'|]. split; [exact Hnd'|]. lia.
    + rewrite Hb. exists l. split; [|split; [exact Hnd|lia]].
      apply is_chain_insert_fresh; assumption.
  - (* the first chunk *)
    subst cb'. unfold cb_inv. cbn. rewrite Hn'. split; [lia|].
    exists [nd]. split; [|split; [apply NoDup_singleton|cbn; lia]].
    cbn. split; [reflexivity|].
    destruct (writep cb) as [d|].
    + destruct Hb as (c & Hc & ->).
      assert (d <> nd) by congruence.
      eexists. rewrite lookup_insert_ne by assumption.
      rewrite lookup_insert_eq. split; reflexivity.
    + rewrite Hb. eexists. rewrite lookup_insert_eq. split; reflexivity.
Qed.

Lemma cb_inv_post_write (m : kmem) (cb : netmap_confbuf) (size : Z)
    (cb' : netmap_confbuf) :
  cb_inv m cb -> netmap_confbuf_post_write m cb size = Ok cb' -> cb_inv m cb'.
Proof.
  intros Hinv H. unfold netmap_confbuf_post_write in H.
  destruct (deref m (writep cb)) as [c| |]; cbn in H; try discriminate H.
  injection H as <-. unfold cb_inv in *.
  destruct (next_w cb =? d_size c); exact Hinv.
Qed.

Lemma cb_inv_post_read (m : kmem) (cb : netmap_confbuf) (size : Z)
    (m' : kmem) (cb' : netmap_confbuf) :
  cb_inv m cb -> netmap_confbuf_post_read m cb size = Ok (m', cb') ->
  cb_inv m' cb'.
Proof.
  intros Hinv H. unfold netmap_confbuf_post_read in H.
  destruct (deref m (readp cb)) as [c| |] eqn:Hd; cbn in H; try discriminate H.
  apply deref_Ok in Hd. destruct Hd as (a & Hr & Hc). rewrite Hr in H.
  destruct (next_r cb =? d_size c).
  - injection H as <- <-.
    destruct Hinv as (Hn & l & Hl & Hnd & Hlen).
    rewrite Hr in Hl. destruct l as [|b l]; [discriminate Hl|].
    destruct Hl as (Hb & c' & Hc' & Hl). injection Hb as <-.
    rewrite Hc in Hc'. injection Hc' as <-.
    apply NoDup_cons in Hnd. destruct Hnd as [Hal Hnd].
    cbn [length] in Hlen.
    assert (Hn' : u_int (n_data cb - 1) = n_data cb - 1).
    { apply u_int_small. unfold NM_CBDATAMAX in *. lia. }
    unfold cb_inv. cbn. rewrite Hn'. split; [lia|].
    exists l. split; [|split; [exact Hnd|lia]].
    apply is_chain_delete; assumption.
  - injection H as <- <-. exact Hinv.
Qed.

Lemma destroy_cb_zero (m : kmem) (cb : netmap_confbuf) (m' : kmem)
    (cb' : netmap_confbuf) :
  netmap_confbuf_destroy m cb = Ok (m', cb') -> cb' = cb_zero.
Proof.
  unfold netmap_confbuf_destroy. intros H.
  destruct (destroy_loop _ m (readp cb)); cbn in H; try discriminate H.
  injection H as _ <-. reflexivity.
Qed.

Lemma cb_inv_uiomove (m : kmem) (cb : netmap_confbuf) (q : addr * Z) (n : Z)
    (u : uio) (ret : Z) (m' : kmem) (u' : uio) :
  cb_inv m cb -> uiomove m q n u = Ok (ret, m', u') -> cb_inv m' cb.
Proof.
  intros Hinv H. apply uiomove_inv in H.
  destruct H as [-> | (c & x & Hc & _ & ->)]; [exact Hinv|].
  destruct Hinv as (Hn & l & Hl & Hnd & Hlen).
  split; [exact Hn|]. exists l. split; [|split; assumption].
  eapply is_chain_same_links; [|exact Hl].
  intros a _. cbn. destruct (decide (q.1 = a)) as [<-|Hne].
  - rewrite lookup_insert_eq, Hc. reflexivity.
  - rewrite lookup_insert_ne by exact Hne. reflexivity.
Qed.

Lemma cb_inv_write_loop (fuel : nat) (m : kmem) (i : netmap_confbuf) (u : uio)
    (ret : Z) (m' : kmem) (i' : netmap_confbuf) (u' : uio) :
  cb_inv m i -> write_loop fuel m i u = Ok (ret, m', i', u') -> cb_inv m' i'.
Proof.
  revert m i u. induction fuel as [|fuel IH]; intros m i u Hinv H;
    [discriminate H|].
  cbn [write_loop] in H.
  destruct (0 <? uio_resid u); [|injection H as _ <- <- _; exact Hinv].
  destruct (netmap_confbuf_pre_write m i (u_int (to_int (uio_resid u)))
              (Some (u_int (to_int (uio_resid u)))))
    as [[[[m1 i1] p] avl]| |] eqn:Hpre; cbn in H; try discriminate H.
  apply (cb_inv_pre_write _ _ _ _ _ _ _ _ Hinv) in Hpre.
  destruct p as [q|]; [|injection H as _ <- <- _; exact Hpre].
  destruct (uiomove m1 q (to_int (default 0 avl)) u) as [[[r m2] u2]| |] eqn:Hu;
    cbn in H; try discriminate H.
  apply (cb_inv_uiomove _ _ _ _ _ _ _ _ Hpre) in Hu.
  destruct (negb (r =? 0)); [injection H as _ <- <- _; exact Hu|].
  destruct (netmap_confbuf_post_write m2 i1 (u_int (to_int (default 0 avl))))
    as [i2| |] eqn:Hpost; cbn in H; try discriminate H.
  apply (cb_inv_post_write _ _ _ _ Hu) in Hpost.
  eapply IH; eassumption.
Qed.

Lemma cb_inv_read_loop (fuel : nat) (m : kmem) (o : netmap_confbuf) (u : uio)
    (ret : Z) (m' : kmem) (o' : netmap_confbuf) (u' : uio) :
  cb_inv m o -> read_loop fuel m o u = Ok (ret, m', o', u') -> cb_inv m' o'.
Proof.
  revert m o u. induction fuel as [|fuel IH]; intros m o u Hinv H;
    [discriminate H|].
  cbn [read_loop] in H.
  destruct (0 <? uio_resid u); [|injection H as _ <- <- _; exact Hinv].
  destruct (netmap_confbuf_pre_read m o (u_int (to_int (uio_resid u))))
    as [[p sz]| |]; cbn in H; try discriminate H.
  destruct p as [q|]; [|injection H as _ <- <- _; exact Hinv].
  destruct (uiomove m q (to_int sz) u) as [[[r m2] u2]| |] eqn:Hu;
    cbn in H; try discriminate H.
  apply (cb_inv_uiomove _ _ _ _ _ _ _ _ Hinv) in Hu.
  destruct (negb (r =? 0)); [injection H as _ <- <- _; exact Hu|].
  destruct (netmap_confbuf_post_read m2 o (u_int (to_int sz)))
    as [[m3 o3]| |] eqn:Hpost; cbn in H; try discriminate H.
  apply (cb_inv_post_read _ _ _ _ _ Hu) in Hpost.
  eapply IH; eassumption.
Qed.

Lemma cb_inv_step (op : cb_op) (st st' : kmem * netmap_confbuf) :
  cb_inv st.1 st.2 -> step op st = Ok st' -> cb_inv st'.1 st'.2.
Proof.
  destruct st as [m cb], st' as [m' cb']. cbn [fst snd]. intros Hinv H.
  destruct op; cbn [step] in H.
  - destruct (netmap_confbuf_pre_write m cb req_size avl_size)
      as [[[[m1 cb1] p] a]| |] eqn:E; cbn in H; try discriminate H.
    injection H as <- <-. eapply cb_inv_pre_write; eassumption.
  - destruct (netmap_confbuf_post_write m cb size) as [cb1| |] eqn:E;
      cbn in H; try discriminate H.
    injection H as <- <-. eapply cb_inv_post_write; eassumption.
  - destruct (netmap_confbuf_pre_read m cb size); cbn in H; try discriminate H.
    injection H as <- <-. exact Hinv.
  - eapply cb_inv_post_read; eassumption.
  - destruct (netmap_confbuf_peek m (mk_jp cb)); cbn in H; try discriminate H.
    injection H as <- <-. exact Hinv.
  - unfold netmap_confbuf_consume in H. cbn [jp_cb] in H.
    destruct (netmap_confbuf_post_read m cb 1) as [[m1 cb1]| |] eqn:E;
      cbn in H; try discriminate H.
    injection H as <- <-. eapply cb_inv_post_read; eassumption.
  - apply destroy_cb_zero in H. subst cb'. apply cb_inv_zero.
  - destruct (write_loop fuel m cb u) as [[[[r m1] cb1] u1]| |] eqn:E;
      cbn in H; try discriminate H.
    injection H as <- <-. eapply cb_inv_write_loop; eassumption.
  - destruct (read_loop fuel m cb u) as [[[[r m1] cb1] u1]| |] eqn:E;
      cbn in H; try discriminate H.
    injection H as <- <-. eapply cb_inv_read_loop; eassumption.
Qed.

Lemma cb_inv_run (ops : list cb_op) (st st' : kmem * netmap_confbuf) :
  cb_inv st.1 st.2 -> run ops st = Ok st' -> cb_inv st'.1 st'.2.
Proof.
  revert st. induction ops as [|op ops IH]; intros st Hinv H.
  - injection H as <-. exact Hinv.
  - cbn [run] in H. destruct (step op st) as [st1| |] eqn:E;
      cbn in H; try discriminate H.
    eapply IH; [|exact H]. eapply cb_inv_step; eassumption.
Qed.

(** ** Running out of room *)

Lemma tail_free_range (m : kmem) (i : netmap_confbuf) :
  wf_tail m i -> 0 <= tail_free m i <= NM_CBDATASIZ /\ 0 <= room m i.
Proof.
  intros [Hn Hw]. unfold room, tail_free.
  destruct (writep i) as [d|].
  - destruct Hw as (c & Hc & ? & ? & ?). rewrite Hc.
    unfold NM_CBDATAMAX, NM_CBDATASIZ in *. lia.
  - unfold NM_CBDATAMAX, NM_CBDATASIZ in *. lia.
Qed.

Lemma room_bound (m : kmem) (i : netmap_confbuf) :
  wf_tail m i -> room m i <= NM_CBDATAMAX * NM_CBDATASIZ.
Proof.
  intros [Hn Hw]. unfold room, tail_free.
  destruct (writep i) as [d|].
  - destruct Hw as (c & Hc & ? & ? & ? & ? & ?). rewrite Hc.
    unfold NM_CBDATAMAX, NM_CBDATASIZ in *. lia.
  - unfold NM_CBDATAMAX, NM_CBDATASIZ in *. lia.
Qed.

Lemma write_steps_bound (m : kmem) (i : netmap_confbuf) :
  0 <= n_data i -> (write_steps m i <= 5)%nat.
Proof.
  intros H. unfold write_steps, NM_CBDATAMAX.
  destruct (0 <? tail_free m i); lia.
Qed.

(** One turn of the write loop when the request exceeds the room left:
    either the loop ends with [ENOMEM], or it stores a positive number of
    bytes and goes on with less room. *)
Lemma write_loop_step (m : kmem) (i : netmap_confbuf) (bs : list Z) :
  wf_tail m i ->
  room m i < Z.of_nat (length bs) <= INT_MAX ->
  (exists m', blocks m' = blocks m /\
     forall fuel, write_loop (S fuel) m i (uio_write bs None)
                  = Ok (ENOMEM, m', i, uio_write bs None)) \/
  (exists m2 i2 k,
     0 < k <= Z.of_nat (length bs) /\
     (forall fuel, write_loop (S fuel) m i (uio_write bs None)
                   = write_loop fuel m2 i2 (uio_write (drop (Z.to_nat k) bs) None)) /\
     wf_tail m2 i2 /\ room m2 i2 = room m i - k /\
     (write_steps m2 i2 < write_steps m i)%nat).
Proof.
  intros Hwf Hroom.
  destruct (tail_free_range _ _ Hwf) as [Htfr Hroom0].
  destruct Hwf as [Hn Hw].
  set (req := Z.of_nat (length bs)) in *.
  assert (Hlen : 0 < req <= INT_MAX) by lia.
  destruct (decide (0 < tail_free m i)) as [Hfree | Hfull].
  - (* the free suffix of the tail, all of it *)
    right. unfold tail_free in Hfree, Htfr. unfold room, tail_free in Hroom.
    destruct (writep i) as [d|] eqn:Hwp; [|lia].
    destruct Hw as (c & Hc & Hnw & Hsz & Hdata & Hrd & Hn1).
    rewrite Hc in Hfree, Htfr, Hroom.
    set (s := d_size c - next_w i) in *.
    assert (Hmin : Z.min req s = s) by (unfold NM_CBDATAMAX, NM_CBDATASIZ in *; lia).
    pose (c2 := mk_data (d_chain c) (d_size c)
                  (take (Z.to_nat (next_w i)) (d_data c) ++ take (Z.to_nat s) bs ++
                   drop (Z.to_nat (next_w i) + length (take (Z.to_nat s) bs))
                        (d_data c))).
    pose (m2 := set_blocks m (<[d := c2]> (blocks m))).
    pose (i2 := mk_cb (readp i) (writep i) (next_r i) (d_size c) (n_data i)).
    assert (Htf2 : tail_free m2 i2 = 0).
    { unfold tail_free, i2. cbn [writep next_w]. rewrite Hwp. cbn.
      rewrite lookup_insert_eq. cbn. lia. }
    exists m2, i2, s. split; [unfold NM_CBDATAMAX, NM_CBDATASIZ in *; lia|].
    nsplit 3%nat.
    + apply (write_turn m i bs m i d (next_w i) s c i2);
        try (subst req s; unfold NM_CBDATAMAX, NM_CBDATASIZ in *; lia).
      * assert (Hp := pre_write_tail m i req d c Hwp Hc).
        fold s in Hp. rewrite Hmin in Hp.
        apply Hp; subst s; unfold NM_CBDATASIZ in *; lia.
      * exact Hc.
      * assert (Hd : deref (set_blocks m (<[d := c2]> (blocks m))) (writep i) = Ok c2).
        { rewrite Hwp. apply deref_Some. cbn. apply lookup_insert_eq. }
        rewrite (post_write_eq _ _ _ _ Hd). cbn [d_size c2].
        assert (E : (next_w i =? d_size c) = false) by (apply Z.eqb_neq; unfold s in *; lia).
        rewrite E. unfold i2. do 2 f_equal.
        rewrite u_int_small by (unfold s, NM_CBDATASIZ in *; lia). unfold s. lia.
    + split; [exact Hn|]. unfold i2. cbn [writep]. rewrite Hwp.
      exists c2. cbn. rewrite lookup_insert_eq.
      split; [reflexivity|]. split; [lia|]. split; [exact Hsz|].
      split; [|split; assumption]. rewrite length_spliced; [exact Hdata|].
      rewrite length_take. unfold s in *. lia.
    + unfold room. rewrite Htf2. unfold tail_free. rewrite Hwp, Hc.
      unfold i2. cbn [n_data]. fold s. lia.
    + unfold write_steps. rewrite Htf2. unfold tail_free. rewrite Hwp, Hc. fold s.
      assert (E : (0 <? s) = true) by (apply Z.ltb_lt; lia).
      rewrite E. cbn [n_data i2]. cbn. lia.
  - (* no free byte in the tail, or no tail: expand *)
    assert (Htf : tail_free m i = 0) by lia.
    assert (Hfull' : match writep i with
                     | Some d => exists c, blocks m !! d = Some c /\ next_w i = d_size c
                     | None => True
                     end).
    { unfold tail_free in Htf. destruct (writep i) as [d|]; [|exact I].
      destruct Hw as (c & Hc & ? & ?). rewrite Hc in Htf. exists c. split; [exact Hc|lia]. }
    assert (Hlive : forall d0, writep i = Some d0 -> is_Some (blocks m !! d0)).
    { intros d0 Hd0. rewrite Hd0 in Hfull'. destruct Hfull' as (c & Hc & _). eauto. }
    pose proof (pre_write_full m i req (Some req) Hfull') as Hpre_eq.
    destruct (pre_write_expand_total m i req (Some req) Hlive)
      as ([[[m1 i1] p] avl'] & Hex).
    destruct (pre_write_expand_inv _ _ _ _ _ _ _ _ Hlive Hex)
      as [(-> & -> & Hb & -> & _) | (nd & Hcap & Hfresh & _ & -> & -> & Hcb & Hb)].
    { left. exists m1. split; [exact Hb|].
      apply (write_turn_null m i bs m1 i (Some req)); [exact Hlen|].
      exact (eq_trans Hpre_eq Hex). }
    right. cbn zeta in Hb. rewrite expand_size_avl, min_as_if in *.
    assert (Hmin : Z.min req NM_CBDATASIZ = NM_CBDATASIZ).
    { unfold room in Hroom. unfold NM_CBDATAMAX, NM_CBDATASIZ in *. lia. }
    rewrite Hmin in Hex.
    set (s := NM_CBDATASIZ) in *.
    assert (Hs : s = 1024) by reflexivity.
    pose (cn := mk_data None s (junk_bytes m nd s)).
    assert (Hjl : length (junk_bytes m nd s) = Z.to_nat s) by apply length_junk_bytes.
    assert (Hnd1 : blocks m1 !! nd = Some cn).
    { destruct (writep i) as [d|].
      - destruct Hb as (c & Hc & ->).
        rewrite lookup_insert_ne by congruence. apply lookup_insert_eq.
      - rewrite Hb. apply lookup_insert_eq. }
    pose (c2 := mk_data (d_chain cn) (d_size cn)
                  (take (Z.to_nat 0) (d_data cn) ++ take (Z.to_nat s) bs ++
                   drop (Z.to_nat 0 + length (take (Z.to_nat s) bs)) (d_data cn))).
    pose (m2 := set_blocks m1 (<[nd := c2]> (blocks m1))).
    assert (Hn' : u_int (n_data i + 1) = n_data i + 1).
    { apply u_int_small. unfold NM_CBDATAMAX in *. lia. }
    pose (i2 := mk_cb (match readp i with Some r => Some r | None => Some nd end)
                      (Some nd) (next_r i) s (n_data i + 1)).
    assert (Hpw : netmap_confbuf_post_write m2 i1 s = Ok i2).
    { destruct (writep i) as [d|] eqn:Hwp.
      - destruct Hw as (c & Hc & Hnw & Hsz & Hdata & Hrd & Hn1).
        destruct Hb as (c0 & Hc0 & Hb).
        destruct (readp i) as [r|] eqn:Hr; [|congruence].
        assert (Hd : deref m2 (writep i1)
                     = Ok (mk_data (Some nd) (next_w i) (d_data c0))).
        { subst i1. cbn [writep set_n_data]. rewrite Hwp. apply deref_Some.
          cbn. rewrite lookup_insert_ne by congruence.
          rewrite Hb. apply lookup_insert_eq. }
        rewrite (post_write_eq _ _ _ _ Hd). subst i1. unfold i2. cbn.
        rewrite Z.eqb_refl, Hr, Hn'. reflexivity.
      - destruct Hw as [Hr Hnw]. rewrite Hr in Hcb.
        assert (Hd : deref m2 (writep i1) = Ok c2).
        { subst i1. cbn [writep]. apply deref_Some. cbn. apply lookup_insert_eq. }
        rewrite (post_write_eq _ _ _ _ Hd). subst i1. unfold i2. cbn.
        rewrite Hnw, Hr, Hn'. reflexivity. }
    assert (Htf2 : tail_free m2 i2 = 0).
    { unfold tail_free, i2. cbn. rewrite lookup_insert_eq. cbn. lia. }
    exists m2, i2, s. split; [lia|]. nsplit 3%nat.
    + apply (write_turn m i bs m1 i1 nd 0 s cn i2); try (subst req; lia).
      * exact (eq_trans Hpre_eq Hex).
      * exact Hnd1.
      * cbn [d_data cn]. rewrite Hjl. lia.
      * exact Hpw.
    + split; [unfold i2; cbn; unfold NM_CBDATAMAX in *; lia|].
      unfold i2. cbn [writep readp next_w n_data]. exists c2.
      cbn. rewrite lookup_insert_eq. split; [reflexivity|].
      split; [lia|]. split; [lia|]. split; [|split; [|lia]].
      * rewrite length_spliced; [rewrite Hjl; lia|].
        rewrite length_take, Hjl. lia.
      * destruct (readp i); discriminate.
    + unfold room. rewrite Htf, Htf2. unfold i2. cbn [n_data]. lia.
    + unfold write_steps. rewrite Htf, Htf2. unfold i2. cbn [n_data].
      cbn. unfold NM_CBDATAMAX in *. lia.
Qed.

(** A write call that supplies more bytes than the room left ends with
    [ENOMEM], provided the transport does not fail. *)
Lemma write_loop_enomem (fuel : nat) (m : kmem) (i : netmap_confbuf)
    (bs : list Z) :
  wf_tail m i ->
  room m i < Z.of_nat (length bs) <= INT_MAX ->
  (write_steps m i < fuel)%nat ->
  exists m' i' u',
    write_loop fuel m i (uio_write bs None) = Ok (ENOMEM, m', i', u').
Proof.
  revert m i bs. induction fuel as [|fuel IH]; intros m i bs Hwf Hroom Hfuel;
    [lia|].
  destruct (write_loop_step m i bs Hwf Hroom)
    as [(m' & _ & H) | (m2 & i2 & k & Hk & H & Hwf2 & Hroom2 & Hsteps)].
  - rewrite H. eauto.
  - rewrite H. apply IH; [exact Hwf2 | | lia].
    rewrite length_drop. unfold INT_MAX in *. lia.
Qed.

(** X15.  (1) Along every run of operations on a buffer that starts empty,
    [n_data] stays within [NM_CBDATAMAX].  (2) At the cap
    [netmap_confbuf_pre_write] allocates nothing: memory and buffer are
    unchanged and the result is NULL, unless the tail that is already
    there still has free bytes to offer.  (3) A call of
    [netmap_config_write] that supplies more than
    [NM_CBDATAMAX * NM_CBDATASIZ] and at most [INT_MAX] bytes, on an input
    buffer as the entry points leave it and with a transport that does
    not fail, returns [ENOMEM]. *)
Theorem segment_cap_holds :
  (forall (ops : list cb_op) (m0 m : kmem) (cb : netmap_confbuf),
     run ops (m0, cb_zero) = Ok (m, cb) ->
     0 <= n_data cb <= NM_CBDATAMAX) /\
  (forall (m : kmem) (cb : netmap_confbuf) (req : Z) (avl : option Z)
          (m' : kmem) (cb' : netmap_confbuf) (p : region) (avl' : option Z),
     NM_CBDATAMAX <= n_data cb ->
     netmap_confbuf_pre_write m cb req avl = Ok (m', cb', p, avl') ->
     m' = m /\ cb' = cb /\
     (p = None \/
      exists d c, writep cb = Some d /\ blocks m !! d = Some c /\
                  0 < u_int (d_size c - next_w cb) /\ p = Some (d, next_w cb))) /\
  (forall (fuel : nat) (m m1 : kmem) (c : netmap_config) (o1 : netmap_confbuf)
          (bs : list Z),
     netmap_confbuf_destroy m (buf1 c) = Ok (m1, o1) ->
     wf_tail m1 (buf0 c) ->
     NM_CBDATAMAX * NM_CBDATASIZ < Z.of_nat (length bs) <= INT_MAX ->
     (5 < fuel)%nat ->
     exists m' c' u',
       netmap_config_write fuel m c (uio_write bs None) = Ok (ENOMEM, m', c', u')).
Proof.
  split; [|split].
  - intros ops m0 m cb H.
    apply (cb_inv_run ops (m0, cb_zero) (m, cb) (cb_inv_zero m0)) in H.
    destruct H as [H _]. exact H.
  - intros m cb req avl m' cb' p avl'. apply pre_write_at_cap.
  - intros fuel m m1 c o1 bs Hd Hwf Hlen Hfuel.
    unfold netmap_config_write. rewrite Hd. cbn [mbind result_bind].
    pose proof (room_bound _ _ Hwf) as Hroom.
    pose proof (write_steps_bound m1 (buf0 c) (proj1 (proj1 Hwf))) as Hsteps.
    destruct (write_loop_enomem fuel m1 (buf0 c) bs Hwf) as (m' & i' & u' & H);
      [lia | lia |].
    rewrite H. cbn. eauto.
Qed.

Lemma segment_cap_holds_witness :
  (0 <= n_data (written mem0 cb_zero (repeat 65 4096)).2 <= NM_CBDATAMAX) /\
  (exists m' c' u',
     netmap_config_write 6 mem0 config0 (uio_write (repeat 65 4097) None)
     = Ok (ENOMEM, m', c', u')).
Proof.
  split.
  - apply (proj1 segment_cap_holds
             [OpWrite 4097 (uio_write (repeat 65 4096) None)] mem0
             (written mem0 cb_zero (repeat 65 4096)).1).
    vm_compute. reflexivity.
  - apply (proj2 (proj2 segment_cap_holds) 6%nat mem0 mem0 config0 cb_zero
             (repeat 65 4097)).
    + vm_compute. reflexivity.
    + split; [vm_compute; split; discriminate|]. cbn. split; reflexivity.
    + rewrite repeat_length. unfold NM_CBDATAMAX, NM_CBDATASIZ, INT_MAX. lia.
    + lia.
Defined.

(** ** What prepare_write hands out *)

Lemma sum_Z_bound (l : list Z) (M : Z) :
  (forall z, z ∈ l -> z <= M) -> sum_Z l <= Z.of_nat (length l) * M.
Proof.
  induction l as [|z l IH]; intros H; [cbn; lia|].
  cbn [sum_Z foldr length]. fold (sum_Z l).
  assert (Hz : z <= M) by (apply H; left).
  assert (Hl : sum_Z l <= Z.of_nat (length l) * M).
  { apply IH. intros y Hy. apply H. right. exact Hy. }
  lia.
Qed.

(** C6 (amended).  A successful [netmap_confbuf_pre_write] returns a region
    whose length is at most the request.  And at any point of a run that
    starts from an empty buffer, the chain behind the read pointer has at
    most [NM_CBDATAMAX] chunks, so that their sizes add up to at most
    [NM_CBDATAMAX] times any bound [M] on the size of a chunk. *)
Theorem pre_write_region_bounded :
  (forall (m : kmem) (cb : netmap_confbuf) (req : Z) (avl : option Z)
          (m' : kmem) (cb' : netmap_confbuf) (q : addr * Z) (avl' : option Z),
     netmap_confbuf_pre_write m cb req avl = Ok (m', cb', Some q, avl') ->
     region_len req avl' <= req) /\
  (forall (ops : list cb_op) (m0 m : kmem) (cb : netmap_confbuf),
     run ops (m0, cb_zero) = Ok (m, cb) ->
     exists l, is_chain (blocks m) (readp cb) l /\
       Z.of_nat (length l) <= NM_CBDATAMAX /\
       forall M, 0 <= M -> (forall z, z ∈ chain_sizes m l -> z <= M) ->
                 sum_Z (chain_sizes m l) <= NM_CBDATAMAX * M).
Proof.
  split.
  - intros m cb req avl m' cb' q avl' H.
    apply region_len_le_req in H. apply H.
  - intros ops m0 m cb H.
    apply (cb_inv_run ops (m0, cb_zero) (m, cb) (cb_inv_zero m0)) in H.
    destruct H as (Hn & l & Hl & _ & Hlen). cbn [fst snd] in *.
    exists l. split; [exact Hl|]. split; [lia|].
    intros M HM Hall. pose proof (sum_Z_bound _ _ Hall) as Hs.
    unfold chain_sizes in Hs. rewrite length_map in Hs.
    unfold chain_sizes. nia.
Qed.

(** C6 as stated fails.  Along [ops_five_chunks] every chunk has the
    default size, and the regions handed out add up to 4097 bytes, more
    than [NM_CBDATAMAX * NM_CBDATASIZ]: the chunk freed by the reads makes
    room for a fifth one. *)
Lemma handed_out_exceeds_cap :
  handed_out ops_five_chunks (mem0, cb_zero) = 4097 /\
  NM_CBDATAMAX * NM_CBDATASIZ < handed_out ops_five_chunks (mem0, cb_zero) /\
  exists m cb,
    run ops_five_chunks (mem0, cb_zero) = Ok (m, cb) /\
    n_data cb = 4 /\
    (forall a c, blocks m !! a = Some c -> d_size c = NM_CBDATASIZ).
Proof.
  split; [vm_compute; reflexivity|].
  split; [vm_compute; reflexivity|].
  do 2 eexists. split; [vm_compute; reflexivity|].
  split; [reflexivity|].
  intros a c Ha.
  destruct a as [[[|a|]|[a|a|]|]|[[a|a|]|[a|a|]|]|]; cbn in Ha;
    try discriminate Ha; injection Ha as <-; reflexivity.
Qed.

Lemma pre_write_region_bounded_witness :
  region_len 1024 (Some 1024) <= 1024 /\
  exists l, is_chain (blocks m_full) (readp cb_full) l /\
    Z.of_nat (length l) <= NM_CBDATAMAX /\
    forall M, 0 <= M -> (forall z, z ∈ chain_sizes m_full l -> z <= M) ->
              sum_Z (chain_sizes m_full l) <= NM_CBDATAMAX * M.
Proof.
  split.
  - apply (proj1 pre_write_region_bounded mem0 cb_zero 1024 (Some 1024)
             m_first cb_first (1%positive, 0) (Some 1024)).
    vm_compute. reflexivity.
  - apply (proj2 pre_write_region_bounded
             [OpWrite 1025 (uio_write (repeat 65 1024) None)] mem0 m_full cb_full).
    vm_compute. reflexivity.
Defined.

(** ** Discarding a buffer *)

(** A successful [netmap_confbuf_destroy] loop walked a chain that ends,
    freed exactly its chunks and touched nothing else. *)
Lemma destroy_loop_inv (fuel : nat) (m : kmem) (d : option addr) (m' : kmem) :
  destroy_loop fuel m d = Ok m' ->
  exists l, is_chain (blocks m) d l /\ NoDup l /\
    (forall a, a ∈ l -> blocks m' !! a = None) /\
    (forall a, a ∉ l -> blocks m' !! a = blocks m !! a).
Proof.
  revert m d. induction fuel as [|fuel IH]; intros m d H; [discriminate H|].
  cbn [destroy_loop] in H. destruct d as [a|].
  2:{ injection H as <-. exists []. cbn. split; [reflexivity|].
      split; [constructor|]. split; [|reflexivity].
      intros a Ha. inversion Ha. }
  unfold deref in H. destruct (blocks m !! a) as [c|] eqn:Hc;
    cbn [mbind result_bind] in H; [|discriminate H].
  apply IH in H. destruct H as (l & Hl & Hnd & Hin & Hout).
  cbn [free set_blocks blocks] in Hl, Hout.
  apply is_chain_undelete in Hl. destruct Hl as [Hl Hal].
  exists (a :: l). nsplit 3%nat.
  - cbn. split; [reflexivity|]. exists c. split; assumption.
  - apply NoDup_cons. split; assumption.
  - intros b Hb. apply elem_of_cons in Hb. destruct Hb as [-> | Hb].
    + rewrite (Hout a Hal). apply lookup_delete_eq.
    + apply Hin, Hb.
  - intros b Hb. apply not_elem_of_cons in Hb. destruct Hb as [Hba Hbl].
    rewrite (Hout b Hbl). apply lookup_delete_ne. congruence.
Qed.

(** Each turn of the loop frees a live chunk: it cannot outlast them. *)
Lemma destroy_loop_ends (fuel : nat) (m : kmem) (d : option addr) :
  (base.size (blocks m) < fuel)%nat -> destroy_loop fuel m d <> Diverge.
Proof.
  revert m d. induction fuel as [|fuel IH]; intros m d Hf; [lia|].
  cbn [destroy_loop]. destruct d as [a|]; [|discriminate].
  unfold deref. destruct (blocks m !! a) as [c|] eqn:Hc;
    cbn [mbind result_bind]; [|discriminate].
  apply IH. cbn [free set_blocks blocks].
  assert (Hs : base.size (blocks m) = S (base.size (delete a (blocks m)))).
  { rewrite <- (insert_delete_id (blocks m) a c Hc) at 1.
    apply map_size_insert_None, lookup_delete_eq. }
  lia.
Qed.

(** C9.  A call of [netmap_config_write] that returns has first destroyed
    the output buffer: the chunks behind its read pointer are freed, every
    other chunk (those of the input buffer among them) is as before, and
    only then does the loop take the caller's bytes into the unchanged
    input buffer.  On return the output buffer is empty. *)
Theorem write_discards_output (fuel : nat) (m : kmem) (c : netmap_config)
    (u : uio) (ret : Z) (m' : kmem) (c' : netmap_config) (u' : uio) :
  netmap_config_write fuel m c u = Ok (ret, m', c', u') ->
  exists m1 lo,
    is_chain (blocks m) (readp (buf1 c)) lo /\
    netmap_confbuf_destroy m (buf1 c) = Ok (m1, cb_zero) /\
    (forall a, a ∈ lo -> blocks m1 !! a = None) /\
    (forall a, a ∉ lo -> blocks m1 !! a = blocks m !! a) /\
    (forall li, is_chain (blocks m) (readp (buf0 c)) li ->
                (forall a, a ∈ li -> a ∉ lo) ->
                is_chain (blocks m1) (readp (buf0 c)) li) /\
    write_loop fuel m1 (buf0 c) u = Ok (ret, m', buf0 c', u') /\
    buf1 c' = cb_zero /\
    (forall sz, netmap_confbuf_pre_read m' (buf1 c') sz = Ok (None, 0)).
Proof.
  unfold netmap_config_write, netmap_confbuf_destroy. intros H.
  destruct (destroy_loop _ m (readp (buf1 c))) as [m1| |] eqn:Hd;
    cbn [mbind result_bind] in H; try discriminate H.
  destruct (write_loop fuel m1 (buf0 c) u) as [[[[r m2] i2] u2]| |] eqn:Hw;
    cbn [mbind result_bind] in H; try discriminate H.
  injection H as <- <- <- <-.
  apply destroy_loop_inv in Hd. destruct Hd as (lo & Hlo & _ & Hin & Hout).
  exists m1, lo. cbn [buf0 buf1].
  split; [exact Hlo|]. split; [reflexivity|]. split; [exact Hin|].
  split; [exact Hout|]. split; [|split; [exact Hw|split; [reflexivity|]]].
  - intros li Hli Hdisj. eapply is_chain_same_links; [|exact Hli].
    intros a Ha. rewrite (Hout a (Hdisj a Ha)). reflexivity.
  - intros sz. apply pre_read_zero.
Qed.

Lemma write_discards_output_witness :
  exists m1 lo,
    is_chain (blocks m_full) (readp (buf1 config_out)) lo /\
    netmap_confbuf_destroy m_full (buf1 config_out) = Ok (m1, cb_zero) /\
    (forall a, a ∈ lo -> blocks m1 !! a = None) /\
    (forall a, a ∉ lo -> blocks m1 !! a = blocks m_full !! a) /\
    (forall li, is_chain (blocks m_full) (readp (buf0 config_out)) li ->
                (forall a, a ∈ li -> a ∉ lo) ->
                is_chain (blocks m1) (readp (buf0 config_out)) li) /\
    write_loop 3 m1 (buf0 config_out) (uio_write [66] None)
      = Ok (0, (after_write m_full config_out (uio_write [66] None)).1,
            buf0 (after_write m_full config_out (uio_write [66] None)).2,
            uio_write [] None) /\
    buf1 (after_write m_full config_out (uio_write [66] None)).2 = cb_zero /\
    (forall sz,
       netmap_confbuf_pre_read
         (after_write m_full config_out (uio_write [66] None)).1
         (buf1 (after_write m_full config_out (uio_write [66] None)).2) sz
       = Ok (None, 0)).
Proof.
  apply (write_discards_output 3 m_full config_out (uio_write [66] None) 0).
  vm_compute. reflexivity.
Defined.

(** ** The buffer is a queue, as far as it was written *)

Lemma rep_frame (B B' : gmap positive nm_confbuf_data) (p : option addr)
    (cs : list (addr * nm_confbuf_data)) :
  (forall a, a ∈ cs.*1 -> B' !! a = B !! a) -> rep B p cs -> rep B' p cs.
Proof.
  revert p. induction cs as [|[a c] cs IH]; intros p Hsame H; [exact H|].
  destruct H as (Hp & Hc & Hcs). cbn in *.
  split; [exact Hp|]. split.
  - rewrite Hsame by left. exact Hc.
  - apply IH; [|exact Hcs]. intros b Hb. apply Hsame. right. exact Hb.
Qed.

Lemma rep_update_last (B B' : gmap positive nm_confbuf_data) (p : option addr)
    (pre : list (addr * nm_confbuf_data)) (a : addr) (c c' : nm_confbuf_data) :
  rep B p (pre ++ [(a, c)]) ->
  (forall x, x ∈ pre.*1 -> B' !! x = B !! x) ->
  B' !! a = Some c' -> d_chain c' = d_chain c ->
  rep B' p (pre ++ [(a, c')]).
Proof.
  revert p. induction pre as [|[a1 c1] pre IH]; intros p H Hsame Ha Hch.
  - cbn in *. destruct H as (Hp & _ & Hn). rewrite Hch. auto.
  - destruct H as (Hp & Hc & Hcs). cbn in *.
    split; [exact Hp|]. split.
    + rewrite Hsame by left. exact Hc.
    + apply IH; auto. intros x Hx. apply Hsame. right. exact Hx.
Qed.

Lemma rep_extend (B B' : gmap positive nm_confbuf_data) (p : option addr)
    (pre : list (addr * nm_confbuf_data)) (a nd : addr)
    (c c' cn : nm_confbuf_data) :
  rep B p (pre ++ [(a, c)]) ->
  (forall x, x ∈ pre.*1 -> B' !! x = B !! x) ->
  B' !! a = Some c' -> d_chain c' = Some nd ->
  B' !! nd = Some cn -> d_chain cn = None ->
  rep B' p ((pre ++ [(a, c')]) ++ [(nd, cn)]).
Proof.
  revert p. induction pre as [|[a1 c1] pre IH]; intros p H Hsame Ha Hch Hnd Hn.
  - cbn in *. destruct H as (Hp & _ & _). rewrite Hch. auto.
  - destruct H as (Hp & Hc & Hcs). cbn in *.
    split; [exact Hp|]. split.
    + rewrite Hsame by left. exact Hc.
    + apply IH; auto. intros x Hx. apply Hsame. right. exact Hx.
Qed.

Lemma rep_live (B : gmap positive nm_confbuf_data) (p : option addr)
    (cs : list (addr * nm_confbuf_data)) (a : addr) :
  rep B p cs -> a ∈ cs.*1 -> is_Some (B !! a).
Proof.
  revert p. induction cs as [|[b c] cs IH]; intros p H Ha; [inversion Ha|].
  destruct H as (_ & Hc & Hcs). cbn in *.
  apply elem_of_cons in Ha. destruct Ha as [-> | Ha]; eauto.
Qed.

Lemma rep_is_chain (B : gmap positive nm_confbuf_data) (p : option addr)
    (cs : list (addr * nm_confbuf_data)) :
  rep B p cs -> is_chain B p (cs.*1).
Proof.
  revert p. induction cs as [|[b c] cs IH]; intros p H; [exact H|].
  destruct H as (Hp & Hc & Hcs). cbn in *. eauto.
Qed.

Lemma rep_last_live (B : gmap positive nm_confbuf_data) (p : option addr)
    (pre : list (addr * nm_confbuf_data)) (a : addr) (c : nm_confbuf_data) :
  rep B p (pre ++ [(a, c)]) -> B !! a = Some c /\ d_chain c = None.
Proof.
  revert p. induction pre as [|[a1 c1] pre IH]; intros p H.
  - destruct H as (_ & Hc & Hn). auto.
  - destruct H as (_ & _ & H). eapply IH, H.
Qed.

Lemma length_concat_ok (cs : list nm_confbuf_data) :
  Forall chunk_ok cs ->
  length (concat (d_data <$> cs)) = (length cs * Z.to_nat NM_CBDATASIZ)%nat.
Proof.
  induction 1 as [|c cs [_ Hc] _ IH]; [reflexivity|].
  cbn. rewrite length_app, Hc, IH. reflexivity.
Qed.

(** The read offset of a queue state never points past what the chain
    holds. *)
Lemma fifo_offset_le (pre : list (addr * nm_confbuf_data)) (c : nm_confbuf_data)
    (r w : Z) :
  Forall chunk_ok (pre.*2) -> chunk_ok c ->
  0 <= w <= NM_CBDATASIZ -> 0 <= r <= NM_CBDATASIZ -> (pre = [] -> r <= w) ->
  (Z.to_nat r <= length (concat (d_data <$> pre.*2) ++ take (Z.to_nat w) (d_data c)))%nat.
Proof.
  intros Hpre [_ Hc] Hw Hr Hrw.
  rewrite length_app, length_take, Hc, (length_concat_ok _ Hpre), length_fmap.
  destruct pre as [|ac pre]; [specialize (Hrw eq_refl); cbn; lia|].
  cbn [length]. unfold NM_CBDATASIZ in *. lia.
Qed.

Lemma fifo_wf_tail (m : kmem) (cb : netmap_confbuf) (q : list Z) :
  fifo m cb q -> wf_tail m cb.
Proof.
  unfold fifo, wf_tail. destruct (writep cb) as [a|].
  - intros (pre & c & Hrep & Hnd & Hn & Hcap & Hpre & [Hsz Hlen] & Hw & Hr & _).
    destruct (rep_last_live _ _ _ _ _ Hrep) as [Hc _].
    split; [lia|]. exists c. split; [exact Hc|].
    rewrite Hsz, Hlen. split; [exact Hw|]. split; [lia|]. split; [lia|].
    split; [|lia].
    destruct pre as [|[a1 c1] pre]; destruct Hrep as (-> & _); discriminate.
  - intros (Hr & _ & Hw & Hn & _). rewrite Hn.
    unfold NM_CBDATAMAX. split; [lia|]. auto.
Qed.

Lemma fifo_empty (j : positive -> Z -> Z) : fifo (mem_init j) cb_zero [].
Proof. cbn. auto. Qed.

(** One turn of the write loop on a queue state with room left, when the
    allocator does not refuse the chunk the turn may need: the bytes
    taken, no more than the room, are appended to the queue. *)
Lemma write_turn_fifo_gen (m : kmem) (i : netmap_confbuf) (q ws : list Z) :
  fifo m i q ->
  (tail_free m i = 0 -> forall rest, m_fail m <> true :: rest) ->
  0 < Z.of_nat (length ws) <= INT_MAX -> 0 < room m i ->
  exists m2 i2 k,
    0 < k <= Z.of_nat (length ws) /\ k <= room m i /\
    (forall fuel, write_loop (S fuel) m i (uio_write ws None)
                  = write_loop fuel m2 i2 (uio_write (drop (Z.to_nat k) ws) None)) /\
    fifo m2 i2 (q ++ take (Z.to_nat k) ws) /\
    m_fail m2 = (if tail_free m i =? 0 then tail (m_fail m) else m_fail m) /\
    room m2 i2 = room m i - k.
Proof.
  intros Hf Hfail [Hpos Hmax] Hlen.
  pose proof (fifo_wf_tail _ _ _ Hf) as [Hnr _].
  set (req := Z.of_nat (length ws)) in *.
  unfold fifo in Hf. destruct (writep i) as [a|] eqn:Hwp.
  - destruct Hf as (pre & c & Hrep & Hnd & Hn & Hcap & Hpre & [Hsz Hdl] & Hw & Hr & Hrw & Hq).
    destruct (rep_last_live _ _ _ _ _ Hrep) as [Hc Hch].
    assert (Htf : tail_free m i = NM_CBDATASIZ - next_w i).
    { unfold tail_free. rewrite Hwp, Hc, Hsz. reflexivity. }
    assert (Hrd : exists r, readp i = Some r).
    { destruct pre as [|[a1 c1] pre]; destruct Hrep as (-> & _); eauto. }
    destruct Hrd as [r Hrd].
    assert (Hale : a ∉ pre.*1).
    { rewrite fmap_app in Hnd. apply NoDup_app in Hnd.
      destruct Hnd as (_ & Hd & _). intros Ha. apply (Hd a Ha). left. }
    assert (Hoff := fifo_offset_le pre c (next_r i) (next_w i) Hpre
                      (conj Hsz Hdl) Hw Hr Hrw).
    destruct (decide (next_w i = NM_CBDATASIZ)) as [Hfull | Hfree].
    + (* the tail is full: a new chunk *)
      assert (Htf0 : tail_free m i = 0) by (rewrite Htf, Hfull; lia).
      assert (Hcap' : n_data i < NM_CBDATAMAX).
      { unfold room in Hlen. rewrite Htf, Hfull in Hlen.
        unfold NM_CBDATAMAX, NM_CBDATASIZ in *. lia. }
      assert (Hpre_eq : netmap_confbuf_pre_write m i req (Some req)
                        = pre_write_expand m i req (Some req)).
      { apply pre_write_full. rewrite Hwp. exists c. rewrite Hsz. auto. }
      assert (Hlive : forall d0, writep i = Some d0 -> is_Some (blocks m !! d0)).
      { intros d0 Hd0. rewrite Hwp in Hd0. injection Hd0 as <-. eauto. }
      destruct (pre_write_expand_total m i req (Some req) Hlive)
        as ([[[m1 i1] p] avl'] & Hex).
      destruct (pre_write_expand_inv _ _ _ _ _ _ _ _ Hlive Hex)
        as [(_ & _ & _ & _ & [Hbad | [rest Hbad]])
           | (nd & _ & Hfresh & Hfail1 & -> & -> & Hcb & Hb)];
        [lia | destruct (Hfail Htf0 _ Hbad) |].
      rewrite Hwp in Hb. destruct Hb as (c0 & Hc0 & Hb).
      rewrite Hc in Hc0. injection Hc0 as Hcc. subst c0.
      rewrite Hrd in Hcb. cbn zeta in Hb.
      rewrite expand_size_avl, min_as_if in *.
      set (k := Z.min req NM_CBDATASIZ) in *.
      assert (Hk : 0 < k <= req) by (unfold k, NM_CBDATASIZ; lia).
      assert (Hks : k <= NM_CBDATASIZ) by (unfold k; lia).
      assert (Hkr : k <= room m i).
      { unfold room. rewrite Htf, Hfull. unfold NM_CBDATAMAX, NM_CBDATASIZ in *. lia. }
      assert (Hne : a <> nd) by congruence.
      assert (Hlt : length (take (Z.to_nat k) ws) = Z.to_nat k).
      { rewrite length_take. unfold req in Hk. lia. }
      pose (cu := mk_data (Some nd) (next_w i) (d_data c)).
      pose (cn := mk_data None NM_CBDATASIZ (junk_bytes m nd NM_CBDATASIZ)).
      assert (Hnd1 : blocks m1 !! nd = Some cn).
      { rewrite Hb, lookup_insert_ne by exact Hne. apply lookup_insert_eq. }
      pose (c2 := mk_data (d_chain cn) (d_size cn)
                    (take (Z.to_nat 0) (d_data cn) ++ take (Z.to_nat k) ws ++
                     drop (Z.to_nat 0 + length (take (Z.to_nat k) ws)) (d_data cn))).
      pose (m2 := set_blocks m1 (<[nd := c2]> (blocks m1))).
      assert (Hn' : u_int (n_data i + 1) = n_data i + 1).
      { apply u_int_small. unfold NM_CBDATAMAX in *. lia. }
      pose (i2 := mk_cb (Some r) (Some nd) (next_r i) k (n_data i + 1)).
      assert (Hpw : netmap_confbuf_post_write m2 i1 k = Ok i2).
      { assert (Hd : deref m2 (writep i1) = Ok cu).
        { subst i1. cbn [writep set_n_data]. rewrite Hwp. apply deref_Some.
          cbn. rewrite lookup_insert_ne by congruence.
          rewrite Hb. apply lookup_insert_eq. }
        rewrite (post_write_eq _ _ _ _ Hd). subst i1. cbn.
        rewrite Z.eqb_refl, Hrd, Hn'. unfold i2. do 2 f_equal.
        apply u_int_small. unfold NM_CBDATASIZ in *. lia. }
      assert (Hjl : length (junk_bytes m nd NM_CBDATASIZ) = Z.to_nat NM_CBDATASIZ)
        by apply length_junk_bytes.
      exists m2, i2, k. split; [exact Hk|]. split; [exact Hkr|]. nsplit 3%nat.
      * apply (write_turn m i ws m1 i1 nd 0 k cn i2); try lia.
        -- exact (eq_trans Hpre_eq Hex).
        -- exact Hnd1.
        -- cbn [d_data cn]. rewrite Hjl. lia.
        -- exact Hpw.
      * unfold fifo, i2. cbn [writep readp next_w next_r n_data].
        exists (pre ++ [(a, cu)]), c2.
        nsplit 9%nat.
        -- rewrite <- Hrd.
           eapply rep_extend; [exact Hrep | | | reflexivity | | reflexivity].
           ++ intros x Hx. cbn. rewrite lookup_insert_ne.
              ** rewrite Hb, lookup_insert_ne by (intros ->; contradiction).
                 apply lookup_insert_ne. intros ->.
                 assert (Hl : is_Some (blocks m !! x)).
                 { eapply rep_live; [exact Hrep|]. rewrite fmap_app.
                   apply elem_of_app. left. exact Hx. }
                 destruct Hl as [? Hl]. congruence.
              ** intros ->.
                 assert (Hl : is_Some (blocks m !! x)).
                 { eapply rep_live; [exact Hrep|]. rewrite fmap_app.
                   apply elem_of_app. left. exact Hx. }
                 destruct Hl as [? Hl]. congruence.
           ++ cbn. rewrite lookup_insert_ne by congruence.
              rewrite Hb. apply lookup_insert_eq.
           ++ cbn. apply lookup_insert_eq.
        -- rewrite !fmap_app in *. cbn in *.
           apply NoDup_app. split; [exact Hnd|]. split; [|apply NoDup_singleton].
           intros x Hx Hx'. apply list_elem_of_singleton in Hx'. subst x.
           assert (Hl : is_Some (blocks m !! nd)).
           { eapply rep_live; [exact Hrep|]. rewrite fmap_app. exact Hx. }
           destruct Hl as [? Hl]. congruence.
        -- rewrite length_app. cbn [length]. lia.
        -- unfold NM_CBDATAMAX in *. lia.
        -- rewrite fmap_app. apply Forall_app. split; [exact Hpre|].
           constructor; [|constructor]. split; [cbn; lia | exact Hdl].
        -- split; [reflexivity|]. cbn [d_data c2 cn].
           rewrite length_spliced; [exact Hjl|]. rewrite Hlt, Hjl. lia.
        -- lia.
        -- exact Hr.
        -- intros Hp. destruct pre; discriminate Hp.
        -- assert (Htk : take (Z.to_nat k) (d_data c2) = take (Z.to_nat k) ws).
           { transitivity (take (Z.to_nat 0 + length (take (Z.to_nat k) ws))
                                (d_data c2)).
             { f_equal. rewrite Hlt. lia. }
             cbn [d_data c2 cn].
             rewrite take_spliced by (rewrite Hlt, Hjl; lia). reflexivity. }
           rewrite Htk.
           rewrite !fmap_app, concat_app. cbn [fmap list_fmap concat snd d_data cu].
           rewrite app_nil_r.
           rewrite Hq, Hfull, take_ge by lia.
           symmetry. apply drop_app_le.
           rewrite Hfull, take_ge in Hoff by lia. exact Hoff.
      * rewrite Htf0. cbn. exact Hfail1.
      * unfold room. rewrite Htf, Hfull.
        assert (Htf2 : tail_free m2 i2 = NM_CBDATASIZ - k).
        { unfold tail_free, i2. cbn [writep next_w]. cbn.
          rewrite lookup_insert_eq. reflexivity. }
        rewrite Htf2. unfold i2. cbn [n_data]. lia.
    + (* the free suffix of the tail *)
      set (k := Z.min req (d_size c - next_w i)).
      assert (Hk : 0 < k <= req) by (unfold k; lia).
      assert (Hks : k <= NM_CBDATASIZ - next_w i) by (unfold k; lia).
      assert (Hkr : k <= room m i).
      { unfold room. rewrite Htf. unfold NM_CBDATAMAX, NM_CBDATASIZ in *. lia. }
      assert (Hlt : length (take (Z.to_nat k) ws) = Z.to_nat k).
      { rewrite length_take. unfold req in Hk. lia. }
      pose (c2 := mk_data (d_chain c) (d_size c)
                    (take (Z.to_nat (next_w i)) (d_data c) ++ take (Z.to_nat k) ws ++
                     drop (Z.to_nat (next_w i) + length (take (Z.to_nat k) ws))
                          (d_data c))).
      pose (m2 := set_blocks m (<[a := c2]> (blocks m))).
      pose (i2 := mk_cb (readp i) (writep i) (next_r i) (next_w i + k) (n_data i)).
      assert (Hpw : netmap_confbuf_post_write m2 i k = Ok i2).
      { assert (Hd : deref m2 (writep i) = Ok c2).
        { rewrite Hwp. apply deref_Some. cbn. apply lookup_insert_eq. }
        rewrite (post_write_eq _ _ _ _ Hd). cbn [d_size c2].
        assert (E : (next_w i =? d_size c) = false) by (apply Z.eqb_neq; lia).
        rewrite E. unfold i2. do 2 f_equal.
        apply u_int_small. unfold NM_CBDATASIZ in *. lia. }
      exists m2, i2, k. split; [exact Hk|]. split; [exact Hkr|]. nsplit 3%nat.
      * apply (write_turn m i ws m i a (next_w i) k c i2); try lia.
        -- apply pre_write_tail; auto; unfold NM_CBDATASIZ in *; lia.
        -- exact Hc.
        -- exact Hpw.
      * unfold fifo, i2. cbn [writep readp next_w next_r n_data]. rewrite Hwp.
        exists pre, c2. nsplit 9%nat; auto.
        -- eapply rep_update_last; [exact Hrep| |apply lookup_insert_eq|reflexivity].
           intros x Hx. cbn. apply lookup_insert_ne. intros ->. contradiction.
        -- rewrite fmap_app in *. exact Hnd.
        -- split; [exact Hsz|]. cbn [d_data c2].
           rewrite length_spliced; [exact Hdl|]. rewrite Hlt. lia.
        -- lia.
        -- intros Hp. specialize (Hrw Hp). lia.
        -- cbn [d_data c2].
           replace (Z.to_nat (next_w i + k))
             with (Z.to_nat (next_w i) + length (take (Z.to_nat k) ws))%nat
             by (rewrite Hlt; lia).
           rewrite take_spliced by (rewrite Hlt; lia).
           rewrite Hq, app_assoc. symmetry. apply drop_app_le. exact Hoff.
      * rewrite Htf. destruct (Z.eqb_spec (NM_CBDATASIZ - next_w i) 0); [lia|].
        reflexivity.
      * unfold room. rewrite Htf.
        assert (Htf2 : tail_free m2 i2 = NM_CBDATASIZ - (next_w i + k)).
        { unfold tail_free, i2. cbn [writep next_w]. rewrite Hwp. cbn.
          rewrite lookup_insert_eq. cbn. rewrite Hsz. reflexivity. }
        rewrite Htf2. unfold i2. cbn [n_data]. lia.
  - (* an empty buffer: the first chunk *)
    destruct Hf as (Hrd & Hr0 & Hw0 & Hn0 & ->).
    assert (Htf : tail_free m i = 0).
    { unfold tail_free. rewrite Hwp. reflexivity. }
    assert (Hpre_eq : netmap_confbuf_pre_write m i req (Some req)
                      = pre_write_expand m i req (Some req)).
    { apply pre_write_full. rewrite Hwp. exact I. }
    assert (Hlive : forall d0, writep i = Some d0 -> is_Some (blocks m !! d0)).
    { intros d0 Hd0. rewrite Hwp in Hd0. discriminate Hd0. }
    destruct (pre_write_expand_total m i req (Some req) Hlive)
      as ([[[m1 i1] p] avl'] & Hex).
    destruct (pre_write_expand_inv _ _ _ _ _ _ _ _ Hlive Hex)
      as [(_ & _ & _ & _ & [Hbad | [rest Hbad]])
         | (nd & _ & Hfresh & Hfail1 & -> & -> & Hcb & Hb)];
      [unfold NM_CBDATAMAX in *; lia | destruct (Hfail Htf _ Hbad) |].
    rewrite Hwp in Hb. rewrite Hrd in Hcb. cbn zeta in Hb.
    rewrite expand_size_avl, min_as_if in *.
    set (k := Z.min req NM_CBDATASIZ) in *.
    assert (Hk : 0 < k <= req) by (unfold k, NM_CBDATASIZ; lia).
    assert (Hks : k <= NM_CBDATASIZ) by (unfold k; lia).
    assert (Hkr : k <= room m i).
    { unfold room. rewrite Htf, Hn0. unfold NM_CBDATAMAX, NM_CBDATASIZ in *. lia. }
    assert (Hlt : length (take (Z.to_nat k) ws) = Z.to_nat k).
    { rewrite length_take. unfold req in Hk. lia. }
    pose (cn := mk_data None NM_CBDATASIZ (junk_bytes m nd NM_CBDATASIZ)).
    assert (Hnd1 : blocks m1 !! nd = Some cn).
    { rewrite Hb. apply lookup_insert_eq. }
    pose (c2 := mk_data (d_chain cn) (d_size cn)
                  (take (Z.to_nat 0) (d_data cn) ++ take (Z.to_nat k) ws ++
                   drop (Z.to_nat 0 + length (take (Z.to_nat k) ws)) (d_data cn))).
    pose (m2 := set_blocks m1 (<[nd := c2]> (blocks m1))).
    assert (Hn' : u_int (n_data i + 1) = 1) by (rewrite Hn0; reflexivity).
    pose (i2 := mk_cb (Some nd) (Some nd) 0 k 1).
    assert (Hpw : netmap_confbuf_post_write m2 i1 k = Ok i2).
    { assert (Hd : deref m2 (writep i1) = Ok c2).
      { subst i1. cbn [writep]. apply deref_Some. cbn. apply lookup_insert_eq. }
      rewrite (post_write_eq _ _ _ _ Hd). subst i1. cbn.
      rewrite Hw0, Hr0, Hn'. cbn. unfold i2. do 2 f_equal.
      apply u_int_small. unfold NM_CBDATASIZ in *. lia. }
    assert (Hjl : length (junk_bytes m nd NM_CBDATASIZ) = Z.to_nat NM_CBDATASIZ)
      by apply length_junk_bytes.
    exists m2, i2, k. split; [exact Hk|]. split; [exact Hkr|]. nsplit 3%nat.
    + apply (write_turn m i ws m1 i1 nd 0 k cn i2); try lia.
      * exact (eq_trans Hpre_eq Hex).
      * exact Hnd1.
      * cbn [d_data cn]. rewrite Hjl. lia.
      * exact Hpw.
    + unfold fifo, i2. cbn [writep readp next_w next_r n_data].
      exists [], c2.
      nsplit 9%nat.
      * cbn. split; [reflexivity|]. split; [apply lookup_insert_eq | reflexivity].
      * cbn. apply NoDup_singleton.
      * reflexivity.
      * unfold NM_CBDATAMAX. lia.
      * constructor.
      * split; [reflexivity|]. cbn [d_data c2 cn].
        rewrite length_spliced; [exact Hjl|]. rewrite Hlt, Hjl. lia.
      * lia.
      * unfold NM_CBDATASIZ. lia.
      * intros _. lia.
      * assert (Htk : take (Z.to_nat k) (d_data c2) = take (Z.to_nat k) ws).
        { transitivity (take (Z.to_nat 0 + length (take (Z.to_nat k) ws))
                             (d_data c2)).
          { f_equal. rewrite Hlt. lia. }
          cbn [d_data c2 cn].
          rewrite take_spliced by (rewrite Hlt, Hjl; lia). reflexivity. }
        rewrite Htk. reflexivity.
    + rewrite Htf. cbn. exact Hfail1.
    + unfold room. rewrite Htf.
      assert (Htf2 : tail_free m2 i2 = NM_CBDATASIZ - k).
      { unfold tail_free, i2. cbn [writep next_w]. cbn.
        rewrite lookup_insert_eq. reflexivity. }
      rewrite Htf2. unfold i2. cbn [n_data]. rewrite Hn0. lia.
Qed.

(** The same with an allocator that never refuses. *)
Lemma write_turn_fifo (m : kmem) (i : netmap_confbuf) (q ws : list Z) :
  fifo m i q -> m_fail m = [] ->
  0 < Z.of_nat (length ws) <= INT_MAX -> 0 < room m i ->
  exists m2 i2 k,
    0 < k <= Z.of_nat (length ws) /\ k <= room m i /\
    (forall fuel, write_loop (S fuel) m i (uio_write ws None)
                  = write_loop fuel m2 i2 (uio_write (drop (Z.to_nat k) ws) None)) /\
    fifo m2 i2 (q ++ take (Z.to_nat k) ws) /\ m_fail m2 = [] /\
    room m2 i2 = room m i - k.
Proof.
  intros Hf Hfail Hlen Hroom.
  destruct (write_turn_fifo_gen m i q ws Hf) as (m2 & i2 & k & H1 & H2 & H3 & H4 & H5 & H6);
    [intros _ rest; rewrite Hfail; discriminate | exact Hlen | exact Hroom |].
  exists m2, i2, k. rewrite Hfail in H5.
  assert (m_fail m2 = []) by (rewrite H5; destruct (_ =? _); reflexivity).
  auto 10.
Qed.

(** A write call whose bytes fit in the room left stores all of them, in
    order, behind the bytes already queued. *)
Lemma write_loop_fifo (fuel : nat) (m : kmem) (i : netmap_confbuf)
    (q ws : list Z) :
  fifo m i q -> m_fail m = [] ->
  Z.of_nat (length ws) <= room m i ->
  (length ws < fuel)%nat ->
  exists m' i',
    write_loop fuel m i (uio_write ws None) = Ok (0, m', i', uio_write [] None) /\
    fifo m' i' (q ++ ws) /\ m_fail m' = [] /\
    room m' i' = room m i - Z.of_nat (length ws).
Proof.
  revert m i q ws. induction fuel as [|fuel IH]; intros m i q ws Hf Hfail Hlen Hfuel;
    [lia|].
  destruct ws as [|w ws].
  - exists m, i. cbn. rewrite app_nil_r. repeat split; auto. lia.
  - pose proof (room_bound _ _ (fifo_wf_tail _ _ _ Hf)) as Hrb.
    destruct (write_turn_fifo m i q (w :: ws) Hf Hfail)
      as (m2 & i2 & k & Hk & _ & Heq & Hf2 & Hfail2 & Hroom2).
    { cbn [length] in *. unfold NM_CBDATAMAX, NM_CBDATASIZ, INT_MAX in *. lia. }
    { cbn [length] in *. lia. }
    rewrite Heq.
    destruct (IH m2 i2 (q ++ take (Z.to_nat k) (w :: ws))
                 (drop (Z.to_nat k) (w :: ws)) Hf2 Hfail2)
      as (m' & i' & Hrun & Hf' & Hfail' & Hroom').
    + rewrite length_drop. lia.
    + rewrite length_drop. lia.
    + exists m', i'. split; [exact Hrun|].
      rewrite <- app_assoc, take_drop in Hf'. split; [exact Hf'|].
      split; [exact Hfail'|]. rewrite Hroom', Hroom2, length_drop. lia.
Qed.

Lemma written_fifo (m : kmem) (cb : netmap_confbuf) (q w : list Z) :
  fifo m cb q -> m_fail m = [] -> Z.of_nat (length w) <= room m cb ->
  fifo (written m cb w).1 (written m cb w).2 (q ++ w) /\
  m_fail (written m cb w).1 = [] /\
  room (written m cb w).1 (written m cb w).2 = room m cb - Z.of_nat (length w).
Proof.
  intros Hf Hfail Hroom.
  destruct (write_loop_fifo (S (length w)) m cb q w Hf Hfail Hroom ltac:(lia))
    as (m' & cb' & Hrun & Hf' & Hfail' & Hroom').
  unfold written. rewrite Hrun. cbn [fst snd]. auto.
Qed.

Lemma write_all_fifo (ws : list (list Z)) (m : kmem) (cb : netmap_confbuf)
    (q : list Z) :
  fifo m cb q -> m_fail m = [] ->
  Z.of_nat (length (concat ws)) <= room m cb ->
  fifo (write_all (m, cb) ws).1 (write_all (m, cb) ws).2 (q ++ concat ws).
Proof.
  revert m cb q. induction ws as [|w ws IH]; intros m cb q Hf Hfail Hroom.
  - cbn. rewrite app_nil_r. exact Hf.
  - cbn [write_all concat fst snd] in *. rewrite length_app in Hroom.
    destruct (written_fifo m cb q w Hf Hfail ltac:(lia)) as (Hf' & Hfail' & Hroom').
    destruct (written m cb w) as [m1 cb1] eqn:E. cbn [fst snd] in *.
    rewrite app_assoc. apply IH; [exact Hf' | exact Hfail' | lia].
Qed.

(** Reading from a queue state that still holds [sz] bytes or more:
    [netmap_confbuf_pre_read] returns a region of [k <= sz] bytes that
    holds the [k] oldest bytes, and committing them leaves the rest. *)
Lemma fifo_read_step (m : kmem) (cb : netmap_confbuf) (q : list Z) (sz : Z) :
  fifo m cb q -> 0 < sz <= Z.of_nat (length q) ->
  exists a off k,
    netmap_confbuf_pre_read m cb sz = Ok (Some (a, off), k) /\
    0 < k <= sz /\
    load_bytes m (a, off) k = Ok (take (Z.to_nat k) q) /\
    exists m' cb',
      netmap_confbuf_post_read m cb k = Ok (m', cb') /\
      fifo m' cb' (drop (Z.to_nat k) q) /\ m_fail m' = m_fail m.
Proof.
  intros Hf Hsz. unfold fifo in Hf.
  destruct (writep cb) as [t|] eqn:Hwp.
  2:{ destruct Hf as (_ & _ & _ & _ & ->). cbn in Hsz. lia. }
  destruct Hf as (pre & c & Hrep & Hnd & Hn & Hcap & Hpre & [Hcs Hcl] & Hw & Hr & Hrw & Hq).
  unfold netmap_confbuf_pre_read.
  destruct pre as [|[a1 c1] pre].
  - (* the head is the tail *)
    specialize (Hrw eq_refl). cbn in Hrep, Hq. destruct Hrep as (Hrd & Hc & Hch).
    assert (Hql : length q = (Z.to_nat (next_w cb) - Z.to_nat (next_r cb))%nat).
    { rewrite Hq, length_drop, length_take. lia. }
    assert (Hus : u_int (d_size c - next_r cb) = d_size c - next_r cb).
    { apply u_int_small. unfold NM_CBDATASIZ in *. lia. }
    exists t, (next_r cb), sz. rewrite Hrd.
    rewrite (pre_read_loop_here _ _ _ _ _ _ Hc) by lia.
    rewrite Hus, Z.min_l by lia.
    split; [reflexivity|]. split; [lia|]. split.
    + rewrite (load_bytes_Ok _ _ _ _ _ Hc) by lia. f_equal.
      rewrite Hq, !take_drop_commute, take_take. do 2 f_equal. lia.
    + rewrite (post_read_eq _ _ _ _ _ Hrd Hc).
      assert (E : (next_r cb =? d_size c) = false) by (apply Z.eqb_neq; lia).
      rewrite E. do 2 eexists. split; [reflexivity|]. split; [|reflexivity].
      assert (Hu : u_int (next_r cb + sz) = next_r cb + sz).
      { apply u_int_small. unfold NM_CBDATASIZ in *. lia. }
      unfold fifo. cbn [writep readp next_w next_r n_data]. rewrite Hwp, Hu.
      exists [], c. cbn.
      split; [auto|]. split; [exact Hnd|]. split; [exact Hn|].
      split; [exact Hcap|]. split; [constructor|]. split; [split; assumption|].
      split; [exact Hw|]. split; [lia|]. split; [intros _; lia|].
      rewrite Hq, drop_drop. f_equal. lia.
  - (* the head is before the tail *)
    destruct Hrep as (Hrd & Hc1 & Hrep). cbn [fst snd] in Hrd, Hc1, Hrep.
    cbn [fmap list_fmap] in Hpre.
    apply Forall_cons in Hpre. destruct Hpre as [[Hc1s Hc1l] Hpre].
    cbn [snd] in Hc1s, Hc1l.
    cbn [fmap list_fmap app fst] in Hnd. apply NoDup_cons in Hnd.
    destruct Hnd as [Ha1 Hnd].
    set (rest := concat (d_data <$> pre.*2) ++ take (Z.to_nat (next_w cb)) (d_data c)) in *.
    assert (Hq' : q = drop (Z.to_nat (next_r cb)) (d_data c1 ++ rest)).
    { rewrite Hq. cbn. rewrite <- app_assoc. reflexivity. }
    assert (Hrest : pre = [] -> length rest = Z.to_nat (next_w cb)).
    { intros ->. unfold rest. cbn. rewrite length_take. lia. }
    assert (Hframe : forall x, x ∈ (pre ++ [(t, c)]).*1 ->
                               delete a1 (blocks m) !! x = blocks m !! x).
    { intros x Hx. apply lookup_delete_ne. intros ->. contradiction. }
    cbn [length] in Hn.
    destruct (decide (next_r cb = NM_CBDATASIZ)) as [Hex | Hne].
    + (* the head is drained: the region is in the second chunk *)
      assert (Hqr : q = rest).
      { rewrite Hq'. apply drop_app_length'. rewrite Hc1l, Hex. reflexivity. }
      assert (H2 : exists a2 c2, d_chain c1 = Some a2 /\ blocks m !! a2 = Some c2 /\
                     chunk_ok c2 /\
                     forall k, (k <= Z.to_nat NM_CBDATASIZ)%nat ->
                               (k <= length rest)%nat ->
                               take k rest = take k (d_data c2)).
      { destruct pre as [|[a2 c2] pre].
        - destruct Hrep as (Hch & Hc & _). cbn [fst snd] in *.
          exists t, c. split; [exact Hch|]. split; [exact Hc|].
          split; [split; assumption|]. intros k Hk Hkr.
          unfold rest. cbn. rewrite take_take.
          rewrite (Hrest eq_refl) in Hkr. f_equal. lia.
        - destruct Hrep as (Hch & Hc2 & _). cbn [fst snd] in *.
          cbn [fmap list_fmap] in Hpre. apply Forall_cons in Hpre.
          destruct Hpre as [[Hc2s Hc2l] _]. cbn [snd] in Hc2s, Hc2l.
          exists a2, c2. split; [exact Hch|]. split; [exact Hc2|].
          split; [split; assumption|]. intros k Hk Hkr.
          unfold rest. cbn. rewrite <- app_assoc. apply take_app_le. lia. }
      destruct H2 as (a2 & c2 & Hch & Hc2 & [Hc2s Hc2l] & Htake).
      set (k := Z.min sz NM_CBDATASIZ).
      assert (Hk : 0 < k <= sz) by (unfold k, NM_CBDATASIZ; lia).
      exists a2, 0, k. rewrite Hrd.
      rewrite (pre_read_loop_skip _ _ _ _ _ _ Hc1) by lia.
      rewrite (size_live _ _ _ Hc1), Hch.
      rewrite (pre_read_loop_here _ _ _ _ _ _ Hc2) by (rewrite Hc2s; reflexivity).
      rewrite Hc2s, Z.sub_0_r. change (u_int NM_CBDATASIZ) with NM_CBDATASIZ.
      fold k. split; [reflexivity|]. split; [exact Hk|]. split.
      * rewrite (load_bytes_Ok _ _ _ _ _ Hc2) by (unfold k in *; lia).
        cbn [Z.to_nat drop]. f_equal. rewrite Hqr. symmetry.
        apply Htake; [unfold k; lia | rewrite <- Hqr; lia].
      * rewrite (post_read_eq _ _ _ _ _ Hrd Hc1).
        assert (E : (next_r cb =? d_size c1) = true) by (apply Z.eqb_eq; lia).
        rewrite E. do 2 eexists. split; [reflexivity|]. split; [|reflexivity].
        assert (Hu : u_int (0 + k) = k).
        { apply u_int_small. unfold k, NM_CBDATASIZ in *. lia. }
        assert (Hu' : u_int (n_data cb - 1) = n_data cb - 1).
        { apply u_int_small. unfold NM_CBDATAMAX in *. lia. }
        unfold fifo. cbn [writep readp next_w next_r n_data]. rewrite Hwp, Hu, Hu'.
        exists pre, c. cbn [free set_blocks blocks].
        split; [eapply rep_frame; [exact Hframe | exact Hrep]|].
        split; [exact Hnd|]. split; [lia|]. split; [lia|].
        split; [exact Hpre|]. split; [split; assumption|].
        split; [exact Hw|]. split; [unfold k; lia|]. split.
        -- intros Hp. specialize (Hrest Hp). rewrite Hqr in Hsz. unfold k. lia.
        -- fold rest. rewrite Hqr. reflexivity.
    + (* the region is in the head *)
      set (k := Z.min sz (NM_CBDATASIZ - next_r cb)).
      assert (Hk : 0 < k <= sz) by (unfold k; lia).
      assert (Hus : u_int (d_size c1 - next_r cb) = NM_CBDATASIZ - next_r cb).
      { rewrite Hc1s. apply u_int_small. unfold NM_CBDATASIZ in *. lia. }
      assert (Hqd : q = drop (Z.to_nat (next_r cb)) (d_data c1) ++ rest).
      { rewrite Hq'. apply drop_app_le. lia. }
      exists a1, (next_r cb), k. rewrite Hrd.
      rewrite (pre_read_loop_here _ _ _ _ _ _ Hc1) by lia.
      rewrite Hus. fold k. split; [reflexivity|]. split; [exact Hk|]. split.
      * rewrite (load_bytes_Ok _ _ _ _ _ Hc1) by (unfold k in *; lia).
        f_equal. rewrite Hqd. symmetry. apply take_app_le.
        rewrite length_drop. unfold k. lia.
      * rewrite (post_read_eq _ _ _ _ _ Hrd Hc1).
        assert (E : (next_r cb =? d_size c1) = false) by (apply Z.eqb_neq; lia).
        rewrite E. do 2 eexists. split; [reflexivity|]. split; [|reflexivity].
        assert (Hu : u_int (next_r cb + k) = next_r cb + k).
        { apply u_int_small. unfold k, NM_CBDATASIZ in *. lia. }
        unfold fifo. cbn [writep readp next_w next_r n_data]. rewrite Hwp, Hu.
        exists ((a1, c1) :: pre), c.
        split; [cbn; auto|].
        split; [cbn; apply NoDup_cons; split; assumption|].
        split; [cbn [length]; lia|]. split; [exact Hcap|].
        split; [cbn; apply Forall_cons; split; [split|]; assumption|].
        split; [split; assumption|].
        split; [exact Hw|]. split; [unfold k; lia|]. split; [discriminate|].
        cbn [fmap list_fmap concat snd]. rewrite <- app_assoc. fold rest.
        rewrite Hq', drop_drop. f_equal. unfold k. lia.
Qed.

(** A read call for [n] bytes on a queue that holds at least [n] delivers
    the [n] oldest bytes, in order, and leaves the rest queued. *)
Lemma read_loop_fifo (fuel : nat) (m : kmem) (o : netmap_confbuf)
    (q got : list Z) (n : Z) :
  fifo m o q -> 0 <= n <= Z.of_nat (length q) -> n <= INT_MAX ->
  (Z.to_nat n < fuel)%nat ->
  exists m' o',
    read_loop fuel m o (mk_uio UIO_READ n got None)
    = Ok (0, m', o', mk_uio UIO_READ 0 (got ++ take (Z.to_nat n) q) None) /\
    fifo m' o' (drop (Z.to_nat n) q) /\ m_fail m' = m_fail m.
Proof.
  revert m o q got n.
  induction fuel as [|fuel IH]; intros m o q got n Hf Hn Hmax Hfuel; [lia|].
  cbn [read_loop uio_resid].
  destruct (0 <? n) eqn:Hpos.
  2:{ apply Z.ltb_ge in Hpos. assert (n = 0) by lia. subst n.
      exists m, o. cbn. rewrite app_nil_r. auto. }
  apply Z.ltb_lt in Hpos. rewrite req_of_resid by lia.
  destruct (fifo_read_step m o q n Hf ltac:(lia))
    as (a & off & k & Hpre & Hk & Hload & m1 & o1 & Hpost & Hf1 & Hfail1).
  rewrite Hpre. cbn [mbind result_bind].
  rewrite to_int_small by lia.
  rewrite (uiomove_read_Ok _ _ _ _ _ _ Hk Hload).
  cbn [mbind result_bind negb Z.eqb].
  rewrite u_int_small by (unfold INT_MAX in *; lia).
  rewrite Hpost. cbn [mbind result_bind].
  destruct (IH m1 o1 (drop (Z.to_nat k) q) (got ++ take (Z.to_nat k) q) (n - k) Hf1)
    as (m' & o' & Hrun & Hf' & Hfail'); [rewrite length_drop; lia | lia | lia |].
  exists m', o'. rewrite Hrun. split; [|split].
  - do 3 f_equal. rewrite <- app_assoc. f_equal.
    rewrite take_take_drop. f_equal. lia.
  - rewrite drop_drop in Hf'.
    replace (Z.to_nat k + Z.to_nat (n - k))%nat with (Z.to_nat n) in Hf' by lia.
    exact Hf'.
  - congruence.
Qed.

(** On a queue that is not empty [peek] returns its oldest byte. *)
Lemma peek_fifo (m : kmem) (cb : netmap_confbuf) (b : Z) (q : list Z) :
  fifo m cb (b :: q) -> netmap_confbuf_peek m (mk_jp cb) = Ok (char_to_int b).
Proof.
  intros Hf.
  destruct (fifo_read_step m cb (b :: q) 1 Hf ltac:(cbn [length]; lia))
    as (a & off & k & Hpre & Hk & Hload & _).
  assert (k = 1) by lia. subst k.
  unfold netmap_confbuf_peek. cbn [jp_cb]. rewrite Hpre.
  cbn [mbind result_bind]. rewrite Hload. reflexivity.
Qed.

(** ... and [consume] removes it. *)
Lemma consume_fifo (m : kmem) (cb : netmap_confbuf) (b : Z) (q : list Z) :
  fifo m cb (b :: q) ->
  exists m' cb',
    netmap_confbuf_consume m (mk_jp cb) = Ok (m', mk_jp cb') /\ fifo m' cb' q.
Proof.
  intros Hf.
  destruct (fifo_read_step m cb (b :: q) 1 Hf ltac:(cbn [length]; lia))
    as (a & off & k & _ & Hk & _ & m' & cb' & Hpost & Hf' & _).
  assert (k = 1) by lia. subst k.
  exists m', cb'. unfold netmap_confbuf_consume. cbn [jp_cb].
  rewrite Hpost. split; [reflexivity | exact Hf'].
Qed.

(** The part of the round trip that holds.  After any sequence of write
    calls on an empty buffer whose bytes add up to at most
    [NM_CBDATAMAX * NM_CBDATASIZ], with an allocator and a transport that
    do not fail, a read call that asks for [n] bytes, [n] at most the
    number written, delivers exactly the first [n] bytes written, in write
    order.  (What it delivers when it asks for more is the subject of
    [read_back_runs_past_written].) *)
Theorem write_then_read_exact (j : positive -> Z -> Z) (ws : list (list Z))
    (n : Z) :
  Z.of_nat (length (concat ws)) <= NM_CBDATAMAX * NM_CBDATASIZ ->
  0 <= n <= Z.of_nat (length (concat ws)) ->
  exists m' cb',
    read_loop (S (Z.to_nat n))
      (write_all (mem_init j, cb_zero) ws).1
      (write_all (mem_init j, cb_zero) ws).2 (uio_read n None)
    = Ok (0, m', cb', mk_uio UIO_READ 0 (take (Z.to_nat n) (concat ws)) None).
Proof.
  intros Htot Hn.
  pose proof (write_all_fifo ws (mem_init j) cb_zero [] (fifo_empty j) eq_refl Htot)
    as Hf.
  cbn [app] in Hf.
  destruct (read_loop_fifo (S (Z.to_nat n)) _ _ _ [] n Hf Hn)
    as (m' & cb' & Hrun & _); [|lia|].
  { unfold NM_CBDATAMAX, NM_CBDATASIZ, INT_MAX in *. lia. }
  exists m', cb'. exact Hrun.
Qed.

(** The part of the stream protocol that holds: while written bytes
    remain, [peek] returns the oldest of them, as often as it is asked,
    and after [consume] it returns the next one. *)
Theorem peek_consume_in_order (m : kmem) (cb : netmap_confbuf) (b b' : Z)
    (q : list Z) :
  fifo m cb (b :: b' :: q) ->
  netmap_confbuf_peek m (mk_jp cb) = Ok (char_to_int b) /\
  exists m' cb',
    netmap_confbuf_consume m (mk_jp cb) = Ok (m', mk_jp cb') /\
    netmap_confbuf_peek m' (mk_jp cb') = Ok (char_to_int b') /\
    fifo m' cb' (b' :: q).
Proof.
  intros Hf. split; [eapply peek_fifo, Hf|].
  destruct (consume_fifo _ _ _ _ Hf) as (m' & cb' & Hc & Hf').
  exists m', cb'. split; [exact Hc|]. split; [|exact Hf'].
  eapply peek_fifo, Hf'.
Qed.

(** ** Reading past what was written *)

(** C1 at a failing input.  One write call of the two bytes 65, 66 into an
    empty buffer, then one read call that asks for three bytes:
    [netmap_confbuf_pre_read] offers a region of three bytes, and the read
    succeeds and delivers three bytes, the third being whatever the
    allocator left at offset 2 of the chunk.  The region is bounded by the
    chunk's [size] alone, never by [next_w]. *)
Theorem read_back_runs_past_written (j : positive -> Z -> Z) :
  written (mem_init j) cb_zero [65; 66]
    = (mk_kmem {[ 1%positive :=
                   mk_data None 1024
                     ([65; 66] ++ drop 2 (junk_bytes (mem_init j) 1%positive 1024)) ]}
               [] j,
       mk_cb (Some 1%positive) (Some 1%positive) 0 2 1) /\
  netmap_confbuf_pre_read (written (mem_init j) cb_zero [65; 66]).1
                          (written (mem_init j) cb_zero [65; 66]).2 3
    = Ok (Some (1%positive, 0), 3) /\
  read_loop 4 (written (mem_init j) cb_zero [65; 66]).1
              (written (mem_init j) cb_zero [65; 66]).2 (uio_read 3 None)
    = Ok (0, (written (mem_init j) cb_zero [65; 66]).1,
          mk_cb (Some 1%positive) (Some 1%positive) 3 2 1,
          mk_uio UIO_READ 0 [65; 66; j 1%positive 2] None).
Proof.
  split; [vm_compute; reflexivity|].
  split; vm_compute; reflexivity.
Qed.

(** C8 at a failing input.  After one write call of the single byte 65,
    [peek] returns 65; after [consume] no written byte remains, yet
    [netmap_confbuf_pre_read] still returns a region (offset 1 of the
    chunk) and [peek] returns the byte found there instead of reporting
    the end of the stream. *)
Theorem peek_runs_past_written (j : positive -> Z -> Z) :
  let m := (written (mem_init j) cb_zero [65]).1 in
  let jp := mk_jp (written (mem_init j) cb_zero [65]).2 in
  let jp' := mk_jp (mk_cb (Some 1%positive) (Some 1%positive) 1 1 1) in
  netmap_confbuf_peek m jp = Ok 65 /\
  netmap_confbuf_consume m jp = Ok (m, jp') /\
  next_w (jp_cb jp') = 1 /\
  netmap_confbuf_pre_read m (jp_cb jp') 1 = Ok (Some (1%positive, 1), 1) /\
  netmap_confbuf_peek m jp' = Ok (char_to_int (j 1%positive 1)).
Proof.
  cbv zeta.
  split; [vm_compute; reflexivity|].
  split; [vm_compute; reflexivity|].
  split; [reflexivity|].
  split; vm_compute; reflexivity.
Qed.

(** ** A transport failure after an expansion *)

(** C5 at a failing input.  The input buffer holds one full chunk.  A
    write call whose [uiomove] faults returns [EFAULT] at once and commits
    nothing, and the chunk that [netmap_confbuf_pre_write] had just linked
    (chunk 2) is reachable; but the write cursor is still on the full
    chunk 1, because the commit that would roll it is skipped.  The next
    write call, whether it succeeds or fails in the same way, expands
    again: it overwrites the link of chunk 1, and chunk 2 is live but no
    longer reachable from the read pointer.  [n_data] counts it, and
    tearing the channel down does not free it. *)
Theorem failed_write_leaks_chunk :
  (* the first failure *)
  netmap_config_write 2 st_full.1 st_full.2 (uio_write [66] (Some 0))
    = Ok (EFAULT, st_fail1.1, st_fail1.2, uio_write [66] (Some 0)) /\
  reachable st_fail1.1 (buf0 st_fail1.2) = [1%positive; 2%positive] /\
  writep (buf0 st_fail1.2) = Some 1%positive /\
  next_w (buf0 st_fail1.2) = next_w (buf0 st_full.2) /\
  (* a next attempt that succeeds *)
  netmap_config_write 2 st_fail1.1 st_fail1.2 (uio_write [66] None)
    = Ok (0, st_retry.1, st_retry.2, uio_write [] None) /\
  reachable st_retry.1 (buf0 st_retry.2) = [1%positive; 3%positive] /\
  is_Some (blocks st_retry.1 !! 2%positive) /\
  (* a next attempt that fails again *)
  netmap_config_write 2 st_fail1.1 st_fail1.2 (uio_write [66] (Some 0))
    = Ok (EFAULT, st_fail2.1, st_fail2.2, uio_write [66] (Some 0)) /\
  reachable st_fail2.1 (buf0 st_fail2.2) = [1%positive; 3%positive] /\
  is_Some (blocks st_fail2.1 !! 2%positive) /\
  n_data (buf0 st_fail2.2) = 3 /\
  exists m, netmap_config_uninit st_fail2.1 st_fail2.2 = Ok (m, config0) /\
            is_Some (blocks m !! 2%positive).
Proof.
  split; [vm_compute; reflexivity|].
  split; [vm_compute; reflexivity|].
  split; [vm_compute; reflexivity|].
  split; [vm_compute; reflexivity|].
  split; [vm_compute; reflexivity|].
  split; [vm_compute; reflexivity|].
  split; [vm_compute; eexists; reflexivity|].
  split; [vm_compute; reflexivity|].
  split; [vm_compute; reflexivity|].
  split; [vm_compute; eexists; reflexivity|].
  split; [vm_compute; reflexivity|].
  eexists. split; [vm_compute; reflexivity|].
  vm_compute. eexists. reflexivity.
Qed.

(** ** Invariants of the buffer operations *)

Section Invariant.

Variable P : kmem -> netmap_confbuf -> Prop.

Hypothesis P_pre_write :
  forall m cb req avl m' cb' p avl',
    P m cb -> netmap_confbuf_pre_write m cb req avl = Ok (m', cb', p, avl') ->
    P m' cb'.
Hypothesis P_post_write :
  forall m cb size cb',
    P m cb -> netmap_confbuf_post_write m cb size = Ok cb' -> P m cb'.
Hypothesis P_post_read :
  forall m cb size m' cb',
    P m cb -> netmap_confbuf_post_read m cb size = Ok (m', cb') -> P m' cb'.
Hypothesis P_uiomove :
  forall m cb q n u ret m' u',
    P m cb -> uiomove m q n u = Ok (ret, m', u') -> P m' cb.

(** What the four steps keep, the two loops keep, whatever the transport
    does. *)
Lemma inv_write_loop (fuel : nat) (m : kmem) (i : netmap_confbuf) (u : uio)
    (ret : Z) (m' : kmem) (i' : netmap_confbuf) (u' : uio) :
  P m i -> write_loop fuel m i u = Ok (ret, m', i', u') -> P m' i'.
Proof.
  revert m i u. induction fuel as [|fuel IH]; intros m i u Hinv H;
    [discriminate H|].
  cbn [write_loop] in H.
  destruct (0 <? uio_resid u); [|injection H as _ <- <- _; exact Hinv].
  destruct (netmap_confbuf_pre_write m i (u_int (to_int (uio_resid u)))
              (Some (u_int (to_int (uio_resid u)))))
    as [[[[m1 i1] p] avl]| |] eqn:Hpre; cbn in H; try discriminate H.
  apply (P_pre_write _ _ _ _ _ _ _ _ Hinv) in Hpre.
  destruct p as [q|]; [|injection H as _ <- <- _; exact Hpre].
  destruct (uiomove m1 q (to_int (default 0 avl)) u) as [[[r m2] u2]| |] eqn:Hu;
    cbn in H; try discriminate H.
  apply (P_uiomove _ _ _ _ _ _ _ _ Hpre) in Hu.
  destruct (negb (r =? 0)); [injection H as _ <- <- _; exact Hu|].
  destruct (netmap_confbuf_post_write m2 i1 (u_int (to_int (default 0 avl))))
    as [i2| |] eqn:Hpost; cbn in H; try discriminate H.
  apply (P_post_write _ _ _ _ Hu) in Hpost.
  eapply IH; eassumption.
Qed.

Lemma inv_read_loop (fuel : nat) (m : kmem) (o : netmap_confbuf) (u : uio)
    (ret : Z) (m' : kmem) (o' : netmap_confbuf) (u' : uio) :
  P m o -> read_loop fuel m o u = Ok (ret, m', o', u') -> P m' o'.
Proof.
  revert m o u. induction fuel as [|fuel IH]; intros m o u Hinv H;
    [discriminate H|].
  cbn [read_loop] in H.
  destruct (0 <? uio_resid u); [|injection H as _ <- <- _; exact Hinv].
  destruct (netmap_confbuf_pre_read m o (u_int (to_int (uio_resid u))))
    as [[p sz]| |]; cbn in H; try discriminate H.
  destruct p as [q|]; [|injection H as _ <- <- _; exact Hinv].
  destruct (uiomove m q (to_int sz) u) as [[[r m2] u2]| |] eqn:Hu;
    cbn in H; try discriminate H.
  apply (P_uiomove _ _ _ _ _ _ _ _ Hinv) in Hu.
  destruct (negb (r =? 0)); [injection H as _ <- <- _; exact Hu|].
  destruct (netmap_confbuf_post_read m2 o (u_int (to_int sz)))
    as [[m3 o3]| |] eqn:Hpost; cbn in H; try discriminate H.
  apply (P_post_read _ _ _ _ _ Hu) in Hpost.
  eapply IH; eassumption.
Qed.

Lemma inv_step (op : cb_op) (st st' : kmem * netmap_confbuf) :
  op <> OpDestroy -> P st.1 st.2 -> step op st = Ok st' -> P st'.1 st'.2.
Proof.
  destruct st as [m cb], st' as [m' cb']. cbn [fst snd]. intros Hop Hinv H.
  destruct op; cbn [step] in H; try (contradiction Hop; reflexivity).
  - destruct (netmap_confbuf_pre_write m cb req_size avl_size)
      as [[[[m1 cb1] p] a]| |] eqn:E; cbn in H; try discriminate H.
    injection H as <- <-. eapply P_pre_write; eassumption.
  - destruct (netmap_confbuf_post_write m cb size) as [cb1| |] eqn:E;
      cbn in H; try discriminate H.
    injection H as <- <-. eapply P_post_write; eassumption.
  - destruct (netmap_confbuf_pre_read m cb size); cbn in H; try discriminate H.
    injection H as <- <-. exact Hinv.
  - eapply P_post_read; eassumption.
  - destruct (netmap_confbuf_peek m (mk_jp cb)); cbn in H; try discriminate H.
    injection H as <- <-. exact Hinv.
  - unfold netmap_confbuf_consume in H. cbn [jp_cb] in H.
    destruct (netmap_confbuf_post_read m cb 1) as [[m1 cb1]| |] eqn:E;
      cbn in H; try discriminate H.
    injection H as <- <-. eapply P_post_read; eassumption.
  - destruct (write_loop fuel m cb u) as [[[[r m1] cb1] u1]| |] eqn:E;
      cbn in H; try discriminate H.
    injection H as <- <-. eapply inv_write_loop; eassumption.
  - destruct (read_loop fuel m cb u) as [[[[r m1] cb1] u1]| |] eqn:E;
      cbn in H; try discriminate H.
    injection H as <- <-. eapply inv_read_loop; eassumption.
Qed.

Lemma inv_run (ops : list cb_op) (st st' : kmem * netmap_confbuf) :
  OpDestroy ∉ ops -> P st.1 st.2 -> run ops st = Ok st' -> P st'.1 st'.2.
Proof.
  revert st. induction ops as [|op ops IH]; intros st Hops Hinv H.
  - injection H as <-. exact Hinv.
  - cbn [run] in H. destruct (step op st) as [st1| |] eqn:E;
      cbn in H; try discriminate H.
    apply not_elem_of_cons in Hops. destruct Hops as [Hop Hops].
    eapply IH; [exact Hops | | exact H].
    eapply inv_step; [|exact Hinv|exact E]. congruence.
Qed.

End Invariant.

(** ** The count [n_data] and the allocator *)

Lemma counted_pre_write (m : kmem) (cb : netmap_confbuf) (req : Z)
    (avl : option Z) (m' : kmem) (cb' : netmap_confbuf) (p : region)
    (avl' : option Z) :
  counted m cb ->
  netmap_confbuf_pre_write m cb req avl = Ok (m', cb', p, avl') ->
  counted m' cb'.
Proof.
  intros [Hsz Hcap] H. apply pre_write_inv in H.
  destruct H as [(d & c & H) | (Hw & Hex)].
  - cbv zeta in H. destruct H as (_ & _ & _ & _ & -> & -> & _).
    split; assumption.
  - apply pre_write_expand_inv in Hex.
    2:{ intros d Hd. destruct (Hw d Hd) as (c & Hc & _). eauto. }
    destruct Hex as [(_ & -> & Hb & _) | (nd & Hex)].
    + unfold counted. rewrite Hb. auto.
    + cbv zeta in Hex. destruct Hex as (Hlt & Hfresh & _ & _ & _ & -> & Hb).
      assert (Hn : u_int (n_data cb + 1) = n_data cb + 1).
      { apply u_int_small. unfold NM_CBDATAMAX in *. lia. }
      assert (Hsize : base.size (blocks m') = S (base.size (blocks m))).
      { destruct (writep cb) as [d|].
        - destruct Hb as (c & Hc & ->).
          rewrite map_size_insert_Some.
          + apply map_size_insert_None. exact Hfresh.
          + rewrite lookup_insert_ne by congruence. eauto.
        - rewrite Hb. apply map_size_insert_None. exact Hfresh. }
      unfold counted. destruct (readp cb); cbn [n_data set_n_data];
        rewrite Hn, Hsize; lia.
Qed.

Lemma counted_post_write (m : kmem) (cb : netmap_confbuf) (size : Z)
    (cb' : netmap_confbuf) :
  counted m cb -> netmap_confbuf_post_write m cb size = Ok cb' -> counted m cb'.
Proof.
  intros Hc H. unfold netmap_confbuf_post_write in H.
  destruct (deref m (writep cb)) as [c| |]; cbn in H; try discriminate H.
  injection H as <-. destruct (next_w cb =? d_size c); exact Hc.
Qed.

Lemma counted_post_read (m : kmem) (cb : netmap_confbuf) (size : Z)
    (m' : kmem) (cb' : netmap_confbuf) :
  counted m cb -> netmap_confbuf_post_read m cb size = Ok (m', cb') ->
  counted m' cb'.
Proof.
  intros [Hsz Hcap] H.
  destruct (deref m (readp cb)) as [c| |] eqn:Hd;
    [|unfold netmap_confbuf_post_read in H; rewrite Hd in H; discriminate H..].
  apply deref_Ok in Hd. destruct Hd as (a & Hr & Hc).
  rewrite (post_read_eq _ _ _ _ _ Hr Hc) in H.
  destruct (next_r cb =? d_size c); injection H as <- <-; [|split; assumption].
  pose proof (size_live _ _ _ Hc) as Hs.
  assert (Hn : u_int (n_data cb - 1) = n_data cb - 1).
  { apply u_int_small. unfold NM_CBDATAMAX in *. lia. }
  unfold counted. cbn. rewrite Hn. lia.
Qed.

Lemma counted_uiomove (m : kmem) (cb : netmap_confbuf) (q : addr * Z) (n : Z)
    (u : uio) (ret : Z) (m' : kmem) (u' : uio) :
  counted m cb -> uiomove m q n u = Ok (ret, m', u') -> counted m' cb.
Proof.
  intros Hc H. apply uiomove_inv in H.
  destruct H as [-> | (c & x & Hc' & _ & ->)]; [exact Hc|].
  unfold counted. cbn. rewrite map_size_insert_Some by eauto.
  exact Hc.
Qed.

(** X4.  A buffer that starts empty on an allocator that holds nothing
    else, and is put through any operations except
    [netmap_confbuf_destroy] (whole write and read calls with any
    transport included): whenever the run returns, the allocator holds
    exactly [n_data] chunks, so never more than [NM_CBDATAMAX]. *)
Theorem live_chunks_counted (ops : list cb_op) (m0 m : kmem)
    (cb : netmap_confbuf) :
  blocks m0 = ∅ -> OpDestroy ∉ ops ->
  run ops (m0, cb_zero) = Ok (m, cb) ->
  Z.of_nat (base.size (blocks m)) = n_data cb /\ n_data cb <= NM_CBDATAMAX.
Proof.
  intros H0 Hops Hrun.
  apply (inv_run counted counted_pre_write counted_post_write counted_post_read
           counted_uiomove ops (m0, cb_zero) (m, cb) Hops); [|exact Hrun].
  split; cbn; [rewrite H0; reflexivity | unfold NM_CBDATAMAX; lia].
Qed.

Lemma live_chunks_counted_witness :
  Z.of_nat (base.size (blocks m_first)) = n_data cb_first /\
  n_data cb_first <= NM_CBDATAMAX.
Proof.
  apply (live_chunks_counted [OpPreWrite 1024 (Some 1024)] mem0 m_first cb_first).
  - reflexivity.
  - intros H. apply list_elem_of_singleton in H. discriminate H.
  - vm_compute. reflexivity.
Defined.

(** ** Discarding a chain that ends *)

(** A chain that visits no chunk twice is no longer than the number of
    live chunks. *)
Lemma chain_length_le_size (B : gmap positive nm_confbuf_data)
    (p : option addr) (l : list addr) :
  is_chain B p l -> NoDup l -> (length l <= base.size B)%nat.
Proof.
  revert B p. induction l as [|a l IH]; intros B p Hl Hnd; [cbn; lia|].
  destruct Hl as (-> & c & Hc & Hl).
  apply NoDup_cons in Hnd. destruct Hnd as [Ha Hnd].
  rewrite (size_live _ _ _ Hc). cbn [length].
  specialize (IH (delete a B) (d_chain c) (is_chain_delete _ _ _ _ Ha Hl) Hnd).
  lia.
Qed.

Lemma destroy_loop_chain (l : list addr) (fuel : nat) (m : kmem)
    (d : option addr) :
  is_chain (blocks m) d l -> NoDup l -> (length l < fuel)%nat ->
  exists m', destroy_loop fuel m d = Ok m' /\
    m_fail m' = m_fail m /\ m_junk m' = m_junk m /\
    base.size (blocks m) = (length l + base.size (blocks m'))%nat.
Proof.
  revert fuel m d. induction l as [|a l IH]; intros fuel m d Hl Hnd Hf;
    (destruct fuel as [|fuel]; [cbn in Hf; lia|]).
  - cbn in Hl. subst d. exists m. cbn. auto.
  - destruct Hl as (-> & c & Hc & Hl).
    apply NoDup_cons in Hnd. destruct Hnd as [Ha Hnd].
    cbn [destroy_loop]. rewrite (proj2 (deref_Some _ _ _) Hc). cbn [mbind result_bind].
    destruct (IH fuel (free m a) (d_chain c)) as (m' & Hrun & Hfl & Hj & Hs).
    + cbn. apply is_chain_delete; assumption.
    + exact Hnd.
    + cbn [length] in Hf. lia.
    + exists m'. split; [exact Hrun|]. split; [exact Hfl|]. split; [exact Hj|].
      rewrite (size_live _ _ _ Hc). cbn [length]. cbn in Hs. lia.
Qed.

(** X6.  On a buffer whose chain behind the read pointer ends and visits
    no chunk twice, [netmap_confbuf_destroy] returns: it frees exactly the
    chunks of that chain, leaves every other chunk of the allocator as it
    was, zeroes the buffer, and a second call changes nothing. *)
Theorem destroy_frees_chain (m : kmem) (cb : netmap_confbuf) (l : list addr) :
  is_chain (blocks m) (readp cb) l -> NoDup l ->
  exists m',
    netmap_confbuf_destroy m cb = Ok (m', cb_zero) /\
    (forall a, a ∈ l -> blocks m' !! a = None) /\
    (forall a, a ∉ l -> blocks m' !! a = blocks m !! a) /\
    base.size (blocks m) = (length l + base.size (blocks m'))%nat /\
    netmap_confbuf_destroy m' cb_zero = Ok (m', cb_zero).
Proof.
  intros Hl Hnd.
  destruct (destroy_loop_chain l (S (base.size (blocks m))) m (readp cb) Hl Hnd)
    as (m' & Hrun & _ & _ & Hs).
  { pose proof (chain_length_le_size _ _ _ Hl Hnd). lia. }
  exists m'. unfold netmap_confbuf_destroy. rewrite Hrun. cbn [mbind result_bind].
  split; [reflexivity|].
  destruct (destroy_loop_inv _ _ _ _ Hrun) as (l' & Hl' & _ & Hin & Hout).
  rewrite (is_chain_functional _ _ _ _ Hl Hl').
  split; [exact Hin|]. split; [exact Hout|].
  rewrite <- (is_chain_functional _ _ _ _ Hl Hl'). split; [exact Hs|].
  reflexivity.
Qed.

Lemma destroy_frees_chain_witness :
  exists m',
    netmap_confbuf_destroy m_first cb_first = Ok (m', cb_zero) /\
    (forall a, a ∈ [1%positive] -> blocks m' !! a = None) /\
    (forall a, a ∉ [1%positive] -> blocks m' !! a = blocks m_first !! a) /\
    base.size (blocks m_first) = (length [1%positive] + base.size (blocks m'))%nat /\
    netmap_confbuf_destroy m' cb_zero = Ok (m', cb_zero).
Proof.
  apply (destroy_frees_chain m_first cb_first [1%positive]).
  - split; [reflexivity|]. eexists. split; reflexivity.
  - apply NoDup_singleton.
Defined.

(** ** Whole calls against the queue *)

(** On a queue state the room left is a function of the write offset and
    of the count of chunks alone. *)
Lemma fifo_room (m : kmem) (cb : netmap_confbuf) (q : list Z) :
  fifo m cb q ->
  room m cb = match writep cb with
              | Some _ => NM_CBDATASIZ - next_w cb
              | None => 0
              end + (NM_CBDATAMAX - n_data cb) * NM_CBDATASIZ.
Proof.
  intros Hf. unfold room, tail_free. unfold fifo in Hf.
  destruct (writep cb) as [a|]; [|reflexivity].
  destruct Hf as (pre & c & Hrep & _ & _ & _ & _ & [Hsz _] & _).
  destruct (rep_last_live _ _ _ _ _ Hrep) as [Hc _].
  rewrite Hc, Hsz. reflexivity.
Qed.

Lemma fifo_length (m : kmem) (cb : netmap_confbuf) (q : list Z) :
  fifo m cb q -> Z.of_nat (length q) <= NM_CBDATAMAX * NM_CBDATASIZ.
Proof.
  unfold fifo. destruct (writep cb) as [a|].
  - intros (pre & c & _ & _ & Hn & Hcap & Hpre & [_ Hdl] & Hw & _ & _ & ->).
    rewrite length_drop, length_app, length_take, Hdl,
      (length_concat_ok _ Hpre), length_fmap.
    unfold NM_CBDATAMAX, NM_CBDATASIZ in *. nia.
  - intros (_ & _ & _ & _ & ->). cbn. unfold NM_CBDATAMAX, NM_CBDATASIZ. lia.
Qed.

(** The read loop leaves the write cursor where it is and never raises
    the count of chunks, whatever the transport does. *)
Lemma read_loop_write_side (fuel : nat) (m : kmem) (o : netmap_confbuf)
    (u : uio) (ret : Z) (m' : kmem) (o' : netmap_confbuf) (u' : uio) :
  counted m o -> read_loop fuel m o u = Ok (ret, m', o', u') ->
  counted m' o' /\ writep o' = writep o /\ next_w o' = next_w o /\
  n_data o' <= n_data o.
Proof.
  intros Hc Hrun.
  apply (inv_read_loop
           (fun m1 o1 => counted m1 o1 /\ writep o1 = writep o /\
                         next_w o1 = next_w o /\ n_data o1 <= n_data o))
    with (4 := Hrun).
  - intros m1 cb1 size m2 cb2 (Hc1 & Hw1 & Hnw1 & Hn1) Hpost.
    split; [eapply counted_post_read; eassumption|].
    destruct (deref m1 (readp cb1)) as [c| |] eqn:Hd;
      [|unfold netmap_confbuf_post_read in Hpost; rewrite Hd in Hpost;
        discriminate Hpost..].
    apply deref_Ok in Hd. destruct Hd as (a & Hr & Hca).
    rewrite (post_read_eq _ _ _ _ _ Hr Hca) in Hpost.
    destruct (next_r cb1 =? d_size c); injection Hpost as <- <-;
      cbn [writep next_w n_data]; [|auto].
    split; [exact Hw1|]. split; [exact Hnw1|].
    destruct Hc1 as [Hs Hcap]. pose proof (size_live _ _ _ Hca) as Hsl.
    rewrite u_int_small by (unfold NM_CBDATAMAX in *; lia). lia.
  - intros m1 cb1 q n u1 r m2 u2 (Hc1 & Hrest) Hu.
    split; [eapply counted_uiomove; eassumption | exact Hrest].
  - split; [exact Hc|]. split; [reflexivity|]. split; [reflexivity|lia].
Qed.

(** Discarding a queue state that has the allocator to itself leaves no
    chunk behind. *)
Lemma fifo_destroy (m : kmem) (cb : netmap_confbuf) (q : list Z) :
  fifo m cb q -> counted m cb ->
  exists m', netmap_confbuf_destroy m cb = Ok (m', cb_zero) /\
             blocks m' = ∅ /\ m_fail m' = m_fail m.
Proof.
  intros Hf Hc.
  assert (Hchain : exists l, is_chain (blocks m) (readp cb) l /\ NoDup l /\
                             Z.of_nat (length l) = n_data cb).
  { unfold fifo in Hf. destruct (writep cb) as [a|].
    - destruct Hf as (pre & c & Hrep & Hnd & Hn & _).
      exists ((pre ++ [(a, c)]).*1). split; [apply rep_is_chain, Hrep|].
      split; [exact Hnd|]. rewrite length_fmap, length_app. cbn [length]. lia.
    - destruct Hf as (Hr & _ & _ & Hn & _). exists []. rewrite Hr, Hn.
      split; [reflexivity|]. split; [constructor | reflexivity]. }
  destruct Hchain as (l & Hl & Hnd & Hlen).
  destruct (destroy_loop_chain l (S (base.size (blocks m))) m (readp cb) Hl Hnd)
    as (m' & Hrun & Hfl & _ & Hs).
  { pose proof (chain_length_le_size _ _ _ Hl Hnd). lia. }
  exists m'. unfold netmap_confbuf_destroy. rewrite Hrun.
  split; [reflexivity|]. split; [|exact Hfl].
  apply map_size_empty_inv. destruct Hc. lia.
Qed.

(** One accepted call keeps the queue reading of the state. *)
Lemma io_exec_ok (op : io_op) (ops : list io_op) (m : kmem)
    (cb : netmap_confbuf) (q : list Z) (used : Z) (res : list Z * list Z) :
  fifo m cb q -> m_fail m = [] -> counted m cb ->
  NM_CBDATAMAX * NM_CBDATASIZ - used <= room m cb ->
  queue_run (op :: ops) used q = Some res ->
  exists out m' cb' q' used' res',
    io_exec op (m, cb) = Ok (0, out, (m', cb')) /\
    fifo m' cb' q' /\ m_fail m' = [] /\ counted m' cb' /\
    NM_CBDATAMAX * NM_CBDATASIZ - used' <= room m' cb' /\
    queue_run ops used' q' = Some res' /\
    res = (out ++ res'.1, res'.2).
Proof.
  intros Hf Hfail Hc Hroom Hq. destruct op as [bs|n|]; cbn [queue_run] in Hq.
  - destruct (used + Z.of_nat (length bs) <=? NM_CBDATAMAX * NM_CBDATASIZ) eqn:Hg;
      [|discriminate Hq].
    apply Z.leb_le in Hg.
    destruct (write_loop_fifo (S (length bs)) m cb q bs Hf Hfail)
      as (m' & cb' & Hrun & Hf' & Hfail' & Hroom'); [lia | lia |].
    exists [], m', cb', (q ++ bs), (used + Z.of_nat (length bs)), res.
    cbn [io_exec fst snd]. rewrite Hrun. cbn [mbind result_bind].
    split; [reflexivity|]. split; [exact Hf'|]. split; [exact Hfail'|].
    split.
    { eapply (inv_write_loop counted counted_pre_write counted_post_write
                counted_uiomove); eassumption. }
    split; [lia|]. split; [exact Hq|]. destruct res. reflexivity.
  - destruct ((0 <=? n) && (n <=? Z.of_nat (length q))) eqn:Hg; [|discriminate Hq].
    apply andb_true_iff in Hg. destruct Hg as [Hn0 Hn1].
    apply Z.leb_le in Hn0, Hn1.
    pose proof (fifo_length _ _ _ Hf) as Hlen.
    destruct (read_loop_fifo (S (Z.to_nat n)) m cb q [] n Hf)
      as (m' & cb' & Hrun & Hf' & Hfail');
      [lia | unfold NM_CBDATAMAX, NM_CBDATASIZ, INT_MAX in *; lia | lia |].
    destruct (read_loop_write_side _ _ _ _ _ _ _ _ Hc Hrun)
      as (Hc' & Hw' & Hnw' & Hn').
    destruct (queue_run ops used (drop (Z.to_nat n) q)) as [[out' q']|] eqn:Hq';
      [|discriminate Hq].
    cbn in Hq. injection Hq as <-.
    exists (take (Z.to_nat n) q), m', cb', (drop (Z.to_nat n) q), used, (out', q').
    cbn [io_exec fst snd]. unfold uio_read. rewrite Hrun.
    cbn [mbind result_bind uio_user app].
    split; [reflexivity|]. split; [exact Hf'|]. split; [congruence|].
    split; [exact Hc'|]. split; [|split; [exact Hq'|reflexivity]].
    rewrite (fifo_room _ _ _ Hf) in Hroom. rewrite (fifo_room _ _ _ Hf'), Hw', Hnw'.
    unfold NM_CBDATASIZ in *. lia.
  - destruct (fifo_destroy _ _ _ Hf Hc) as (m' & Hrun & H0 & Hfl).
    exists [], m', cb_zero, [], 0, res.
    cbn [io_exec fst snd]. rewrite Hrun. cbn [mbind result_bind].
    split; [reflexivity|]. split; [cbn; auto|]. split; [congruence|].
    split; [split; cbn; [rewrite H0; reflexivity | unfold NM_CBDATAMAX; lia]|].
    split; [unfold room, tail_free, NM_CBDATAMAX, NM_CBDATASIZ; cbn; lia|].
    split; [exact Hq|]. destruct res. reflexivity.
Qed.

(** A sequence of accepted calls returns 0 throughout and delivers what
    the queue delivers. *)
Lemma io_run_ok (ops : list io_op) (m : kmem) (cb : netmap_confbuf)
    (q : list Z) (used : Z) (out q' : list Z) :
  fifo m cb q -> m_fail m = [] -> counted m cb ->
  NM_CBDATAMAX * NM_CBDATASIZ - used <= room m cb ->
  queue_run ops used q = Some (out, q') ->
  exists m' cb',
    io_run ops (m, cb) = Ok (0, out, (m', cb')) /\
    fifo m' cb' q' /\ m_fail m' = [] /\ counted m' cb'.
Proof.
  revert m cb q used out q'.
  induction ops as [|op ops IH]; intros m cb q used out q' Hf Hfail Hc Hroom Hq.
  - cbn in Hq. injection Hq as <- <-. exists m, cb. cbn. auto.
  - destruct (io_exec_ok op ops m cb q used (out, q') Hf Hfail Hc Hroom Hq)
      as (o1 & m1 & cb1 & q1 & used1 & [out1 q1'] & Hex & Hf1 & Hfail1 & Hc1 &
          Hroom1 & Hq1 & Hres).
    cbn [fst snd] in Hres. injection Hres as -> ->.
    destruct (IH m1 cb1 q1 used1 out1 q1' Hf1 Hfail1 Hc1 Hroom1 Hq1)
      as (m' & cb' & Hrun & Hf' & Hfail' & Hc').
    exists m', cb'. cbn [io_run]. rewrite Hex. cbn [mbind result_bind Z.eqb].
    rewrite Hrun. cbn [mbind result_bind]. auto.
Qed.

(** X1.  Any sequence of write calls, read calls and destroys on a buffer
    that starts empty, in which the bytes written since the last destroy
    stay within [NM_CBDATAMAX * NM_CBDATASIZ] and no read asks for more
    than is queued: every call returns 0 and the reads deliver, in order,
    exactly what a queue of bytes delivers. *)
Theorem calls_refine_queue (j : positive -> Z -> Z) (ops : list io_op)
    (out q : list Z) :
  queue_run ops 0 [] = Some (out, q) ->
  exists st,
    io_run ops (mem_init j, cb_zero) = Ok (0, out, st) /\ fifo st.1 st.2 q.
Proof.
  intros Hq.
  destruct (io_run_ok ops (mem_init j) cb_zero [] 0 out q) as (m & cb & Hrun & Hf & _).
  - apply fifo_empty.
  - reflexivity.
  - split; [reflexivity | cbn; unfold NM_CBDATAMAX; lia].
  - unfold room, tail_free, NM_CBDATAMAX, NM_CBDATASIZ. cbn. lia.
  - exact Hq.
  - exists (m, cb). split; [exact Hrun | exact Hf].
Qed.

Lemma calls_refine_queue_witness :
  exists st,
    io_run [IoWrite [1; 2; 3]; IoRead 2; IoWrite [4]; IoRead 2; IoDestroy;
            IoWrite [5]; IoRead 1] (mem0, cb_zero)
    = Ok (0, [1; 2; 3; 4; 5], st) /\ fifo st.1 st.2 [].
Proof.
  apply (calls_refine_queue (fun _ _ => 165)
           [IoWrite [1; 2; 3]; IoRead 2; IoWrite [4]; IoRead 2; IoDestroy;
            IoWrite [5]; IoRead 1] [1; 2; 3; 4; 5] []).
  vm_compute. reflexivity.
Defined.

(** X5.  After any such sequence of calls on a buffer that has the
    allocator to itself, [netmap_confbuf_destroy] returns every chunk:
    no chunk is left allocated. *)
Theorem calls_then_destroy_free_all (j : positive -> Z -> Z)
    (ops : list io_op) (out q : list Z) :
  queue_run ops 0 [] = Some (out, q) ->
  exists m cb m',
    io_run ops (mem_init j, cb_zero) = Ok (0, out, (m, cb)) /\
    netmap_confbuf_destroy m cb = Ok (m', cb_zero) /\
    blocks m' = ∅.
Proof.
  intros Hq.
  destruct (io_run_ok ops (mem_init j) cb_zero [] 0 out q)
    as (m & cb & Hrun & Hf & _ & Hc).
  - apply fifo_empty.
  - reflexivity.
  - split; [reflexivity | cbn; unfold NM_CBDATAMAX; lia].
  - unfold room, tail_free, NM_CBDATAMAX, NM_CBDATASIZ. cbn. lia.
  - exact Hq.
  - destruct (fifo_destroy _ _ _ Hf Hc) as (m' & Hd & H0 & _).
    exists m, cb, m'. auto.
Qed.

Lemma calls_then_destroy_free_all_witness :
  exists m cb m',
    io_run [IoWrite [1; 2; 3]; IoRead 2; IoWrite [4]] (mem0, cb_zero)
    = Ok (0, [1; 2], (m, cb)) /\
    netmap_confbuf_destroy m cb = Ok (m', cb_zero) /\
    blocks m' = ∅.
Proof.
  apply (calls_then_destroy_free_all (fun _ _ => 165)
           [IoWrite [1; 2; 3]; IoRead 2; IoWrite [4]] [1; 2] [3; 4]).
  vm_compute. reflexivity.
Defined.

(** ** The stream over a written buffer *)

Lemma jp_drain_fifo (n : nat) (m : kmem) (cb : netmap_confbuf) (q : list Z) :
  fifo m cb q -> (n <= length q)%nat ->
  exists m' cb',
    jp_drain n m (mk_jp cb) = Ok (char_to_int <$> take n q, m', mk_jp cb') /\
    fifo m' cb' (drop n q).
Proof.
  revert m cb q. induction n as [|n IH]; intros m cb q Hf Hn.
  - exists m, cb. cbn. rewrite drop_0. auto.
  - destruct q as [|b q]; [cbn in Hn; lia|].
    cbn [jp_drain]. rewrite (peek_fifo _ _ _ _ Hf). cbn [mbind result_bind].
    destruct (consume_fifo _ _ _ _ Hf) as (m1 & cb1 & Hc & Hf1).
    rewrite Hc. cbn [mbind result_bind].
    destruct (IH m1 cb1 q Hf1) as (m' & cb' & Hrun & Hf'); [cbn in Hn; lia|].
    rewrite Hrun. cbn [mbind result_bind]. exists m', cb'. auto.
Qed.

(** X2.  After write calls on an empty buffer that carry at most
    [NM_CBDATAMAX * NM_CBDATASIZ] bytes in all, [n] rounds of peek and
    consume, [n] no more than the bytes written, see the first [n] bytes
    written, in write order, each as a signed character. *)
Theorem stream_sees_written (j : positive -> Z -> Z) (ws : list (list Z))
    (n : nat) :
  Z.of_nat (length (concat ws)) <= NM_CBDATAMAX * NM_CBDATASIZ ->
  (n <= length (concat ws))%nat ->
  exists m' jp',
    jp_drain n (write_all (mem_init j, cb_zero) ws).1
               (mk_jp (write_all (mem_init j, cb_zero) ws).2)
    = Ok (char_to_int <$> take n (concat ws), m', jp').
Proof.
  intros Htot Hn.
  pose proof (write_all_fifo ws (mem_init j) cb_zero [] (fifo_empty j) eq_refl Htot)
    as Hf.
  cbn [app] in Hf.
  destruct (jp_drain_fifo n _ _ _ Hf Hn) as (m' & cb' & Hrun & _).
  exists m', (mk_jp cb'). exact Hrun.
Qed.

Lemma stream_sees_written_witness :
  exists m' jp',
    jp_drain 3 (write_all (mem0, cb_zero) [[65; 200]; [0; 66]]).1
               (mk_jp (write_all (mem0, cb_zero) [[65; 200]; [0; 66]]).2)
    = Ok (char_to_int <$> take 3 (concat [[65; 200]; [0; 66]]), m', jp').
Proof.
  apply (stream_sees_written (fun _ _ => 165) [[65; 200]; [0; 66]] 3).
  - vm_compute. discriminate.
  - vm_compute. lia.
Defined.

(** ** A write call larger than the room left *)

(** With no room left the write loop returns [ENOMEM] at once and changes
    nothing. *)
Lemma write_loop_full (m : kmem) (i : netmap_confbuf) (q ws : list Z) :
  fifo m i q -> room m i = 0 -> 0 < Z.of_nat (length ws) <= INT_MAX ->
  forall fuel, write_loop (S fuel) m i (uio_write ws None)
               = Ok (ENOMEM, m, i, uio_write ws None).
Proof.
  intros Hf Hroom Hlen.
  pose proof (fifo_room _ _ _ Hf) as Hr. rewrite Hroom in Hr.
  unfold fifo in Hf. destruct (writep i) as [a|] eqn:Hwp.
  - destruct Hf as (pre & c & Hrep & _ & Hn & Hcap & _ & [Hsz _] & Hw & _).
    destruct (rep_last_live _ _ _ _ _ Hrep) as [Hc _].
    assert (Hfull : next_w i = d_size c /\ n_data i = NM_CBDATAMAX).
    { rewrite Hsz. unfold NM_CBDATAMAX, NM_CBDATASIZ in *. lia. }
    destruct Hfull as [Hfull Hmax].
    apply (write_turn_null m i ws m i (Some (Z.of_nat (length ws))) Hlen).
    rewrite pre_write_full by (rewrite Hwp; eauto).
    unfold pre_write_expand. rewrite Hmax. reflexivity.
  - destruct Hf as (_ & _ & _ & Hn & _). rewrite Hn in Hr.
    unfold NM_CBDATAMAX, NM_CBDATASIZ in Hr. lia.
Qed.

(** A write call for more bytes than there is room for stores the bytes
    that fit, in order, and returns [ENOMEM] with the rest still to be
    handed over. *)
Lemma write_loop_fifo_partial (fuel : nat) (m : kmem) (i : netmap_confbuf)
    (q ws : list Z) :
  fifo m i q -> m_fail m = [] ->
  room m i < Z.of_nat (length ws) <= INT_MAX ->
  (Z.to_nat (room m i) < fuel)%nat ->
  exists m' i',
    write_loop fuel m i (uio_write ws None)
    = Ok (ENOMEM, m', i', uio_write (drop (Z.to_nat (room m i)) ws) None) /\
    fifo m' i' (q ++ take (Z.to_nat (room m i)) ws) /\ m_fail m' = [] /\
    room m' i' = 0.
Proof.
  revert m i q ws.
  induction fuel as [|fuel IH]; intros m i q ws Hf Hfail Hlen Hfuel; [lia|].
  pose proof (tail_free_range _ _ (fifo_wf_tail _ _ _ Hf)) as [_ Hr0].
  destruct (decide (room m i = 0)) as [Hz|Hnz].
  - rewrite (write_loop_full m i q ws Hf Hz) by lia.
    rewrite Hz. cbn [Z.to_nat drop take]. rewrite app_nil_r.
    exists m, i. auto.
  - destruct (write_turn_fifo m i q ws Hf Hfail)
      as (m2 & i2 & k & Hk & Hkr & Heq & Hf2 & Hfail2 & Hroom2); [lia | lia |].
    rewrite Heq.
    destruct (IH m2 i2 (q ++ take (Z.to_nat k) ws) (drop (Z.to_nat k) ws)
                 Hf2 Hfail2)
      as (m' & i' & Hrun & Hf' & Hfail' & Hroom').
    + rewrite length_drop. lia.
    + lia.
    + exists m', i'.
      assert (Hsum : (Z.to_nat k + Z.to_nat (room m2 i2))%nat = Z.to_nat (room m i))
        by lia.
      rewrite drop_drop, Hsum in Hrun. split; [exact Hrun|].
      rewrite <- app_assoc, take_take_drop, Hsum in Hf'. auto.
Qed.

Lemma counted_written (m : kmem) (cb : netmap_confbuf) (w : list Z) :
  counted m cb -> counted (written m cb w).1 (written m cb w).2.
Proof.
  intros Hc. unfold written.
  destruct (write_loop (S (length w)) m cb (uio_write w None))
    as [[[[r m1] cb1] u1]| |] eqn:E; cbn [fst snd]; try exact Hc.
  eapply (inv_write_loop counted counted_pre_write counted_post_write
            counted_uiomove); eassumption.
Qed.

(** What a sequence of write calls that fit leaves: the queue of all their
    bytes, with the room lowered by their number. *)
Lemma write_all_ok (ws : list (list Z)) (m : kmem) (cb : netmap_confbuf)
    (q : list Z) :
  fifo m cb q -> m_fail m = [] -> counted m cb ->
  Z.of_nat (length (concat ws)) <= room m cb ->
  fifo (write_all (m, cb) ws).1 (write_all (m, cb) ws).2 (q ++ concat ws) /\
  m_fail (write_all (m, cb) ws).1 = [] /\
  counted (write_all (m, cb) ws).1 (write_all (m, cb) ws).2 /\
  room (write_all (m, cb) ws).1 (write_all (m, cb) ws).2
  = room m cb - Z.of_nat (length (concat ws)).
Proof.
  revert m cb q. induction ws as [|w ws IH]; intros m cb q Hf Hfail Hc Hroom.
  - cbn. rewrite app_nil_r. split; [exact Hf|]. split; [exact Hfail|].
    split; [exact Hc|lia].
  - cbn [write_all concat fst snd] in *. rewrite length_app in *.
    destruct (written_fifo m cb q w Hf Hfail ltac:(lia)) as (Hf' & Hfail' & Hroom').
    pose proof (counted_written m cb w Hc) as Hc'.
    destruct (written m cb w) as [m1 cb1] eqn:E. cbn [fst snd] in *.
    rewrite app_assoc.
    destruct (IH m1 cb1 (q ++ w) Hf' Hfail' Hc' ltac:(lia)) as (H1 & H2 & H3 & H4).
    split; [exact H1|]. split; [exact H2|]. split; [exact H3|]. lia.
Qed.

(** X3.  On a buffer that earlier write calls have filled with [concat ws],
    a write call of at most [INT_MAX] bytes that brings the total above
    [NM_CBDATAMAX * NM_CBDATASIZ] is a partial write: it returns [ENOMEM],
    the bytes that still fit are queued behind the earlier ones, the
    request is left holding the others, and a read of the whole capacity
    returns exactly the earlier bytes followed by those that fitted. *)
Theorem oversized_write_is_partial (j : positive -> Z -> Z)
    (ws : list (list Z)) (bs : list Z) :
  Z.of_nat (length (concat ws)) <= NM_CBDATAMAX * NM_CBDATASIZ ->
  NM_CBDATAMAX * NM_CBDATASIZ < Z.of_nat (length (concat ws) + length bs) ->
  Z.of_nat (length bs) <= INT_MAX ->
  let fit := (Z.to_nat (NM_CBDATAMAX * NM_CBDATASIZ) - length (concat ws))%nat in
  exists m' cb' m'' cb'',
    write_loop (S (length bs)) (write_all (mem_init j, cb_zero) ws).1
               (write_all (mem_init j, cb_zero) ws).2 (uio_write bs None)
    = Ok (ENOMEM, m', cb', uio_write (drop fit bs) None) /\
    read_loop (S (Z.to_nat (NM_CBDATAMAX * NM_CBDATASIZ))) m' cb'
              (uio_read (NM_CBDATAMAX * NM_CBDATASIZ) None)
    = Ok (0, m'', cb'',
          mk_uio UIO_READ 0 (concat ws ++ take fit bs) None).
Proof.
  intros Htot Hover Hmax fit.
  destruct (write_all_ok ws (mem_init j) cb_zero [] (fifo_empty j) eq_refl)
    as (Hf & Hfail & Hc & Hroom).
  { split; [reflexivity | cbn; unfold NM_CBDATAMAX; lia]. }
  { exact Htot. }
  cbn [app] in Hf.
  set (st := write_all (mem_init j, cb_zero) ws) in *.
  assert (Hr : room st.1 st.2 = Z.of_nat fit).
  { rewrite Hroom. unfold fit, room, tail_free, NM_CBDATAMAX, NM_CBDATASIZ in *.
    cbn. lia. }
  destruct (write_loop_fifo_partial (S (length bs)) st.1 st.2 (concat ws) bs Hf Hfail)
    as (m' & cb' & Hrun & Hf' & Hfail' & Hroom'); [lia | lia |].
  rewrite Hr, Nat2Z.id in Hrun, Hf'.
  assert (Hlen : length (concat ws ++ take fit bs)
                 = Z.to_nat (NM_CBDATAMAX * NM_CBDATASIZ)).
  { rewrite length_app, length_take. unfold fit in *. lia. }
  destruct (read_loop_fifo (S (Z.to_nat (NM_CBDATAMAX * NM_CBDATASIZ))) m' cb'
              (concat ws ++ take fit bs) [] (NM_CBDATAMAX * NM_CBDATASIZ) Hf')
    as (m'' & cb'' & Hread & _).
  { rewrite Hlen. unfold NM_CBDATAMAX, NM_CBDATASIZ. lia. }
  { unfold NM_CBDATAMAX, NM_CBDATASIZ, INT_MAX. lia. }
  { lia. }
  exists m', cb', m'', cb''. split; [exact Hrun|].
  unfold uio_read. rewrite Hread. cbn [app].
  rewrite <- Hlen, firstn_all. reflexivity.
Qed.

Lemma oversized_write_is_partial_witness :
  exists m' cb' m'' cb'',
    write_loop 3 (write_all (mem0, cb_zero) [repeat 65 4095]).1
               (write_all (mem0, cb_zero) [repeat 65 4095]).2
               (uio_write [66; 67] None)
    = Ok (ENOMEM, m', cb', uio_write [67] None) /\
    read_loop 4097 m' cb' (uio_read 4096 None)
    = Ok (0, m'', cb'', mk_uio UIO_READ 0 (repeat 65 4095 ++ [66]) None).
Proof.
  apply (oversized_write_is_partial (fun _ _ => 165) [repeat 65 4095] [66; 67]).
  - vm_compute. discriminate.
  - vm_compute. reflexivity.
  - vm_compute. discriminate.
Defined.

(** ** The channel: write calls, read calls and tearing down *)

Lemma destroy_zero (m : kmem) : netmap_confbuf_destroy m cb_zero = Ok (m, cb_zero).
Proof. reflexivity. Qed.

Lemma config_writes_ok (ws : list (list Z)) (m : kmem) (c : netmap_config)
    (q : list Z) :
  fifo m (buf0 c) q -> m_fail m = [] -> counted m (buf0 c) ->
  buf1 c = cb_zero ->
  Z.of_nat (length (concat ws)) <= room m (buf0 c) ->
  exists m' c',
    config_writes m c ws = Ok (0, m', c') /\
    fifo m' (buf0 c') (q ++ concat ws) /\ counted m' (buf0 c') /\
    buf1 c' = cb_zero.
Proof.
  revert m c q. induction ws as [|w ws IH]; intros m c q Hf Hfail Hc Ho Hroom.
  - exists m, c. cbn. rewrite app_nil_r. auto.
  - cbn [concat] in Hroom. rewrite length_app in Hroom.
    destruct (write_loop_fifo (S (length w)) m (buf0 c) q w Hf Hfail)
      as (m1 & i1 & Hrun & Hf1 & Hfail1 & Hroom1); [lia | lia |].
    assert (Hc1 : counted m1 i1).
    { eapply (inv_write_loop counted counted_pre_write counted_post_write
                counted_uiomove); eassumption. }
    destruct (IH m1 (mk_config i1 cb_zero) (q ++ w) Hf1 Hfail1 Hc1 eq_refl)
      as (m' & c' & Hrest & Hf' & Hc' & Ho'); [cbn [buf0]; lia|].
    exists m', c'. cbn [config_writes concat]. unfold netmap_config_write.
    rewrite Ho, destroy_zero. cbn [mbind result_bind]. rewrite Hrun.
    cbn [mbind result_bind Z.eqb]. rewrite app_assoc. auto.
Qed.

(** X7.  Write calls on a new channel that carry at most
    [NM_CBDATAMAX * NM_CBDATASIZ] bytes in all return 0 each and leave
    the bytes queued in the input buffer; [netmap_config_uninit] then
    returns every chunk to the allocator and leaves both buffers
    zeroed. *)
Theorem channel_writes_then_uninit (j : positive -> Z -> Z)
    (ws : list (list Z)) :
  Z.of_nat (length (concat ws)) <= NM_CBDATAMAX * NM_CBDATASIZ ->
  exists m c m',
    config_writes (mem_init j) config0 ws = Ok (0, m, c) /\
    fifo m (buf0 c) (concat ws) /\
    netmap_config_uninit m c = Ok (m', config0) /\
    blocks m' = ∅.
Proof.
  intros Htot.
  destruct (config_writes_ok ws (mem_init j) config0 [] (fifo_empty j) eq_refl)
    as (m & c & Hrun & Hf & Hc & Ho).
  - split; [reflexivity | cbn; unfold NM_CBDATAMAX; lia].
  - reflexivity.
  - unfold room, tail_free, NM_CBDATAMAX, NM_CBDATASIZ in *. cbn. lia.
  - destruct (fifo_destroy _ _ _ Hf Hc) as (m' & Hd & H0 & _).
    exists m, c, m'. split; [exact Hrun|]. split; [exact Hf|].
    split; [|exact H0].
    unfold netmap_config_uninit, netmap_config_parse. rewrite Hd.
    cbn [mbind result_bind]. rewrite Ho, destroy_zero. reflexivity.
Qed.

Lemma channel_writes_then_uninit_witness :
  exists m c m',
    config_writes mem0 config0 [[65; 66]; [67]] = Ok (0, m, c) /\
    fifo m (buf0 c) (concat [[65; 66]; [67]]) /\
    netmap_config_uninit m c = Ok (m', config0) /\
    blocks m' = ∅.
Proof.
  apply (channel_writes_then_uninit (fun _ _ => 165) [[65; 66]; [67]]).
  vm_compute. discriminate.
Defined.

(** X8.  [netmap_config_parse] being empty, nothing moves from the input
    buffer to the output buffer: after any call of [netmap_config_write]
    that returns, whatever it returns, every call of [netmap_config_read]
    returns 0, delivers no byte and changes nothing. *)
Theorem read_after_write_delivers_nothing (fuel : nat) (m : kmem)
    (c : netmap_config) (u : uio) (ret : Z) (m' : kmem) (c' : netmap_config)
    (u' : uio) :
  netmap_config_write fuel m c u = Ok (ret, m', c', u') ->
  forall (fuel' : nat) (ur : uio),
    netmap_config_read (S fuel') m' c' ur = Ok (0, m', c', ur).
Proof.
  intros H fuel' ur. unfold netmap_config_write in H.
  destruct (netmap_confbuf_destroy m (buf1 c)) as [[m1 o]| |] eqn:Hd;
    cbn in H; try discriminate H.
  apply destroy_cb_zero in Hd. subst o.
  destruct (write_loop fuel m1 (buf0 c) u) as [[[[r m2] i2] u2]| |];
    cbn in H; try discriminate H.
  injection H as _ <- <- _.
  unfold netmap_config_read, netmap_config_parse. cbn [buf0 buf1 read_loop].
  destruct (0 <? uio_resid ur); [|reflexivity].
  rewrite pre_read_zero. reflexivity.
Qed.

Lemma read_after_write_delivers_nothing_witness :
  netmap_config_read 5 (after_write mem0 config0 (uio_write [66] None)).1
                     (after_write mem0 config0 (uio_write [66] None)).2
                     (uio_read 1 None)
  = Ok (0, (after_write mem0 config0 (uio_write [66] None)).1,
        (after_write mem0 config0 (uio_write [66] None)).2, uio_read 1 None).
Proof.
  apply (read_after_write_delivers_nothing 2 mem0 config0 (uio_write [66] None) 0
           _ _ (uio_write [] None)).
  vm_compute. reflexivity.
Defined.

(** ** What prepare_write and prepare_read hand out *)

(** X9.  When the write pointer is NULL or points to a live chunk,
    [netmap_confbuf_pre_write] returns a result; and when that result is
    NULL the call has changed neither the buffer nor any chunk nor the
    caller's [avl_size], and the reason is one of two: the cap on chunks is
    reached, or the allocator refused. *)
Theorem pre_write_fails_cleanly (m : kmem) (cb : netmap_confbuf) (req : Z)
    (avl : option Z) :
  (forall d, writep cb = Some d -> is_Some (blocks m !! d)) ->
  exists m' cb' p avl',
    netmap_confbuf_pre_write m cb req avl = Ok (m', cb', p, avl') /\
    (p = None ->
     cb' = cb /\ blocks m' = blocks m /\ avl' = avl /\
     (NM_CBDATAMAX <= n_data cb \/ exists rest, m_fail m = true :: rest)).
Proof.
  intros Hlive.
  assert (Hex : exists r, netmap_confbuf_pre_write m cb req avl = Ok r).
  { unfold netmap_confbuf_pre_write.
    destruct (writep cb) as [d|] eqn:Hw.
    - destruct (Hlive d eq_refl) as [c Hc].
      rewrite (proj2 (deref_Some _ _ _) Hc). cbn [mbind result_bind].
      destruct (_ && _); [eauto|].
      apply pre_write_expand_total. rewrite Hw. exact Hlive.
    - apply pre_write_expand_total. rewrite Hw. exact Hlive. }
  destruct Hex as ([[[m' cb'] p] avl'] & Hrun).
  exists m', cb', p, avl'. split; [exact Hrun|]. intros ->.
  apply pre_write_inv in Hrun.
  destruct Hrun as [(d & c & H) | (_ & H)].
  - cbv zeta in H. destruct H as (_ & _ & _ & _ & _ & _ & H & _). discriminate H.
  - apply (pre_write_expand_inv _ _ _ _ _ _ _ _ Hlive) in H.
    destruct H as [(_ & H) | (nd & H)]; [exact H|].
    cbv zeta in H. destruct H as (_ & _ & _ & H & _). discriminate H.
Qed.

Lemma pre_write_fails_cleanly_witness :
  exists m' cb' p avl',
    netmap_confbuf_pre_write (mk_kmem ∅ [true] (fun _ _ => 0)) cb_zero 8 (Some 8)
    = Ok (m', cb', p, avl') /\
    (p = None ->
     cb' = cb_zero /\ blocks m' = blocks (mk_kmem ∅ [true] (fun _ _ => 0)) /\
     avl' = Some 8 /\
     (NM_CBDATAMAX <= n_data cb_zero \/
      exists rest, m_fail (mk_kmem ∅ [true] (fun _ _ => 0)) = true :: rest)).
Proof.
  apply (pre_write_fails_cleanly (mk_kmem ∅ [true] (fun _ _ => 0)) cb_zero 8
           (Some 8)).
  intros d Hd. discriminate Hd.
Defined.

(** X10.  A region returned by [netmap_confbuf_pre_write] lies inside the
    logical size, and so inside the storage, of a live chunk: on a buffer
    whose write offset is within its tail, the [region_len] bytes from
    the returned offset fit in the returned chunk.  Without [avl_size] the
    region has the whole requested length; with it, a request of at least
    one byte gets at least one byte. *)
Theorem pre_write_region_fits (m : kmem) (cb : netmap_confbuf) (req : Z)
    (avl : option Z) (m' : kmem) (cb' : netmap_confbuf) (a : addr) (off : Z)
    (avl' : option Z) :
  0 <= req ->
  (forall d c, writep cb = Some d -> blocks m !! d = Some c ->
     0 <= next_w cb <= d_size c /\ d_size c <= Z.of_nat (length (d_data c)) /\
     d_size c < 4294967296) ->
  netmap_confbuf_pre_write m cb req avl = Ok (m', cb', Some (a, off), avl') ->
  exists c',
    blocks m' !! a = Some c' /\
    0 <= off /\ off + region_len req avl' <= d_size c' /\
    d_size c' <= Z.of_nat (length (d_data c')) /\
    (avl = None -> region_len req avl' = req) /\
    (0 < req -> 0 < region_len req avl').
Proof.
  intros Hreq Hwf Hrun. apply pre_write_inv in Hrun.
  destruct Hrun as [(d & c & H) | (Hw & H)].
  - cbv zeta in H. destruct H as (Hwp & Hc & Hs & Hor & -> & -> & Hp & ->).
    injection Hp as Ha Ho. subst a off.
    destruct (Hwf d c Hwp Hc) as (Hnw & Hlen & Hmax).
    rewrite u_int_small in * by lia.
    exists c. split; [exact Hc|]. split; [lia|].
    unfold region_len. destruct avl as [v|]; cbn [default from_option id].
    + destruct (req <? d_size c - next_w cb) eqn:E;
        [apply Z.ltb_lt in E | apply Z.ltb_ge in E]; cbv iota;
        (split; [lia|]); (split; [lia|]); (split; [discriminate|lia]).
    + destruct Hor as [Hle | [? Habs]]; [|discriminate Habs].
      split; [lia|]. split; [lia|]. split; [reflexivity|lia].
  - apply pre_write_expand_inv in H.
    2:{ intros d Hd. destruct (Hw d Hd) as (c & Hc & _). eauto. }
    destruct H as [(H & _) | (nd & H)]; [discriminate H|].
    cbv zeta in H. destruct H as (_ & Hfresh & _ & Hp & -> & _ & Hb).
    injection Hp as Ha Ho. subst a off.
    set (s := expand_size req avl) in *.
    assert (Hs : NM_CBDATASIZ <= s /\ (avl = None -> req <= s)).
    { unfold s, expand_size, NM_CBDATASIZ.
      destruct (1024 <? req) eqn:E; [apply Z.ltb_lt in E | apply Z.ltb_ge in E];
        destruct avl; cbn; split; try lia; try discriminate; intros _; lia. }
    exists (mk_data None s (junk_bytes m nd s)).
    split.
    { destruct (writep cb) as [d|].
      - destruct Hb as (c & Hc & ->).
        rewrite lookup_insert_ne by congruence. apply lookup_insert_eq.
      - rewrite Hb. apply lookup_insert_eq. }
    cbn [d_size d_data]. rewrite length_junk_bytes.
    unfold NM_CBDATASIZ in Hs. split; [lia|].
    unfold region_len. destruct avl as [v|]; cbn [default from_option id].
    + destruct (req <? s) eqn:E; [apply Z.ltb_lt in E | apply Z.ltb_ge in E];
        cbv iota;
        (split; [lia|]); (split; [lia|]); (split; [discriminate|lia]).
    + destruct Hs as [Hs1 Hs2]. specialize (Hs2 eq_refl).
      split; [lia|]. split; [lia|]. split; [reflexivity|lia].
Qed.

Lemma pre_write_region_fits_witness :
  exists c',
    blocks m_first !! 1%positive = Some c' /\
    0 <= 0 /\ 0 + region_len 1024 (Some 1024) <= d_size c' /\
    d_size c' <= Z.of_nat (length (d_data c')) /\
    (Some 1024 = None -> region_len 1024 (Some 1024) = 1024) /\
    (0 < 1024 -> 0 < region_len 1024 (Some 1024)).
Proof.
  apply (pre_write_region_fits mem0 cb_zero 1024 (Some 1024) m_first cb_first).
  - lia.
  - intros d c Hd. discriminate Hd.
  - vm_compute. reflexivity.
Defined.

Lemma pre_read_loop_chain (l : list addr) (fuel : nat) (m : kmem)
    (d : option addr) (n size : Z) :
  is_chain (blocks m) d l -> (length l < fuel)%nat ->
  (forall a c, a ∈ l -> blocks m !! a = Some c -> d_size c < 4294967296) ->
  0 <= n -> 0 <= size ->
  exists p k,
    pre_read_loop fuel m d n size = Ok (p, k) /\
    match p with
    | None => k = 0
    | Some (a, off) =>
        a ∈ l /\ exists c, blocks m !! a = Some c /\
          0 <= off < d_size c /\ 0 <= k <= size /\ off + k <= d_size c /\
          (0 < size -> 0 < k)
    end.
Proof.
  revert fuel d n. induction l as [|a l IH]; intros fuel d n Hl Hf Hsz Hn Hs;
    (destruct fuel as [|fuel]; [cbn in Hf; lia|]).
  - cbn in Hl. subst d. exists None, 0. cbn. auto.
  - destruct Hl as (-> & c & Hc & Hl).
    assert (Hmax : d_size c < 4294967296) by (apply (Hsz a c); [left | exact Hc]).
    destruct (Z.lt_ge_cases n (d_size c)) as [Hlt | Hge].
    + rewrite (pre_read_loop_here _ _ _ _ _ _ Hc Hlt).
      exists (Some (a, n)), (Z.min size (u_int (d_size c - n))).
      split; [reflexivity|]. split; [left|]. exists c.
      rewrite u_int_small by lia. split; [exact Hc|]. lia.
    + rewrite (pre_read_loop_skip _ _ _ _ _ _ Hc Hge).
      destruct (IH fuel (d_chain c) 0 Hl) as (p & k & Hrun & Hp);
        [cbn [length] in Hf; lia | | lia | exact Hs |].
      { intros b cb' Hb. apply Hsz. right. exact Hb. }
      exists p, k. split; [exact Hrun|].
      destruct p as [[b off]|]; [|exact Hp].
      destruct Hp as (Hb & Hp). split; [right; exact Hb | exact Hp].
Qed.

(** X11.  On a buffer whose chain behind the read pointer ends and visits
    no chunk twice, [netmap_confbuf_pre_read] returns.  A NULL result
    comes with [*size = 0]; any other result is an offset inside the
    logical size of a chunk of that chain, with a length that is at most
    what was asked, stays inside the chunk's logical size, and is at
    least 1 when at least one byte was asked for. *)
Theorem pre_read_region_fits (m : kmem) (cb : netmap_confbuf) (size : Z)
    (l : list addr) :
  is_chain (blocks m) (readp cb) l -> NoDup l ->
  (forall a c, a ∈ l -> blocks m !! a = Some c -> d_size c < 4294967296) ->
  0 <= next_r cb -> 0 <= size ->
  exists p k,
    netmap_confbuf_pre_read m cb size = Ok (p, k) /\
    match p with
    | None => k = 0
    | Some (a, off) =>
        a ∈ l /\ exists c, blocks m !! a = Some c /\
          0 <= off < d_size c /\ 0 <= k <= size /\ off + k <= d_size c /\
          (0 < size -> 0 < k)
    end.
Proof.
  intros Hl Hnd Hsz Hn Hs. unfold netmap_confbuf_pre_read.
  apply (pre_read_loop_chain l); try assumption.
  pose proof (chain_length_le_size _ _ _ Hl Hnd). lia.
Qed.

Lemma pre_read_region_fits_witness :
  exists p k,
    netmap_confbuf_pre_read m_first cb_first 8 = Ok (p, k) /\
    match p with
    | None => k = 0
    | Some (a, off) =>
        a ∈ [1%positive] /\ exists c, blocks m_first !! a = Some c /\
          0 <= off < d_size c /\ 0 <= k <= 8 /\ off + k <= d_size c /\
          (0 < 8 -> 0 < k)
    end.
Proof.
  apply (pre_read_region_fits m_first cb_first 8 [1%positive]).
  - split; [reflexivity|]. eexists. split; reflexivity.
  - apply NoDup_singleton.
  - intros a c Ha Hc. apply list_elem_of_singleton in Ha. subst a.
    vm_compute in Hc. injection Hc as <-. reflexivity.
  - vm_compute. discriminate.
  - lia.
Defined.

(** ** A write call on an allocator that may refuse *)

Lemma fifo_blocks (m m' : kmem) (cb : netmap_confbuf) (q : list Z) :
  blocks m' = blocks m -> fifo m cb q -> fifo m' cb q.
Proof. unfold fifo. intros ->. auto. Qed.

(** When the turn needs a chunk and the allocator refuses, the write loop
    returns [ENOMEM] and no chunk has changed. *)
Lemma write_loop_refused (m : kmem) (i : netmap_confbuf) (q ws : list Z)
    (rest : list bool) :
  fifo m i q -> tail_free m i = 0 -> m_fail m = true :: rest ->
  0 < Z.of_nat (length ws) <= INT_MAX ->
  exists m', blocks m' = blocks m /\
    forall fuel, write_loop (S fuel) m i (uio_write ws None)
                 = Ok (ENOMEM, m', i, uio_write ws None).
Proof.
  intros Hf Htf Hfail Hlen.
  assert (Hfull : netmap_confbuf_pre_write m i (Z.of_nat (length ws))
                    (Some (Z.of_nat (length ws)))
                  = pre_write_expand m i (Z.of_nat (length ws))
                      (Some (Z.of_nat (length ws)))).
  { apply pre_write_full. unfold fifo in Hf. unfold tail_free in Htf.
    destruct (writep i) as [a|]; [|exact I].
    destruct Hf as (pre & c & Hrep & _).
    destruct (rep_last_live _ _ _ _ _ Hrep) as [Hc _].
    rewrite Hc in Htf. exists c. split; [exact Hc|lia]. }
  unfold pre_write_expand, malloc in Hfull. rewrite Hfail in Hfull.
  destruct (NM_CBDATAMAX <=? n_data i).
  - exists m. split; [reflexivity|]. intros fuel.
    exact (write_turn_null m i ws m i _ Hlen Hfull fuel).
  - exists (mk_kmem (blocks m) rest (m_junk m)). split; [reflexivity|].
    intros fuel. exact (write_turn_null m i ws _ i _ Hlen Hfull fuel).
Qed.

Lemma write_loop_prefix (fuel : nat) (m : kmem) (i : netmap_confbuf)
    (q ws : list Z) :
  fifo m i q -> Z.of_nat (length ws) <= INT_MAX -> (length ws < fuel)%nat ->
  exists ret k m' i',
    (k <= length ws)%nat /\
    write_loop fuel m i (uio_write ws None)
    = Ok (ret, m', i', uio_write (drop k ws) None) /\
    fifo m' i' (q ++ take k ws) /\
    (ret = 0 /\ k = length ws \/ ret = ENOMEM /\ (k < length ws)%nat).
Proof.
  revert m i q ws.
  induction fuel as [|fuel IH]; intros m i q ws Hf Hmax Hfuel; [lia|].
  destruct ws as [|w ws].
  { exists 0, 0%nat, m, i. cbn. rewrite app_nil_r.
    split; [lia|]. split; [reflexivity|]. split; [exact Hf|]. left. auto. }
  pose proof (tail_free_range _ _ (fifo_wf_tail _ _ _ Hf)) as [[Htf0 _] Hr0].
  assert (Hstop : forall m', blocks m' = blocks m ->
            (forall fuel, write_loop (S fuel) m i (uio_write (w :: ws) None)
                          = Ok (ENOMEM, m', i, uio_write (w :: ws) None)) ->
            exists ret k m' i',
              (k <= length (w :: ws))%nat /\
              write_loop (S fuel) m i (uio_write (w :: ws) None)
              = Ok (ret, m', i', uio_write (drop k (w :: ws)) None) /\
              fifo m' i' (q ++ take k (w :: ws)) /\
              (ret = 0 /\ k = length (w :: ws) \/
               ret = ENOMEM /\ (k < length (w :: ws))%nat)).
  { intros m' Hb Hrun. exists ENOMEM, 0%nat, m', i.
    split; [lia|]. split; [apply Hrun|].
    split; [rewrite take_0, app_nil_r; exact (fifo_blocks _ _ _ _ Hb Hf)|].
    right. split; [reflexivity | cbn [length]; lia]. }
  assert (Hturn : (tail_free m i = 0 -> forall rest, m_fail m <> true :: rest) ->
                  0 < room m i ->
            exists ret k m' i',
              (k <= length (w :: ws))%nat /\
              write_loop (S fuel) m i (uio_write (w :: ws) None)
              = Ok (ret, m', i', uio_write (drop k (w :: ws)) None) /\
              fifo m' i' (q ++ take k (w :: ws)) /\
              (ret = 0 /\ k = length (w :: ws) \/
               ret = ENOMEM /\ (k < length (w :: ws))%nat)).
  { intros Hal Hroom.
    destruct (write_turn_fifo_gen m i q (w :: ws) Hf Hal)
      as (m2 & i2 & k & Hk & _ & Heq & Hf2 & _); [cbn [length] in *; lia | exact Hroom |].
    destruct (IH m2 i2 (q ++ take (Z.to_nat k) (w :: ws))
                 (drop (Z.to_nat k) (w :: ws)) Hf2)
      as (ret & k' & m' & i' & Hk' & Hrun & Hf' & Hret);
      [rewrite length_drop; lia | rewrite length_drop; lia |].
    rewrite length_drop in Hk', Hret.
    exists ret, (Z.to_nat k + k')%nat, m', i'.
    split; [lia|]. rewrite Heq, Hrun, drop_drop. split; [reflexivity|].
    rewrite <- app_assoc, take_take_drop in Hf'. split; [exact Hf'|].
    destruct Hret as [[-> Hke] | [-> Hke]]; [left | right]; split;
      try reflexivity; lia. }
  destruct (decide (tail_free m i = 0)) as [Hz | Hnz].
  - destruct (decide (room m i = 0)) as [Hrz | Hrnz].
    + apply (Hstop m eq_refl). intros fuel'.
      apply (write_loop_full m i q (w :: ws) Hf Hrz). cbn [length] in *. lia.
    + destruct (m_fail m) as [|[|] rest] eqn:Hfl.
      * apply Hturn; [intros _ rest; discriminate | lia].
      * destruct (write_loop_refused m i q (w :: ws) rest Hf Hz Hfl)
          as (m' & Hb & Hrun); [cbn [length] in *; lia|].
        exact (Hstop m' Hb Hrun).
      * apply Hturn; [intros _ rest'; discriminate | lia].
  - apply Hturn; [intros Habs; contradiction|]. unfold room.
    pose proof (fifo_wf_tail _ _ _ Hf) as [Hn _].
    unfold NM_CBDATAMAX, NM_CBDATASIZ in *. lia.
Qed.

(** X12.  Whatever the allocator does, a write call of at most [INT_MAX]
    bytes on a queue state returns 0 or [ENOMEM], never stores bytes out
    of order and never disturbs the bytes already queued: it appends a
    prefix of its bytes, all of them exactly when it returns 0, and
    leaves the request holding the others; a read of the queue's length
    then delivers the earlier bytes followed by that prefix. *)
Theorem write_appends_a_prefix (m : kmem) (cb : netmap_confbuf) (q bs : list Z) :
  fifo m cb q -> Z.of_nat (length bs) <= INT_MAX ->
  exists ret k m' cb' m'' cb'',
    (k <= length bs)%nat /\
    write_loop (S (length bs)) m cb (uio_write bs None)
    = Ok (ret, m', cb', uio_write (drop k bs) None) /\
    (ret = 0 /\ k = length bs \/ ret = ENOMEM /\ (k < length bs)%nat) /\
    read_loop (S (length q + k)) m' cb' (uio_read (Z.of_nat (length q + k)) None)
    = Ok (0, m'', cb'', mk_uio UIO_READ 0 (q ++ take k bs) None).
Proof.
  intros Hf Hmax.
  destruct (write_loop_prefix (S (length bs)) m cb q bs Hf Hmax)
    as (ret & k & m' & cb' & Hk & Hrun & Hf' & Hret); [lia|].
  pose proof (fifo_length _ _ _ Hf') as Hlen.
  assert (Hl : length (q ++ take k bs) = (length q + k)%nat).
  { rewrite length_app, length_take. lia. }
  destruct (read_loop_fifo (S (length q + k)) m' cb' (q ++ take k bs) []
              (Z.of_nat (length q + k)) Hf')
    as (m'' & cb'' & Hread & _).
  { rewrite Hl. lia. }
  { rewrite Hl in Hlen. unfold NM_CBDATAMAX, NM_CBDATASIZ, INT_MAX in *. lia. }
  { lia. }
  exists ret, k, m', cb', m'', cb''. split; [exact Hk|]. split; [exact Hrun|].
  split; [exact Hret|]. unfold uio_read. rewrite Hread. cbn [app].
  rewrite Nat2Z.id, <- Hl, firstn_all. reflexivity.
Qed.

(** The theorem at a write of 1025 bytes on an empty buffer whose
    allocator grants the first chunk and refuses the second: 1024 bytes
    are appended, the call returns [ENOMEM], and one byte is left. *)
Lemma write_appends_a_prefix_witness :
  (exists ret k m' cb' m'' cb'',
     (k <= length (repeat 65 1024 ++ [66]))%nat /\
     write_loop (S (length (repeat 65 1024 ++ [66])))
                (mk_kmem ∅ [false; true] (fun _ _ => 0)) cb_zero
                (uio_write (repeat 65 1024 ++ [66]) None)
     = Ok (ret, m', cb', uio_write (drop k (repeat 65 1024 ++ [66])) None) /\
     (ret = 0 /\ k = length (repeat 65 1024 ++ [66]) \/
      ret = ENOMEM /\ (k < length (repeat 65 1024 ++ [66]))%nat) /\
     read_loop (S (length (@nil Z) + k)) m' cb'
               (uio_read (Z.of_nat (length (@nil Z) + k)) None)
     = Ok (0, m'', cb'',
           mk_uio UIO_READ 0 ([] ++ take k (repeat 65 1024 ++ [66])) None)) /\
  (exists m' cb',
     write_loop (S (length (repeat 65 1024 ++ [66])))
                (mk_kmem ∅ [false; true] (fun _ _ => 0)) cb_zero
                (uio_write (repeat 65 1024 ++ [66]) None)
     = Ok (ENOMEM, m', cb', uio_write [66] None)).
Proof.
  split.
  - apply (write_appends_a_prefix (mk_kmem ∅ [false; true] (fun _ _ => 0)) cb_zero
             [] (repeat 65 1024 ++ [66])).
    + cbn. auto.
    + vm_compute. discriminate.
  - vm_compute. do 2 eexists. reflexivity.
Defined.

(** ** How far a read runs *)

(** The read side never looks at the write offset. *)
Lemma post_read_next_w (m : kmem) (cb : netmap_confbuf) (size v : Z) :
  netmap_confbuf_post_read m (set_next_w cb v) size
  = '(m', cb') ← netmap_confbuf_post_read m cb size; Ok (m', set_next_w cb' v).
Proof.
  unfold netmap_confbuf_post_read. destruct cb as [r w nr nw nd].
  unfold set_next_w, set_next_r, set_n_data, set_readp. cbn.
  destruct (deref m r) as [c| |]; cbn; try reflexivity.
  destruct (nr =? d_size c); [|reflexivity].
  destruct r; reflexivity.
Qed.

Lemma read_loop_next_w (fuel : nat) (m : kmem) (o : netmap_confbuf) (u : uio)
    (v : Z) :
  read_loop fuel m (set_next_w o v) u
  = '(ret, m', o', u') ← read_loop fuel m o u; Ok (ret, m', set_next_w o' v, u').
Proof.
  revert m o u. induction fuel as [|fuel IH]; intros m o u; [reflexivity|].
  cbn [read_loop]. destruct (0 <? uio_resid u); [|reflexivity].
  change (netmap_confbuf_pre_read m (set_next_w o v) (u_int (to_int (uio_resid u))))
    with (netmap_confbuf_pre_read m o (u_int (to_int (uio_resid u)))).
  destruct (netmap_confbuf_pre_read m o (u_int (to_int (uio_resid u))))
    as [[p sz]| |]; cbn [mbind result_bind]; try reflexivity.
  destruct p as [q|]; [|reflexivity].
  destruct (uiomove m q (to_int sz) u) as [[[r m2] u2]| |];
    cbn [mbind result_bind]; try reflexivity.
  destruct (negb (r =? 0)); [reflexivity|].
  rewrite post_read_next_w.
  destruct (netmap_confbuf_post_read m2 o (u_int (to_int sz))) as [[m3 o3]| |];
    cbn [mbind result_bind]; try reflexivity.
  apply IH.
Qed.

(** To the read side a queue state looks as if its tail had been written
    to the brim. *)
Lemma fifo_fill_tail (m : kmem) (cb : netmap_confbuf) (q : list Z) (a : addr)
    (c : nm_confbuf_data) :
  fifo m cb q -> writep cb = Some a -> blocks m !! a = Some c ->
  fifo m (set_next_w cb NM_CBDATASIZ)
       (q ++ drop (Z.to_nat (next_w cb)) (d_data c)).
Proof.
  unfold fifo. cbn [writep readp next_r next_w n_data set_next_w].
  intros Hf Hwp Hc. rewrite Hwp in *.
  destruct Hf as (pre & c' & Hrep & Hnd & Hn & Hcap & Hpre & [Hsz Hdl] & Hw & Hr &
                  Hrw & Hq).
  destruct (rep_last_live _ _ _ _ _ Hrep) as [Hc' _].
  rewrite Hc in Hc'. injection Hc' as <-.
  exists pre, c. nsplit 9%nat; try assumption.
  - split; assumption.
  - unfold NM_CBDATASIZ. lia.
  - intros _. lia.
  - pose proof (fifo_offset_le pre c (next_r cb) (next_w cb) Hpre (conj Hsz Hdl)
                  Hw Hr Hrw) as Hoff.
    rewrite Hq, <- drop_app_le by exact Hoff.
    rewrite <- app_assoc, take_drop.
    rewrite (take_ge (d_data c)) by lia. reflexivity.
Qed.

(** X13.  A read call is bounded by the chunks' sizes, not by the write
    offset: on a queue state holding [q], a read call that asks for up to
    [length q] bytes plus the unwritten rest of the tail chunk returns 0
    and delivers that many bytes of [q] followed by the tail chunk's
    storage beyond the write offset. *)
Theorem read_runs_into_tail_storage (m : kmem) (cb : netmap_confbuf)
    (q : list Z) (a : addr) (c : nm_confbuf_data) (n : Z) :
  fifo m cb q -> writep cb = Some a -> blocks m !! a = Some c ->
  0 <= n <= Z.of_nat (length q) + (NM_CBDATASIZ - next_w cb) ->
  exists m' cb',
    read_loop (S (Z.to_nat n)) m cb (uio_read n None)
    = Ok (0, m', cb',
          mk_uio UIO_READ 0
            (take (Z.to_nat n) (q ++ drop (Z.to_nat (next_w cb)) (d_data c)))
            None) /\
    next_w cb' = next_w cb.
Proof.
  intros Hf Hwp Hc Hn.
  pose proof (fifo_fill_tail _ _ _ _ _ Hf Hwp Hc) as Hf'.
  pose proof (fifo_length _ _ _ Hf') as Hlen.
  assert (Hdl : length (d_data c) = Z.to_nat NM_CBDATASIZ /\
                0 <= next_w cb <= NM_CBDATASIZ).
  { unfold fifo in Hf. rewrite Hwp in Hf.
    destruct Hf as (pre & c' & Hrep & _ & _ & _ & _ & [_ Hdl] & Hw & _).
    destruct (rep_last_live _ _ _ _ _ Hrep) as [Hc' _].
    rewrite Hc in Hc'. injection Hc' as <-. auto. }
  destruct Hdl as [Hdl Hw].
  rewrite length_app, length_drop, Hdl in Hlen.
  destruct (read_loop_fifo (S (Z.to_nat n)) m (set_next_w cb NM_CBDATASIZ)
              (q ++ drop (Z.to_nat (next_w cb)) (d_data c)) [] n Hf')
    as (m' & cb' & Hrun & _).
  { rewrite length_app, length_drop, Hdl. lia. }
  { unfold NM_CBDATAMAX, NM_CBDATASIZ, INT_MAX in *. lia. }
  { lia. }
  change (mk_uio UIO_READ n [] None) with (uio_read n None) in Hrun.
  pose proof (read_loop_next_w (S (Z.to_nat n)) m
                (set_next_w cb NM_CBDATASIZ) (uio_read n None) (next_w cb)) as Hnw.
  rewrite Hrun in Hnw. cbn [mbind result_bind app] in Hnw.
  replace (set_next_w (set_next_w cb NM_CBDATASIZ) (next_w cb)) with cb in Hnw
    by (destruct cb; reflexivity).
  exists m', (set_next_w cb' (next_w cb)). split; [exact Hnw | reflexivity].
Qed.

Lemma read_runs_into_tail_storage_witness :
  exists m' cb',
    read_loop 4 (written mem0 cb_zero [65; 66]).1
              (written mem0 cb_zero [65; 66]).2 (uio_read 3 None)
    = Ok (0, m', cb', mk_uio UIO_READ 0 [65; 66; 165] None) /\
    next_w cb' = 2.
Proof.
  pose proof (read_runs_into_tail_storage (written mem0 cb_zero [65; 66]).1
                (written mem0 cb_zero [65; 66]).2 [65; 66] 1%positive
                (mk_data None 1024
                   ([65; 66] ++ drop 2 (junk_bytes mem0 1%positive 1024))) 3) as H.
  vm_compute in H. vm_compute. apply H.
  - apply (written_fifo mem0 cb_zero [] [65; 66] (fifo_empty _) eq_refl).
    vm_compute. discriminate.
  - vm_compute. reflexivity.
  - vm_compute. reflexivity.
  - vm_compute. split; discriminate.
Defined.

(** ** When the read side reports the end of the data *)

(** Whether [netmap_confbuf_pre_read] finds a region, and where, does not
    depend on the size asked for. *)
Lemma pre_read_loop_some (fuel : nat) (m : kmem) (d : option addr) (n sz k : Z)
    (p : addr * Z) :
  pre_read_loop fuel m d n sz = Ok (Some p, k) ->
  forall sz', exists k', pre_read_loop fuel m d n sz' = Ok (Some p, k').
Proof.
  revert d n. induction fuel as [|fuel IH]; intros d n H sz'; [discriminate H|].
  cbn [pre_read_loop] in *. destruct d as [a|]; [|discriminate H].
  destruct (deref m (Some a)) as [c| |]; cbn [mbind result_bind] in *;
    try discriminate H.
  destruct (n <? d_size c).
  - injection H as <- _. eauto.
  - apply (IH _ _ H).
Qed.

(** X14.  On a queue state [netmap_confbuf_pre_read], asked for at least
    one byte, returns; and it returns NULL, the end of the data, exactly
    when nothing is queued and the buffer either has no chunk or has its
    tail chunk written to the brim.  With nothing queued and a tail that
    is not full it returns a region of storage that was never written. *)
Theorem pre_read_null_iff (m : kmem) (cb : netmap_confbuf) (q : list Z)
    (sz : Z) :
  fifo m cb q -> 0 < sz ->
  exists p k,
    netmap_confbuf_pre_read m cb sz = Ok (p, k) /\
    (p = None <->
     q = [] /\ (writep cb = None \/ next_w cb = NM_CBDATASIZ)).
Proof.
  intros Hf Hsz. destruct (writep cb) as [a|] eqn:Hwp.
  2:{ unfold fifo in Hf. rewrite Hwp in Hf. destruct Hf as (Hr & _ & _ & _ & ->).
      exists None, 0. unfold netmap_confbuf_pre_read. rewrite Hr.
      split; [reflexivity|]. split; auto. }
  assert (Hc : exists c, blocks m !! a = Some c /\
                         length (d_data c) = Z.to_nat NM_CBDATASIZ /\
                         0 <= next_w cb <= NM_CBDATASIZ).
  { unfold fifo in Hf. rewrite Hwp in Hf.
    destruct Hf as (pre & c & Hrep & _ & _ & _ & _ & [_ Hdl] & Hw & _).
    destruct (rep_last_live _ _ _ _ _ Hrep) as [Hc _]. eauto. }
  destruct Hc as (c & Hc & Hdl & Hw).
  pose proof (fifo_fill_tail _ _ _ _ _ Hf Hwp Hc) as Hfull.
  change (netmap_confbuf_pre_read m cb sz)
    with (netmap_confbuf_pre_read m (set_next_w cb NM_CBDATASIZ) sz).
  destruct (q ++ drop (Z.to_nat (next_w cb)) (d_data c)) as [|b rest] eqn:Hq.
  - (* nothing up to the end of the tail: NULL *)
    apply app_eq_nil in Hq. destruct Hq as [-> Hd].
    assert (Hnw : next_w cb = NM_CBDATASIZ).
    { apply (f_equal length) in Hd. rewrite length_drop, Hdl in Hd.
      cbn [length] in Hd. lia. }
    exists None, 0. split; [|split; auto].
    unfold fifo in Hfull. cbn [writep readp next_r next_w n_data set_next_w] in Hfull.
    rewrite Hwp in Hfull.
    destruct Hfull as (pre & c' & Hrep & _ & _ & _ & Hpre & [Hsz' Hdl'] & _ & Hr & _ & Hq).
    symmetry in Hq. apply (f_equal length) in Hq.
    rewrite length_drop, length_app, length_take, Hdl',
      (length_concat_ok _ Hpre), length_fmap in Hq. cbn [length] in Hq.
    destruct pre as [|ac pre]; [|cbn [length] in Hq; unfold NM_CBDATASIZ in *; lia].
    cbn in Hrep. destruct Hrep as (Hrd & Hc' & Hch).
    unfold netmap_confbuf_pre_read. cbn [readp next_r set_next_w]. rewrite Hrd.
    rewrite (pre_read_loop_skip _ _ _ _ _ _ Hc') by (unfold NM_CBDATASIZ in *; lia).
    rewrite Hch. rewrite (size_live _ _ _ Hc'). reflexivity.
  - (* something is left up to the end of the tail: a region *)
    destruct (fifo_read_step _ _ _ 1 Hfull) as (a' & off & k & Hpre & _);
      [cbn [length]; lia|].
    destruct (pre_read_loop_some _ _ _ _ _ _ _ Hpre sz) as [k' Hrun].
    exists (Some (a', off)), k'. split; [exact Hrun|].
    split; [discriminate|].
    intros [-> [Habs | Hnw]]; [discriminate Habs|].
    cbn [app] in Hq. apply (f_equal length) in Hq.
    rewrite length_drop, Hdl, Hnw in Hq. cbn [length] in Hq. lia.
Qed.

Lemma pre_read_null_iff_witness :
  exists p k,
    netmap_confbuf_pre_read (mem_init (fun _ _ => 165)) cb_zero 1 = Ok (p, k) /\
    (p = None <->
     @nil Z = [] /\ (writep cb_zero = None \/ next_w cb_zero = NM_CBDATASIZ)).
Proof.
  apply (pre_read_null_iff (mem_init (fun _ _ => 165)) cb_zero [] 1).
  - apply fifo_empty.
  - lia.
Defined.

(** ** A request count beyond the range of [int] *)

(** [int s = uio->uio_resid] keeps the low 32 bits of the count.  When
    they are all zero while bytes remain and the tail has free bytes,
    every turn of the write loop asks for 0 bytes, is offered 0 bytes,
    moves and commits nothing, and finds the same state again. *)
Lemma write_loop_spins (fuel : nat) (m : kmem) (i : netmap_confbuf) (u : uio)
    (a : addr) (c : nm_confbuf_data) :
  writep i = Some a -> blocks m !! a = Some c ->
  0 <= next_w i < d_size c -> d_size c < 4294967296 ->
  0 < uio_resid u -> to_int (uio_resid u) = 0 ->
  write_loop fuel m i u = Diverge.
Proof.
  intros Hwp Hc Hnw Hsz Hpos Hint.
  induction fuel as [|fuel IH]; [reflexivity|].
  cbn [write_loop]. rewrite (proj2 (Z.ltb_lt _ _) Hpos), Hint.
  change (u_int 0) with 0.
  rewrite (pre_write_tail m i 0 a c Hwp Hc Hnw Hsz). cbn [mbind result_bind].
  rewrite Z.min_l by lia. change (to_int (default 0 (Some 0))) with 0.
  assert (Hu : uiomove m (a, next_w i) 0 u = Ok (0, m, u)).
  { unfold uiomove. rewrite Z.min_l by lia. reflexivity. }
  rewrite Hu. cbn [mbind result_bind negb Z.eqb]. change (u_int 0) with 0.
  rewrite (post_write_eq m i 0 c) by (rewrite Hwp; apply deref_Some; exact Hc).
  assert (E : (next_w i =? d_size c) = false) by (apply Z.eqb_neq; lia).
  rewrite E. cbn [mbind result_bind].
  replace (mk_cb (readp i) (writep i) (next_r i) (u_int (next_w i + 0)) (n_data i))
    with i; [exact IH|].
  rewrite Z.add_0_r, u_int_small by lia. destruct i; reflexivity.
Qed.

(** A write call for 2^32 + 1 bytes on an empty buffer: the first turn
    sees a count of 1 and stores one byte; 2^32 bytes remain, and from
    then on the loop spins. *)
Lemma write_loop_4g_plus_1 (fuel : nat) (j : positive -> Z -> Z) (bs : list Z) :
  Z.of_nat (length bs) = 4294967297 ->
  write_loop fuel (mem_init j) cb_zero (uio_write bs None) = Diverge.
Proof.
  intros Hlen. destruct fuel as [|fuel]; [reflexivity|].
  cbn [write_loop uio_write uio_resid]. rewrite Hlen.
  change (0 <? 4294967297) with true. change (to_int 4294967297) with 1.
  change (u_int 1) with 1. cbv iota.
  assert (Hpre : netmap_confbuf_pre_write (mem_init j) cb_zero 1 (Some 1)
                 = Ok (mk_kmem {[ 1%positive :=
                                    mk_data None 1024
                                      (junk_bytes (mem_init j) 1%positive 1024) ]} [] j,
                       mk_cb (Some 1%positive) (Some 1%positive) 0 0 1,
                       Some (1%positive, 0), Some 1)).
  { vm_compute. reflexivity. }
  rewrite Hpre. cbn [mbind result_bind].
  change (to_int (default 0 (Some 1))) with 1. change (u_int 1) with 1.
  set (m1 := mk_kmem _ [] j). set (c1 := mk_data None 1024 _) in *.
  assert (Hc1 : blocks m1 !! 1%positive = Some c1) by apply lookup_singleton_eq.
  unfold uiomove, uio_write. cbn [uio_resid uio_fault uio_dir uio_user].
  rewrite Hlen. change (Z.min 1 4294967297) with 1.
  change (1 <=? 0) with false. cbv iota.
  destruct bs as [|b bs]; [discriminate Hlen|].
  change (take (Z.to_nat 1) (b :: bs)) with [b].
  assert (Hl : 0 + Z.of_nat (length [b]) <= Z.of_nat (length (d_data c1))).
  { unfold c1. cbn [d_data]. rewrite length_junk_bytes. cbn [length]. lia. }
  assert (Hst := store_bytes_Ok m1 1%positive 0 [b] c1 Hc1 ltac:(lia) Hl).
  rewrite Hst. cbn [mbind result_bind negb Z.eqb].
  set (m2 := set_blocks m1 _).
  set (c2 := mk_data (d_chain c1) (d_size c1) _) in *.
  assert (Hc2 : blocks m2 !! 1%positive = Some c2) by apply lookup_insert_eq.
  rewrite (post_write_eq m2 _ 1 c2) by (apply deref_Some; exact Hc2).
  cbn [next_w d_size c2 c1 mbind result_bind].
  change (0 =? 1024) with false. cbv iota.
  change (u_int (0 + 1)) with 1.
  apply (write_loop_spins fuel m2 _ _ 1%positive c2);
    [reflexivity | exact Hc2 | | | | ]; unfold c2, c1;
    cbn [next_w d_size uio_resid]; try lia; reflexivity.
Qed.

(** C4 at a failing input.  A call of [netmap_config_write] on a new
    channel that supplies 2^32 + 1 bytes, far more than
    [NM_CBDATAMAX * NM_CBDATASIZ], with a transport and an allocator that
    do not fail, does not return [ENOMEM]: it does not return at all.
    The count goes through [int s = uio->uio_resid]; after the first byte
    it is 2^32, [s] is 0, and every further turn moves nothing.  However
    many turns the loop is given, it has not left. *)
Theorem write_of_4g_plus_1_never_returns (fuel : nat) (j : positive -> Z -> Z) :
  netmap_config_write fuel (mem_init j) config0
    (uio_write (repeat 65 (Z.to_nat 4294967297)) None) = Diverge.
Proof.
  unfold netmap_config_write. cbn [buf0 buf1 config0].
  rewrite destroy_zero. cbn [mbind result_bind].
  rewrite write_loop_4g_plus_1; [reflexivity|].
  rewrite repeat_length. apply Z2Nat.id. lia.
Qed.
